(** * opBNB-BNB-Withdraw: the per-wallet bridge workflow and its orchestration

    A shallow embedding of [core/swap_module.py] (class [RhinoSwapModule])
    and [core/bot.py] (class [Bot]), with the Python values they compute on:
    [str], [int], [float] (IEEE binary64), [decimal.Decimal] and parsed JSON.

    Network and chain calls are answered by an explicit environment; every
    call a workflow makes is appended to a trace, so that statements about
    which requests were (or never were) sent can be read off the trace. *)

From Stdlib Require Import ZArith List String Ascii Bool Lia Permutation.
From Stdlib Require Import SpecFloat.
Import ListNotations.

Local Open Scope string_scope.
Local Open Scope Z_scope.

(* ===================================================================== *)
(** * Python strings

    A [str] is modelled as a [string] of 8-bit characters.  Only ASCII
    letters have a case and only ASCII white space is stripped, which is all
    the identifiers and numbers handled by the module consist of.  On other
    characters [str] and [int] do more (Unicode white space is stripped,
    Unicode digits are read): what is said of texts at large is said of
    ASCII texts. *)
(* ===================================================================== *)

Module PyStr.

Definition ord (c : ascii) : Z := Z.of_N (N_of_ascii c).

(** [str.isspace] on the ASCII range: TAB, LF, VT, FF, CR, FS, GS, RS, US
    and the blank. *)
Definition isspace (c : ascii) : bool :=
  ((9 <=? ord c) && (ord c <=? 13)) || ((28 <=? ord c) && (ord c <=? 32)).

Definition lower_char (c : ascii) : ascii :=
  if (65 <=? ord c) && (ord c <=? 90)
  then ascii_of_N (N_of_ascii c + 32) else c.

Definition upper_char (c : ascii) : ascii :=
  if (97 <=? ord c) && (ord c <=? 122)
  then ascii_of_N (N_of_ascii c - 32) else c.

Fixpoint map (f : ascii -> ascii) (s : string) : string :=
  match s with
  | EmptyString => EmptyString
  | String c r => String (f c) (map f r)
  end.

(** [s.lower()] and [s.upper()] *)
Definition lower : string -> string := map lower_char.
Definition upper : string -> string := map upper_char.

(** [s.lstrip(chars)], the characters to drop given as a predicate *)
Fixpoint lstrip_by (p : ascii -> bool) (s : string) : string :=
  match s with
  | EmptyString => EmptyString
  | String c r => if p c then lstrip_by p r else s
  end.

(** [s.rstrip(chars)] *)
Fixpoint rstrip_by (p : ascii -> bool) (s : string) : string :=
  match s with
  | EmptyString => EmptyString
  | String c r =>
      match rstrip_by p r with
      | EmptyString => if p c then EmptyString else String c EmptyString
      | r' => String c r'
      end
  end.

(** [s.strip()] *)
Definition strip (s : string) : string := rstrip_by isspace (lstrip_by isspace s).

(** [s.startswith(p)] *)
Fixpoint startswith (p s : string) : bool :=
  match p, s with
  | EmptyString, _ => true
  | String a p', String b s' => Ascii.eqb a b && startswith p' s'
  | String _ _, EmptyString => false
  end.

(** [s[n:]] *)
Fixpoint drop (n : nat) (s : string) : string :=
  match n, s with
  | O, _ => s
  | S n', String _ r => drop n' r
  | S _, EmptyString => EmptyString
  end.

(** [s[:n]] *)
Fixpoint take (n : nat) (s : string) : string :=
  match n, s with
  | S n', String c r => String c (take n' r)
  | _, _ => EmptyString
  end.

(** [c in s] for a character *)
Fixpoint mem (c : ascii) (s : string) : bool :=
  match s with
  | EmptyString => false
  | String d r => Ascii.eqb c d || mem c r
  end.

Fixpoint all (p : ascii -> bool) (s : string) : bool :=
  match s with
  | EmptyString => true
  | String c r => p c && all p r
  end.

(** ["c" * n] *)
Fixpoint repeat (c : ascii) (n : nat) : string :=
  match n with
  | O => EmptyString
  | S n' => String c (repeat c n')
  end.

(** [sorted(l)] on strings: insertion into an ordered list, by [<=] on
    code points (the order of [str]) *)
Fixpoint insert (x : string) (l : list string) : list string :=
  match l with
  | [] => [x]
  | y :: r => if String.leb x y then x :: l else y :: insert x r
  end.

Definition sorted (l : list string) : list string :=
  fold_right insert [] l.

(** [sep.join(l)] *)
Definition join (sep : string) (l : list string) : string := String.concat sep l.

End PyStr.

(* ===================================================================== *)
(** * [int(text, 16)]

    The literal grammar of CPython's [int] for base 16: optional white space
    around, an optional sign, an optional [0x]/[0X] marker (after which one
    underscore may stand), then hexadecimal digits in which single
    underscores may separate digits. *)
(* ===================================================================== *)

Module PyInt.
Import PyStr.

Definition digit_value (c : ascii) : option Z :=
  let n := ord c in
  if (48 <=? n) && (n <=? 57) then Some (n - 48)
  else if (97 <=? n) && (n <=? 122) then Some (n - 87)
  else if (65 <=? n) && (n <=? 90) then Some (n - 55)
  else None.

(** The value of [c] as a digit of the given base, if it is one. *)
Definition digit_in (base : Z) (c : ascii) : option Z :=
  match digit_value c with
  | Some d => if d <? base then Some d else None
  | None => None
  end.

Definition is_underscore (c : ascii) : bool := Ascii.eqb c "_".

(** Scans the digits: [acc] is the value so far, [prev_us] tells whether the
    previous character was an underscore and [seen] whether a digit was
    read.  Returns the value and the unread rest. *)
Fixpoint scan_digits (base : Z) (s : string) (acc : Z) (prev_us seen : bool)
  : option (Z * string) :=
  match s with
  | EmptyString => if prev_us || negb seen then None else Some (acc, EmptyString)
  | String c r =>
      match digit_in base c with
      | Some d => scan_digits base r (base * acc + d) false true
      | None =>
          if is_underscore c then
            if prev_us || negb seen then None
            else scan_digits base r acc true seen
          else if prev_us || negb seen then None else Some (acc, s)
      end
  end.

Definition split_sign (s : string) : bool * string :=
  match s with
  | String "+" r => (false, r)
  | String "-" r => (true, r)
  | _ => (false, s)
  end.

Definition skip_hex_marker (s : string) : string :=
  match s with
  | String "0" (String c r) =>
      if Ascii.eqb c "x" || Ascii.eqb c "X" then
        match r with
        | String "_" r' => r'
        | _ => r
        end
      else s
  | _ => s
  end.

(** [int(s, 16)]; [None] stands for [ValueError]. *)
Definition int16 (s : string) : option Z :=
  let (neg, body) := split_sign (lstrip_by isspace s) in
  match scan_digits 16 (skip_hex_marker body) 0 false false with
  | Some (v, rest) =>
      match lstrip_by isspace rest with
      | EmptyString => Some (if neg then - v else v)
      | _ => None
      end
  | None => None
  end.

(** [int(s)] in base 10: the same grammar without a marker. *)
Definition int10 (s : string) : option Z :=
  let (neg, body) := split_sign (lstrip_by isspace s) in
  match scan_digits 10 body 0 false false with
  | Some (v, rest) =>
      match lstrip_by isspace rest with
      | EmptyString => Some (if neg then - v else v)
      | _ => None
      end
  | None => None
  end.

(** [str(n)] for an [int]: its decimal digits, most significant first.
    The first argument of [digits_fuel] bounds the recursion and is the
    number itself. *)
Definition digit_char (d : Z) : ascii := ascii_of_N (48 + Z.to_N d).

Fixpoint digits_fuel (fuel : positive) (c : Z) (acc : string) : string :=
  let acc' := String (digit_char (c mod 10)) acc in
  if c <? 10 then acc'
  else match fuel with
       | xH => acc'
       | xO f | xI f => digits_fuel f (c / 10) acc'
       end.

Definition digits (c : Z) : string :=
  match c with
  | Zpos p => digits_fuel p c EmptyString
  | _ => "0"
  end.

Definition str (n : Z) : string :=
  if n <? 0 then "-" ++ digits (- n) else digits n.

End PyInt.

(** ** [RhinoSwapModule._quote_id_to_commitment_int] *)

Definition _quote_id_to_commitment_int (quote_id : string) : option Z :=
  let q := PyStr.lower (PyStr.strip quote_id) in
  let q := if PyStr.startswith "0x" q then PyStr.drop 2 q else q in
  PyInt.int16 q.

(** A string of hexadecimal digits, at least one. *)
Definition is_hex_char (c : ascii) : bool :=
  match PyInt.digit_in 16 c with Some _ => true | None => false end.

Definition is_hex_body (h : string) : bool :=
  negb (String.eqb h EmptyString) && PyStr.all is_hex_char h.

(** The number a string of hexadecimal digits denotes, most significant
    digit first. *)
Fixpoint hex_value_from (acc : Z) (h : string) : Z :=
  match h with
  | EmptyString => acc
  | String c r =>
      hex_value_from (16 * acc + match PyInt.digit_in 16 c with Some d => d | None => 0 end) r
  end.

Definition hex_value (h : string) : Z := hex_value_from 0 h.


(* ===================================================================== *)
(** * [decimal.Decimal]

    A finite decimal is a sign, a non-negative coefficient and an exponent:
    its value is [(-1)^neg * coeff * 10^exp].  Arithmetic rounds to the
    precision of the context, half to even, as the default context does
    ([prec = 28], [Emax = 999999]). *)
(* ===================================================================== *)

Module PyDecimal.

Record decimal := mkDecimal { neg : bool; coeff : Z; exp : Z }.

(** [Decimal(n)] for an [int]: exact. *)
Definition of_int (n : Z) : decimal := mkDecimal (n <? 0) (Z.abs n) 0.

(** Number of decimal digits of a coefficient ([len(str(c))]); the first
    argument bounds the recursion and is the coefficient itself. *)
Fixpoint ndigits_fuel (fuel : positive) (c : Z) : Z :=
  if c <? 10 then 1
  else match fuel with
       | xH => 1
       | xO f | xI f => 1 + ndigits_fuel f (c / 10)
       end.

Definition ndigits (c : Z) : Z :=
  match c with
  | Zpos p => ndigits_fuel p c
  | _ => 1
  end.

(** [c / 10^k] rounded half to even *)
Definition round_half_even (c k : Z) : Z :=
  let q := c / 10 ^ k in
  let r := c mod 10 ^ k in
  if (10 ^ k <? 2 * r) || ((2 * r =? 10 ^ k) && Z.odd q) then q + 1 else q.

Definition default_prec : Z := 28.
Definition Emax : Z := 999999.

(** The context's rounding of a result ([Decimal._fix]): at most [prec]
    digits are kept, and a coefficient that rounds up to [10^prec] loses its
    last zero.  [None] is the trapped [Overflow] signal.  The operands met
    here have exponents 0 and -2, far above the context's [Etiny], so the
    subnormal range plays no part. *)
Definition fix_context (prec : Z) (d : decimal) : option decimal :=
  let n := ndigits (coeff d) in
  let d' :=
    if n <=? prec then d
    else
      let k := n - prec in
      let q := round_half_even (coeff d) k in
      if q =? 10 ^ prec
      then mkDecimal (neg d) (10 ^ (prec - 1)) (exp d + k + 1)
      else mkDecimal (neg d) q (exp d + k)
  in
  if (negb (coeff d' =? 0)) && (Emax <? exp d' + ndigits (coeff d') - 1)
  then None else Some d'.

(** [a * b] in a context of precision [prec] *)
Definition mul (prec : Z) (a b : decimal) : option decimal :=
  fix_context prec (mkDecimal (xorb (neg a) (neg b)) (coeff a * coeff b) (exp a + exp b)).

(** [int(d)]: truncation toward zero *)
Definition to_int (d : decimal) : Z :=
  let v := if 0 <=? exp d then coeff d * 10 ^ exp d
           else coeff d / 10 ^ (- exp d) in
  if neg d then - v else v.

(** ** Text *)

(** [format(d, "f")]: positional notation, no exponent, no padding. *)
Definition format_f (d : decimal) : string :=
  let s := PyInt.digits (coeff d) in
  let len := Z.of_nat (String.length s) in
  let dotplace := exp d + len in
  let intpart :=
    if dotplace <? 0 then "0"
    else if len <? dotplace then s ++ PyStr.repeat "0" (Z.to_nat (dotplace - len))
    else match PyStr.take (Z.to_nat dotplace) s with
         | EmptyString => "0"
         | i => i
         end in
  let fracpart :=
    if dotplace <? 0 then PyStr.repeat "0" (Z.to_nat (- dotplace)) ++ s
    else if len <? dotplace then EmptyString
    else PyStr.drop (Z.to_nat dotplace) s in
  (if neg d then "-" else "") ++ intpart ++
  match fracpart with
  | EmptyString => EmptyString
  | f => "." ++ f
  end.

(** Reads a run of decimal digits; [None] on any other character. *)
Fixpoint read_digits (acc : Z) (s : string) : option Z :=
  match s with
  | EmptyString => Some acc
  | String c r =>
      match PyInt.digit_in 10 c with
      | Some d => read_digits (10 * acc + d) r
      | None => None
      end
  end.

(** Splits at the first ["."]: the part before, and the part after if there
    is a point. *)
Fixpoint split_point (s : string) : string * option string :=
  match s with
  | EmptyString => (EmptyString, None)
  | String c r =>
      if Ascii.eqb c "."
      then (EmptyString, Some r)
      else let (i, f) := split_point r in (String c i, f)
  end.

(** [Decimal(text)] for positional literals [[-+]digits[.digits]] (one of
    the two runs may be empty).  [None] stands for every other text: it is
    either rejected by the constructor ([InvalidOperation]) or not a finite
    number, which [to_wei] rejects in turn. *)
Definition of_string (s : string) : option decimal :=
  let (sign, body) := PyInt.split_sign (PyStr.strip s) in
  let (i, f) := split_point body in
  let f := match f with Some f => f | None => EmptyString end in
  match i ++ f with
  | EmptyString => None
  | digs =>
      match read_digits 0 digs with
      | Some c => Some (mkDecimal sign c (- Z.of_nat (String.length f)))
      | None => None
      end
  end.

(** The characters of a run of digits in such a literal: no white space,
    no sign, no point. *)
Definition plain (c : ascii) : bool :=
  negb (PyStr.isspace c) && negb (Ascii.eqb c "+") && negb (Ascii.eqb c "-").

Definition no_point (c : ascii) : bool := negb (Ascii.eqb c ".").

Definition literal_char (c : ascii) : bool := plain c && no_point c.

End PyDecimal.

(* ===================================================================== *)
(** * [web3]'s currency conversions

    [from_wei(n, "ether")] and [to_wei(d, "ether")] of the [web3] package,
    by their contract: exact decimal arithmetic (they compute with 999
    significant digits) on the range of a wei amount, [0 .. 2^256 - 1];
    [None] is the [ValueError] raised outside of it. *)
(* ===================================================================== *)

Module Web3.
Import PyDecimal.

Definition MAX_WEI : Z := 2 ^ 256 - 1.

(** An exact quotient keeps the exponent as close to the ideal one, 0, as
    the coefficient allows: trailing zeros are dropped while the exponent is
    negative. *)
Fixpoint ideal_exponent (n : nat) (c e : Z) : Z * Z :=
  match n with
  | O => (c, e)
  | S n' =>
      if (e <? 0) && (c mod 10 =? 0)
      then ideal_exponent n' (c / 10) (e + 1)
      else (c, e)
  end.

(** [from_wei(n, "ether")]: [n / 10^18] *)
Definition from_wei (n : Z) : option decimal :=
  if n =? 0 then Some (of_int 0)
  else if (n <? 0) || (MAX_WEI <? n) then None
  else let (c, e) := ideal_exponent 18 n (-18) in
       Some (mkDecimal false c e).

(** [to_wei(d, "ether")]: [int(d * 10^18)] *)
Definition to_wei (d : decimal) : option Z :=
  if coeff d =? 0 then Some 0
  else if neg d then None
  else
    let e := exp d + 18 in
    if 0 <=? e
    then (if MAX_WEI <? coeff d * 10 ^ e then None else Some (coeff d * 10 ^ e))
    else (if MAX_WEI * 10 ^ (- e) <? coeff d then None
          else Some (coeff d / 10 ^ (- e))).

End Web3.

(* ===================================================================== *)
(** * [float]: IEEE 754 binary64, round to nearest even *)
(* ===================================================================== *)

Module PyFloat.

Definition prec : Z := 53.
Definition emax : Z := 1024.

Definition float := spec_float.

(** Conversion of an [int] operand in mixed arithmetic; [None] is
    [OverflowError] (int too large to convert to float). *)
Definition of_int (n : Z) : option float :=
  match binary_normalize prec emax n 0 false with
  | S754_finite s m e => Some (S754_finite s m e)
  | S754_zero s => Some (S754_zero s)
  | _ => None
  end.

Definition mul (x y : float) : float := SFmul prec emax x y.

(** [int(x)]: truncation toward zero; [None] is the error raised for an
    infinity or a NaN. *)
Definition to_int (x : float) : option Z :=
  match x with
  | S754_zero _ => Some 0
  | S754_finite s m e =>
      let v := if 0 <=? e then Zpos m * 2 ^ e else Zpos m / 2 ^ (- e) in
      Some (if s then - v else v)
  | _ => None
  end.

(** [x <= 0] *)
Definition le_zero (x : float) : bool := SFleb x (S754_zero false).

(** The literal [1.20]: the double nearest to 6/5. *)
Definition lit_1_20 : float := S754_finite false 5404319552844595 (-52).

End PyFloat.

(** The ceiling of the quotient [a / b] of two integers, [b > 0]. *)
Definition ceil_div (a b : Z) : Z := - ((- a) / b).

(* ===================================================================== *)
(** * Parsed JSON, as [Response.json()] returns it *)
(* ===================================================================== *)

Set Warnings "-register-all".

Inductive json :=
| JNull
| JBool (b : bool)
| JInt (n : Z)
| JFloat (x : PyFloat.float)
| JStr (s : string)
| JList (l : list json)
| JDict (d : list (string * json)).

Module Json.

(** A dict is the list of its items, in order; a key occurs once in a dict,
    and a lookup takes the first item of a key. *)

(** Truth value of an object ([bool(v)]): [None], [False], zero and the
    empty string, list and dict are false. *)
Definition truthy (v : json) : bool :=
  match v with
  | JNull => false
  | JBool b => b
  | JInt n => negb (n =? 0)
  | JFloat (S754_zero _) => false
  | JFloat _ => true
  | JStr EmptyString => false
  | JStr _ => true
  | JList [] => false
  | JList _ => true
  | JDict [] => false
  | JDict _ => true
  end.

(** [a or b] *)
Definition or_ (a b : json) : json := if truthy a then a else b.

Fixpoint lookup (k : string) (d : list (string * json)) : option json :=
  match d with
  | [] => None
  | (k', v) :: r => if String.eqb k k' then Some v else lookup k r
  end.

(** [k in d] *)
Definition has_key (k : string) (d : list (string * json)) : bool :=
  match lookup k d with Some _ => true | None => false end.

(** [d.get(k)]: [None] when the key is absent *)
Definition get (k : string) (d : list (string * json)) : json :=
  match lookup k d with Some v => v | None => JNull end.

(** [d.keys()] *)
Definition keys (d : list (string * json)) : list string := List.map fst d.

End Json.

(* ===================================================================== *)
(** * Exceptions *)
(* ===================================================================== *)

(** What can go wrong inside Python or one of its libraries while the module
    computes on a value. *)
Inductive fault :=
| NotADict (v : json)            (* [.get], [in] or [.keys()] on another type *)
| NotAStr (v : json)             (* [.strip()] on another type *)
| InvalidIntLiteral (v : json)   (* [int(..)] rejects the value *)
| InvalidDecimal (s : string)    (* [Decimal(..)] rejects the text *)
| DecimalOverflow                (* the decimal context's trapped overflow *)
| FloatOverflow                  (* [int * float] or [int(float)] out of range *)
| WeiOutOfRange.                 (* [from_wei]/[to_wei] outside [0 .. 2^256-1] *)

Inductive exn :=
| RuntimeError (msg : string)    (* raised by the module itself, with its message *)
| Fault (f : fault)              (* raised by Python or a library on a value *)
| Remote (msg : string).         (* raised by a network, chain or key operation *)

Inductive outcome (A : Type) :=
| Returns (a : A)
| Raises (e : exn).

Arguments Returns {A} a.
Arguments Raises {A} e.

(* ===================================================================== *)
(** * The world outside the module

    Every operation that leaves the process is answered by the world, given
    the calls the same module instance made before (so that two reads of the
    gas price may differ).  Texts that Python produces for values ([str] of a
    parsed JSON value, the [.18f] format of a float, the message of a library
    exception) are part of it as well. *)
(* ===================================================================== *)

(** The deposit transaction handed to the node. *)
Record deposit_tx := mkTx {
  tx_to : string;
  tx_from : string;
  tx_commitment : Z;
  tx_value : Z;
  tx_nonce : Z;
  tx_chain_id : Z;
  tx_gas : Z;
  tx_gas_price : Z
}.

Record http_response := mkResponse {
  status_code : Z;
  text : string;
  response_json : option json (* [None]: the body is not JSON *)
}.

(** The calls that leave the module.  [HttpRequest] is a call of the HTTP
    client's [request] with its method, path, JSON body and authorization
    header; what the world answers to it is what that call gives, a
    response or the exception the client raises. *)
Inductive call :=
| HttpRequest (method path : string) (body : option json) (authorization : option json)
| GetBalance (address : string)
| GasPrice
| ChainId
| EstimateGas (to from : string) (commitment value : Z)
| GetTransactionCount (address : string)
| SendTransaction (tx : deposit_tx).

Record World := mkWorld {
  (* the bridge API *)
  http_request : list call -> string -> string -> option json -> option json
                 -> outcome http_response;
  (* the chain, through the RPC endpoint *)
  get_balance : list call -> string -> outcome Z;
  gas_price : list call -> outcome Z;
  chain_id : list call -> outcome Z;
  estimate_gas : list call -> string -> string -> Z -> Z -> outcome Z;
  get_transaction_count : list call -> string -> outcome Z;
  send_raw_transaction : list call -> deposit_tx -> outcome string;
  (* local library operations that may raise *)
  from_key : string -> outcome string;       (* private key to checksummed address *)
  to_checksum_address : json -> outcome string;
  (* texts *)
  str_json : json -> string;
  format_18f : PyFloat.float -> string;
  fault_text : fault -> string
}.

(** [str(v)] inside an f-string: a [str] stands for itself. *)
Definition py_str (w : World) (v : json) : string :=
  match v with
  | JStr s => s
  | _ => str_json w v
  end.

(** [str(e)] *)
Definition str_exn (w : World) (e : exn) : string :=
  match e with
  | RuntimeError msg => msg
  | Fault f => fault_text w f
  | Remote msg => msg
  end.

(* ===================================================================== *)
(** * The state of one module instance and its monad *)
(* ===================================================================== *)

Record module_state := mkState {
  _client : bool;              (* the HTTP client is open *)
  _jwt : option json;
  _configs : option json;
  trace : list call            (* every call made so far, oldest first *)
}.

Definition initial_state : module_state := mkState false None None [].

(** A computation of the module: it may change the state and either returns
    or raises; the state survives a raise (the calls made stay made). *)
Definition M (A : Type) : Type := module_state -> outcome A * module_state.

Definition ret {A} (a : A) : M A := fun s => (Returns a, s).

Definition raise {A} (e : exn) : M A := fun s => (Raises e, s).

Definition bind {A B} (m : M A) (k : A -> M B) : M B :=
  fun s =>
    match m s with
    | (Returns a, s') => k a s'
    | (Raises e, s') => (Raises e, s')
    end.

(** [try: m except Exception as e: h(e)] *)
Definition try_except {A} (m : M A) (h : exn -> M A) : M A :=
  fun s =>
    match m s with
    | (Returns a, s') => (Returns a, s')
    | (Raises e, s') => h e s'
    end.

Declare Scope py_scope.
Delimit Scope py_scope with py.
Notation "x <- m ;; k" := (bind m (fun x => k))
  (at level 61, m at next level, right associativity) : py_scope.
Notation "m ;;; k" := (bind m (fun _ => k))
  (at level 61, right associativity) : py_scope.

Local Open Scope py_scope.

(** Reading and setting the attributes of the instance. *)
Definition read {A} (field : module_state -> A) : M A :=
  fun s => (Returns (field s), s).

Definition set_client (open : bool) : M unit :=
  fun s => (Returns tt, mkState open (_jwt s) (_configs s) (trace s)).

Definition set_jwt (v : json) : M unit :=
  fun s => (Returns tt, mkState (_client s) (Some v) (_configs s) (trace s)).

Definition set_configs (v : json) : M unit :=
  fun s => (Returns tt, mkState (_client s) (_jwt s) (Some v) (trace s)).

(** A library operation that computes locally and may raise. *)
Definition local {A} (r : outcome A) : M A := fun s => (r, s).

(** Lifts a partial computation on values. *)
Definition of_option {A} (o : option A) (f : fault) : M A :=
  match o with
  | Some a => ret a
  | None => raise (Fault f)
  end.

(** Performs a call: it is recorded, then answered by the world from the
    calls made before it. *)
Definition perform {A} (c : call) (answer : list call -> outcome A) : M A :=
  fun s =>
    (answer (trace s),
     mkState (_client s) (_jwt s) (_configs s) (trace s ++ [c])).

(** Views a value as a dict, as [.get] and [in] need it. *)
Definition as_dict (v : json) : M (list (string * json)) :=
  match v with
  | JDict d => ret d
  | _ => raise (Fault (NotADict v))
  end.

(* ===================================================================== *)
(** * [core/swap_module.py]: class [RhinoSwapModule]

    Calls to the logger are left out: they change neither the state nor the
    control flow. *)
(* ===================================================================== *)

Definition CHAIN_IN : string := "OPBNB".
Definition CHAIN_OUT : string := "BINANCE".
Definition TOKEN_IN : string := "BNB".
Definition TOKEN_OUT : string := "BNB".

(** The fields set once by [__init__]. *)
Record module := mkModule {
  api_key : string;
  private_key : string;
  rpc_url : string;
  account_address : string;
  depositor_address : string;
  recipient_address : string
}.

(** [RhinoSwapModule(api_key=.., private_key=.., rpc_url=..)]: the account
    is derived from the key, which raises when the key cannot be parsed. *)
Definition new_module (w : World) (api_key private_key rpc_url : string)
  : outcome module :=
  match from_key w private_key with
  | Returns a => Returns (mkModule api_key private_key rpc_url a a a)
  | Raises e => Raises e
  end.

(** [_calc_max_send_wei], the arithmetic: the fee set aside for
    [conservative_gas = 300_000] units at the gas price, times [safety_mul],
    as an [int]. *)
Definition conservative_gas : Z := 300000.

Definition safety_mul_default : PyDecimal.decimal :=
  PyDecimal.mkDecimal false 125 (-2).          (* Decimal("1.25") *)

Definition fee_buffer (safety_mul : PyDecimal.decimal) (gas_price : Z) : option Z :=
  option_map PyDecimal.to_int
    (PyDecimal.mul PyDecimal.default_prec
       (PyDecimal.of_int (gas_price * conservative_gas)) safety_mul).

Definition max_send_of (balance fee_buffer : Z) : Z :=
  let max_send := balance - fee_buffer in
  if 0 <? max_send then max_send else 0.

(** [_send_native_deposit], the arithmetic: [int(gas_est * 1.20)], a float
    product cut to an [int]; [None] when Python raises on the way. *)
Definition gas_limit_of_estimate (gas_est : Z) : option Z :=
  match PyFloat.of_int gas_est with
  | Some x => PyFloat.to_int (PyFloat.mul x PyFloat.lit_1_20)
  | None => None
  end.

Definition fallback_gas_limit : Z := 300000.

(** [int(v)] for a value taken from a response *)
Definition int_of_json (v : json) : option Z :=
  match v with
  | JInt n => Some n
  | JBool b => Some (if b then 1 else 0)
  | JFloat x => PyFloat.to_int x
  | JStr s => PyInt.int10 s
  | _ => None
  end.

Local Open Scope py_scope.

Section Module_methods.

Variable w : World.
Variable self : module.

(** [cleanup] *)
Definition cleanup : M unit := set_client false.

(** [_http(method, path, json_body=.., jwt=..)] *)
Definition _http (method path : string) (json_body jwt : option json) : M json :=
  set_client true ;;;
  let authorization :=
    match jwt with
    | Some j => if Json.truthy j then Some j else None
    | None => None
    end in
  r <- perform (HttpRequest method path json_body authorization)
         (fun h => http_request w h method path json_body authorization) ;;
  match response_json r with
  | None =>
      raise (RuntimeError
               ("Non-JSON response (" ++ PyInt.str (status_code r) ++ "): "
                ++ PyStr.take 300 (text r)))
  | Some data =>
      if 400 <=? status_code r
      then raise (RuntimeError
                    ("HTTP " ++ PyInt.str (status_code r) ++ " " ++ path ++ ": "
                     ++ PyStr.take 800 (py_str w data)))
      else ret data
  end.

Definition auth_path : string := "/authentication/auth/apiKey".
Definition configs_path : string := "/bridge/configs".

(** The field names under which the token may come, in the order tried. *)
Definition jwt_fields : list string :=
  ["token"; "jwt"; "accessToken"; "authorization"].

(** [d.get(k1) or d.get(k2) or ...]: the first truthy value, else the last
    one looked up. *)
Fixpoint first_truthy (ks : list string) (d : list (string * json)) : json :=
  match ks with
  | [] => JNull
  | [k] => Json.get k d
  | k :: ks' => Json.or_ (Json.get k d) (first_truthy ks' d)
  end.

(** [if self._x: return self._x]: a cached value counts when it is truthy. *)
Definition cached (v : option json) : option json :=
  match v with
  | Some j => if Json.truthy j then Some j else None
  | None => None
  end.

(** [_get_jwt] *)
Definition _get_jwt : M json :=
  c <- read _jwt ;;
  match cached c with
  | Some j => ret j
  | None =>
      data <- _http "POST" auth_path
                (Some (JDict [("apiKey", JStr (api_key self))])) None ;;
      d <- as_dict data ;;
      let jwt := first_truthy jwt_fields d in
      if negb (Json.truthy jwt)
      then raise (RuntimeError ("Can't find JWT in response: " ++ str_json w data))
      else set_jwt jwt ;;; ret jwt
  end.

(** [_get_configs] *)
Definition _get_configs : M json :=
  c <- read _configs ;;
  match cached c with
  | Some c => ret c
  | None =>
      c <- _http "GET" configs_path None None ;;
      set_configs c ;;;
      ret c
  end.

(** [_get_native_balance_wei] *)
Definition _get_native_balance_wei : M Z :=
  perform (GetBalance (account_address self))
    (fun h => get_balance w h (account_address self)).

(** [_calc_max_send_wei(safety_mul=..)] *)
Definition _calc_max_send_wei (safety_mul : PyDecimal.decimal) : M Z :=
  balance <- _get_native_balance_wei ;;
  gas_price <- perform GasPrice (gas_price w) ;;
  fee <- of_option (fee_buffer safety_mul gas_price) DecimalOverflow ;;
  ret (max_send_of balance fee).

(** [_estimate_gas_native_deposit(bridge_contract, commitment_id_int, value_wei)] *)
Definition _estimate_gas_native_deposit (bridge : string) (commitment_id_int value_wei : Z)
  : M Z :=
  perform (EstimateGas bridge (account_address self) commitment_id_int value_wei)
    (fun h => estimate_gas w h bridge (account_address self) commitment_id_int value_wei).

(** [_send_native_deposit(bridge_address=.., chain_id=.., commitment_id_int=..,
    value_wei=..)] *)
Definition _send_native_deposit (bridge_address : json)
    (chain_id commitment_id_int value_wei : Z) : M string :=
  bridge <- local (to_checksum_address w bridge_address) ;;
  gas_price <- perform GasPrice (gas_price w) ;;
  gas_limit <- try_except
                 (gas_est <- _estimate_gas_native_deposit bridge commitment_id_int value_wei ;;
                  of_option (gas_limit_of_estimate gas_est) FloatOverflow)
                 (fun _ => ret fallback_gas_limit) ;;
  nonce <- perform (GetTransactionCount (account_address self))
             (fun h => get_transaction_count w h (account_address self)) ;;
  let tx := mkTx bridge (account_address self) commitment_id_int value_wei
                 nonce chain_id gas_limit gas_price in
  perform (SendTransaction tx) (fun h => send_raw_transaction w h tx).

(** The [if amount is None: .. else: ..] of [process_swap]: the amount of
    the quote request and of the deposit, as text; the maximum the balance
    allows when no amount is given, the given one otherwise. *)
Definition resolve_amount (amount : option PyFloat.float) : M string :=
  match amount with
  | None =>
      max_send_wei <- _calc_max_send_wei safety_mul_default ;;
      if max_send_wei <=? 0
      then raise (RuntimeError "Not enough balance to pay gas + amount (amount=None).")
      else
        amount_dec <- of_option (Web3.from_wei max_send_wei) WeiOutOfRange ;;
        ret (PyDecimal.format_f amount_dec)
  | Some amount =>
      if PyFloat.le_zero amount
      then raise (RuntimeError "Amount must be > 0 (or None for max balance).")
      else ret (PyStr.rstrip_by (Ascii.eqb ".")
                  (PyStr.rstrip_by (Ascii.eqb "0") (format_18f w amount)))
  end.

Definition quote_path : string := "/bridge/quote/bridge-swap/user".
Definition commit_path (quote_id : json) : string :=
  "/bridge/quote/commit/" ++ py_str w quote_id.

Definition quote_payload (amount_str : string) : json :=
  JDict [("chainIn", JStr CHAIN_IN);
         ("chainOut", JStr CHAIN_OUT);
         ("amount", JStr amount_str);
         ("mode", JStr "pay");
         ("tokenIn", JStr TOKEN_IN);
         ("tokenOut", JStr TOKEN_OUT);
         ("depositor", JStr (depositor_address self));
         ("recipient", JStr (recipient_address self));
         ("amountNative", JStr "0");
         ("isSda", JStr "false")].

(** What the first part of [process_swap] leaves for the rest. *)
Record route := mkRoute {
  route_jwt : json;
  route_chain_id : json;
  route_bridge_address : json
}.

(** [process_swap], from the token to the check of the native token
    (lines 168-188).  The fetched configs are used as a dict: on any other
    value one of [in], [.keys()] or the subscript raises before anything
    else is done. *)
Definition load_route : M route :=
  jwt <- _get_jwt ;;
  configs <- _get_configs ;;
  cfg <- as_dict configs ;;
  if negb (Json.has_key CHAIN_IN cfg)
  then
    let available := PyStr.join ", " (PyStr.sorted (Json.keys cfg)) in
    raise (RuntimeError ("chainIn '" ++ CHAIN_IN ++ "' not found in configs. Available: "
                         ++ available))
  else
    chain_cfg <- as_dict (Json.get CHAIN_IN cfg) ;;
    chain_id <- (let c := Json.get "chainId" chain_cfg in
                 if Json.truthy c then ret c
                 else (n <- perform ChainId (chain_id w) ;; ret (JInt n))) ;;
    let bridge_address := Json.get "contractAddress" chain_cfg in
    let native_token_name := Json.get "nativeTokenName" chain_cfg in
    if negb (Json.truthy bridge_address)
    then raise (RuntimeError ("Missing contractAddress for chain '" ++ CHAIN_IN
                              ++ "' in rhino configs"))
    else if Json.truthy native_token_name
            && negb (match native_token_name with
                     | JStr s => String.eqb TOKEN_IN s
                     | _ => false
                     end)
    then raise (RuntimeError
                  ("tokenIn '" ++ TOKEN_IN ++ "' != nativeTokenName '"
                   ++ py_str w native_token_name ++ "' for chain '" ++ CHAIN_IN
                   ++ "'. This module expects native deposit."))
    else ret (mkRoute jwt chain_id bridge_address).

(** [process_swap], from the quote request to the deposit (lines 203-247). *)
Definition quote_commit_deposit (r : route) (amount_str : string) : M string :=
  let jwt := route_jwt r in
  quote <- _http "POST" quote_path (Some (quote_payload amount_str)) (Some jwt) ;;
  q <- as_dict quote ;;
  let quote_id := Json.get "quoteId" q in
  if negb (Json.truthy quote_id)
  then raise (RuntimeError ("Quote has no quoteId: " ++ str_json w quote))
  else
    commit <- _http "POST" (commit_path quote_id) None (Some jwt) ;;
    c <- as_dict commit ;;
    let committed_id := Json.get "quoteId" c in
    if negb (Json.truthy committed_id)
    then raise (RuntimeError ("Commit failed: " ++ str_json w commit))
    else
      committed_text <- match committed_id with
                        | JStr s => ret s
                        | v => raise (Fault (NotAStr v))
                        end ;;
      commitment_int <- of_option (_quote_id_to_commitment_int committed_text)
                          (InvalidIntLiteral committed_id) ;;
      amount_dec <- of_option (PyDecimal.of_string amount_str)
                      (InvalidDecimal amount_str) ;;
      value_wei <- of_option (Web3.to_wei amount_dec) WeiOutOfRange ;;
      chain_id_int <- of_option (int_of_json (route_chain_id r))
                        (InvalidIntLiteral (route_chain_id r)) ;;
      _send_native_deposit (route_bridge_address r) chain_id_int commitment_int value_wei.

(** The body of [process_swap], inside its [try]. *)
Definition process_swap_body (amount : option PyFloat.float) : M string :=
  r <- load_route ;;
  amount_str <- resolve_amount amount ;;
  quote_commit_deposit r amount_str.

(** [process_swap(amount)]: [(True, tx_hash)] or [(False, str(e))] *)
Definition process_swap (amount : option PyFloat.float) : M (bool * string) :=
  try_except
    (tx_hash <- process_swap_body amount ;; ret (true, tx_hash))
    (fun e => ret (false, str_exn w e)).

End Module_methods.

(* ===================================================================== *)
(** * [core/bot.py]: class [Bot] *)
(* ===================================================================== *)

(** The part of [loader.config] the bot reads. *)
Record Config := mkConfig {
  wallets : list string;
  threads : nat;                 (* application_settings.threads *)
  rhino_api_key : string;
  opbnb_rpc_url : string;
  delay_min : Z;                 (* attempts_and_delay_settings.delay_before_start *)
  delay_max : Z
}.

(** The arguments of one [file_operations.export_result] call. *)
Record export := mkExport {
  ex_address : string;
  ex_status : bool;
  ex_label : string
}.

(** The link logged on success: the hash gets its [0x] if it lacks it. *)
Definition explorer_link (result : string) : string :=
  let tx_hash := if PyStr.startswith "0x" result then result else ("0x" ++ result)%string in
  ("https://opbnbscan.com/tx/" ++ tx_hash)%string.

(** [Bot.safe_swap(delay, private_key, rpc_url, amount)], the block under
    [async with semaphore]: how it ends and what it handed to
    [export_result].  The module is built before the [try], so an exception
    of its constructor leaves the block at once; inside the [try],
    [process_swap] returns its pair, the result is exported and [cleanup]
    runs in the [finally].  Sleeping [delay] seconds changes nothing here. *)
Definition safe_swap (w : World) (cfg : Config) (delay : Z)
    (private_key rpc_url : string) (amount : option PyFloat.float)
  : outcome unit * list export :=
  match new_module w (rhino_api_key cfg) private_key rpc_url with
  | Raises e => (Raises e, [])
  | Returns module =>
      match process_swap w module amount initial_state with
      | (Returns (status, result), s) =>
          let exported := [mkExport (depositor_address module) status "rhino_bridge"] in
          match cleanup s with
          | (Returns _, _) => (Returns tt, exported)
          | (Raises e, _) => (Raises e, exported)
          end
      | (Raises e, s) =>
          match cleanup s with
          | (_, _) => (Raises e, [])
          end
      end
  end.

(** [random.randint(a, b)]: [ValueError] on an empty range, else a number
    of [a .. b], picked here by an arbitrary integer [r]. *)
Definition randint (a b r : Z) : outcome Z :=
  if b <? a then Raises (Remote "empty range for randrange()")
  else Returns (a + r mod (b - a + 1)).

(** The delay drawn for one wallet in [process_swaps]. *)
Definition draw_delay (cfg : Config) (r : Z) : outcome Z :=
  if 0 <? delay_max cfg then randint (delay_min cfg) (delay_max cfg) r
  else Returns 0.

(** The loop of [process_swaps]: one task per wallet, in order, each with
    its delay; [random i] feeds the draw for the wallet at position [i].
    The range is the same for every wallet, so a draw that raises does so
    for the first wallet, before any task exists. *)
Fixpoint prepare_tasks (cfg : Config) (random : nat -> Z) (i : nat) (ws : list string)
  : outcome (list (string * Z)) :=
  match ws with
  | [] => Returns []
  | wallet :: rest =>
      match draw_delay cfg (random i) with
      | Raises e => Raises e
      | Returns delay =>
          match prepare_tasks cfg random (S i) rest with
          | Raises e => Raises e
          | Returns tasks => Returns ((wallet, delay) :: tasks)
          end
      end
  end.

(** ** The tasks under the semaphore

    A task waits for a permit, holds it while its block runs, and is then
    done or has failed with the exception that left the block.  Tasks share
    nothing but the semaphore and the sink of [export_result], so the block
    of a task is one step of the batch; the steps of different tasks
    interleave in any order. *)

Local Open Scope list_scope.

Inductive task_state :=
| Waiting
| Holding
| Done
| Failed (e : exn).

Record batch := mkBatch {
  permits : nat;                    (* free permits of the semaphore *)
  states : list task_state;         (* one per task, in task order *)
  exported : list export            (* the calls of export_result, in order *)
}.

(** Modelled from the spec: [loader.semaphore], which is not part of the
    sources at hand, is the global counting semaphore whose fixed capacity
    is [threads]; every task starts waiting for it. *)
Definition initial_batch (cfg : Config) (n : nat) : batch :=
  mkBatch (threads cfg) (List.repeat Waiting n) [].

Section Batch.

Variable cfg : Config.
(** The world as the task at each position meets it. *)
Variable worlds : nat -> World.
Variable tasks : list (string * Z).

(** What the block of the task at position [i] does. *)
Definition run_task (i : nat) (t : string * Z) : outcome unit * list export :=
  safe_swap (worlds i) cfg (snd t) (fst t) (opbnb_rpc_url cfg) None.

(** Modelled from the spec: [async with semaphore] takes a permit of
    [loader.semaphore] when one is free and waits otherwise ([step_acquire]),
    and gives it back however the block is left ([step_done],
    [step_failed]).  What the block does is [run_task], from the source. *)
Inductive step : batch -> batch -> Prop :=
| step_acquire : forall p before after ex,
    step (mkBatch (S p) (before ++ Waiting :: after) ex)
         (mkBatch p (before ++ Holding :: after) ex)
| step_done : forall p before after ex t recs,
    nth_error tasks (List.length before) = Some t ->
    run_task (List.length before) t = (Returns tt, recs) ->
    step (mkBatch p (before ++ Holding :: after) ex)
         (mkBatch (S p) (before ++ Done :: after) (ex ++ recs))
| step_failed : forall p before after ex t e recs,
    nth_error tasks (List.length before) = Some t ->
    run_task (List.length before) t = (Raises e, recs) ->
    step (mkBatch p (before ++ Holding :: after) ex)
         (mkBatch (S p) (before ++ Failed e :: after) (ex ++ recs)).

Inductive reachable : batch -> Prop :=
| reach_start : reachable (initial_batch cfg (List.length tasks))
| reach_step : forall b b', reachable b -> step b b' -> reachable b'.

Definition is_holding (s : task_state) : bool :=
  match s with Holding => true | _ => false end.

Definition is_done (s : task_state) : bool :=
  match s with Done => true | _ => false end.

(** Number of tasks inside the [async with] block. *)
Definition holding (b : batch) : nat := List.length (filter is_holding (states b)).

(** What the tasks that have left their block have exported, in task order;
    [i] is the position of the first task listed. *)
Fixpoint outputs (i : nat) (sts : list task_state) (ts : list (string * Z)) : list export :=
  match sts, ts with
  | st :: sts', t :: ts' =>
      match st with
      | Waiting | Holding => []
      | Done | Failed _ => snd (run_task i t)
      end ++ outputs (S i) sts' ts'
  | _, _ => []
  end.

End Batch.

(** What [export_result] is handed for a wallet whose key parses: its
    address, the status [process_swap] returned, and the label. *)
Definition wallet_record (w : World) (cfg : Config) (wallet : string) : export :=
  let address := match from_key w wallet with
                 | Returns a => a
                 | Raises _ => EmptyString
                 end in
  let module := mkModule (rhino_api_key cfg) wallet (opbnb_rpc_url cfg)
                         address address address in
  let status := match fst (process_swap w module None initial_state) with
                | Returns (status, _) => status
                | Raises _ => false
                end in
  mkExport address status "rhino_bridge".

(** The records of a whole batch, in wallet order; [i] is the position of
    the first wallet of [ws]. *)
Fixpoint wallet_records (worlds : nat -> World) (cfg : Config) (i : nat) (ws : list string)
  : list export :=
  match ws with
  | [] => []
  | wallet :: rest => wallet_record (worlds i) cfg wallet :: wallet_records worlds cfg (S i) rest
  end.

(** Every key of the batch parses. *)
Fixpoint keys_parse (worlds : nat -> World) (i : nat) (ws : list string) : bool :=
  match ws with
  | [] => true
  | wallet :: rest =>
      match from_key (worlds i) wallet with
      | Returns _ => keys_parse worlds (S i) rest
      | Raises _ => false
      end
  end.

(** The delay range can be drawn from. *)
Definition delay_range_ok (cfg : Config) : bool :=
  (delay_max cfg <=? 0)%Z || (delay_min cfg <=? delay_max cfg)%Z.

(** How [Bot.process_swaps] ends: it returns once [gather] has seen every
    task done, and raises what the loop raised or what a failed task raised
    ([gather] passes the exception on).  The exports made by then come with
    it. *)
Inductive batch_result :=
| Completed (exported : list export)
| Aborted (e : exn) (exported : list export).

Inductive process_swaps (cfg : Config) (worlds : nat -> World) (random : nat -> Z)
  : batch_result -> Prop :=
| swaps_not_started : forall e,
    prepare_tasks cfg random 0 (wallets cfg) = Raises e ->
    process_swaps cfg worlds random (Aborted e [])
| swaps_completed : forall tasks b,
    prepare_tasks cfg random 0 (wallets cfg) = Returns tasks ->
    reachable cfg worlds tasks b ->
    forallb is_done (states b) = true ->
    process_swaps cfg worlds random (Completed (exported b))
| swaps_aborted : forall tasks b e,
    prepare_tasks cfg random 0 (wallets cfg) = Returns tasks ->
    reachable cfg worlds tasks b ->
    In (Failed e) (states b) ->
    process_swaps cfg worlds random (Aborted e (exported b)).

(* ===================================================================== *)
(** * Classes of calls, and a small world to run the code in *)
(* ===================================================================== *)

Local Open Scope string_scope.
Local Open Scope Z_scope.

Definition requests (path : string) (c : call) : bool :=
  match c with
  | HttpRequest _ p _ _ => String.eqb p path
  | _ => false
  end.

(** The quote request. *)
Definition is_quote_request (c : call) : bool := requests quote_path c.

(** The two requests that precede everything else. *)
Definition is_setup_request (c : call) : bool :=
  requests auth_path c || requests configs_path c.

(** The calls [load_route] may make. *)
Definition is_route_call (c : call) : bool :=
  match c with
  | ChainId => true
  | _ => is_setup_request c
  end.


Module Sample.

Definition ok (v : json) : outcome http_response :=
  Returns (mkResponse 200 "" (Some v)).

(** A world that answers every request by path with a fixed body, reads a
    fixed balance and gas price, and knows the key ["k1"] only. *)
Definition world (auth configs quote commit : json) (balance price : Z)
    (estimate : outcome Z) : World :=
  mkWorld
    (fun _ _ path _ _ =>
       if String.eqb path auth_path then ok auth
       else if String.eqb path configs_path then ok configs
       else if String.eqb path quote_path then ok quote
       else ok commit)
    (fun _ _ => Returns balance)
    (fun _ => Returns price)
    (fun _ => Returns 204)
    (fun _ _ _ _ _ => estimate)
    (fun _ _ => Returns 7)
    (fun _ _ => Returns "0xfeed")
    (fun key => if String.eqb key "k1" then Returns "0xA1"
                else Raises (Remote "Non-hexadecimal digit found"))
    (fun v => match v with
              | JStr s => Returns s
              | _ => Raises (Remote "invalid address")
              end)
    (fun _ => "<json>")
    (fun _ => "0.000000000000000000")
    (fun _ => "<fault>").

Definition auth_ok : json := JDict [("token", JStr "jwt-1")].

Definition configs_ok : json :=
  JDict [("OPBNB", JDict [("chainId", JInt 204);
                          ("contractAddress", JStr "0xB2");
                          ("nativeTokenName", JStr "BNB")])].

Definition configs_other : json :=
  JDict [("ETHEREUM", JDict []); ("BASE", JDict [])].

Definition quote_ok : json := JDict [("quoteId", JStr "q-1")].
Definition commit_ok : json := JDict [("quoteId", JStr "0x2a")].

(** One ether of balance at a gas price of 5 gwei; the estimate is 21001. *)
Definition good : World :=
  world auth_ok configs_ok quote_ok commit_ok (10 ^ 18) 5000000000 (Returns 21001).

(** The same, the quote request being refused. *)
Definition refusing : World :=
  world auth_ok configs_ok (JDict []) commit_ok (10 ^ 18) 5000000000 (Returns 21001).

(** The same, with configs that do not list the source chain. *)
Definition other_chains : World :=
  world auth_ok configs_other quote_ok commit_ok (10 ^ 18) 5000000000 (Returns 21001).

(** The token field is there but empty; the next candidate carries one. *)
Definition auth_empty_token : json :=
  JDict [("token", JStr ""); ("jwt", JStr "jwt-2")].

Definition empty_token : World :=
  world auth_empty_token configs_ok quote_ok commit_ok (10 ^ 18) 5000000000 (Returns 21001).

Definition no_token : World :=
  world (JDict [("status", JStr "ok")]) configs_ok quote_ok commit_ok
        (10 ^ 18) 5000000000 (Returns 21001).

Definition self : module := mkModule "api-key" "k1" "https://rpc" "0xA1" "0xA1" "0xA1".

Definition minus_one : PyFloat.float := S754_finite true 4503599627370496 (-52).

(** Batches: one wallet, two wallets, and one wallet whose key does not
    parse; one permit, delays of 1 to 3 seconds. *)
Definition one_wallet : Config := mkConfig ["k1"] 1 "api-key" "https://rpc" 1 3.
Definition two_wallets : Config := mkConfig ["k1"; "k1"] 1 "api-key" "https://rpc" 1 3.
Definition bad_wallet : Config := mkConfig ["zz"] 1 "api-key" "https://rpc" 1 3.

(** The world [w] for a second wallet: the key ["k2"] is known as well. *)
Definition with_second_key (w : World) : World :=
  mkWorld (http_request w) (get_balance w) (gas_price w) (chain_id w) (estimate_gas w)
    (get_transaction_count w) (send_raw_transaction w)
    (fun key => if String.eqb key "k2" then Returns "0xC3" else from_key w key)
    (to_checksum_address w) (str_json w) (format_18f w) (fault_text w).

(** A batch of two wallets with two permits, in which the quote of the
    wallet at position 0 is refused and the wallet at position 1 is
    served. *)
Definition two_keys : Config := mkConfig ["k1"; "k2"] 2 "api-key" "https://rpc" 1 3.

Definition mixed (i : nat) : World :=
  match i with
  | O => with_second_key refusing
  | _ => with_second_key good
  end.

End Sample.

(* ===================================================================== *)
(** * Notions used to state facts about runs *)
(* ===================================================================== *)

(** The token as the spec words it, to compare with [first_truthy]: the
    value of the first candidate field that is present in the response. *)
Fixpoint first_present (ks : list string) (d : list (string * json)) : option json :=
  match ks with
  | [] => None
  | k :: ks' =>
      match Json.lookup k d with
      | Some v => Some v
      | None => first_present ks' d
      end
  end.

Module Calls.

(** [s'] has the trace of [s] and, after it, calls that all satisfy [P]. *)
Definition appends (P : call -> Prop) (s s' : module_state) : Prop :=
  exists ext, trace s' = (trace s ++ ext)%list /\ Forall P ext.

(** Run from [s], the computation [m] adds only calls that satisfy [P]. *)
Definition emits_from {A} (P : call -> Prop) (s : module_state) (m : M A) : Prop :=
  appends P s (snd (m s)).

Definition emits {A} (P : call -> Prop) (m : M A) : Prop :=
  forall s, emits_from P s m.

End Calls.

(** What holds in every state of a batch: one state per task; the permits
    taken are those of the tasks inside their block; the exports are those
    of the tasks that left it; a failed task is one whose block raised. *)
Definition batch_invariant (cfg : Config) (worlds : nat -> World)
    (tasks : list (string * Z)) (b : batch) : Prop :=
  List.length (states b) = List.length tasks /\
  (holding b + permits b = threads cfg)%nat /\
  Permutation (exported b) (outputs cfg worlds 0 (states b) tasks) /\
  (forall l1 e l2, states b = (l1 ++ Failed e :: l2)%list ->
     exists t recs, nth_error tasks (List.length l1) = Some t /\
                    run_task cfg worlds (List.length l1) t = (Raises e, recs)).

(** A run of the batch: [k] steps from its start, taken by the tasks in
    any order, lead to [b]. *)
Inductive run_of (cfg : Config) (worlds : nat -> World) (tasks : list (string * Z))
  : nat -> batch -> Prop :=
| run_start : run_of cfg worlds tasks 0%nat (initial_batch cfg (List.length tasks))
| run_step : forall k b b',
    run_of cfg worlds tasks k b -> step cfg worlds tasks b b' ->
    run_of cfg worlds tasks (S k) b'.

Definition is_waiting (s : task_state) : bool :=
  match s with Waiting => true | _ => false end.

(** The steps a batch has yet to take: two for a task that waits (it takes
    a permit, then leaves its block), one for a task inside its block. *)
Definition remaining (b : batch) : nat :=
  (2 * List.length (filter is_waiting (states b)) + holding b)%nat.

(** After [n] shifts to the right of the mantissa [m] (the rounding of a
    float result): the quotient by [2^n], with the remainder compared to one
    half by the round and sticky bits. *)
Definition shifted (m : Z) (n : positive) (R : shr_record) : Prop :=
  exists rem,
    (0 <= rem < 2 ^ Zpos n /\
     m = shr_m R * 2 ^ Zpos n + rem /\
     0 <= shr_m R /\
     shr_r R = (2 ^ (Zpos n - 1) <=? rem) /\
     shr_s R = negb (rem =? (if shr_r R then 2 ^ (Zpos n - 1) else 0)))%Z.

(* ===================================================================== *)
(** * More notions about runs: the requests of the setup, the deposit *)
(* ===================================================================== *)

Local Open Scope string_scope.
Local Open Scope Z_scope.
Local Open Scope list_scope.

(** The deposit handed to the node. *)
Definition is_send (c : call) : bool :=
  match c with
  | SendTransaction _ => true
  | _ => false
  end.

(** A request to the bridge API. *)
Definition is_http (c : call) : bool :=
  match c with
  | HttpRequest _ _ _ _ => true
  | _ => false
  end.

(** The request [_get_jwt] sends, and the one of [_get_configs]. *)
Definition auth_request (self : module) : call :=
  HttpRequest "POST" auth_path (Some (JDict [("apiKey", JStr (api_key self))])) None.

Definition configs_request : call := HttpRequest "GET" configs_path None None.

(** The state [_http] leaves behind: the client is open and the request is
    on the trace. *)
Definition after_request (s : module_state) (c : call) : module_state :=
  mkState true (_jwt s) (_configs s) (trace s ++ [c]).

(** How a computation that may end in the deposit runs from [s]: the calls
    it adds are [pre], none of them a deposit, and then either nothing more,
    the computation having raised, or the deposit [tx], in which case the
    computation gives what the node answered to it. *)
Definition ends_in_deposit (w : World) (s : module_state) (m : M string) : Prop :=
  exists pre,
    Forall (fun c => is_send c = false) pre /\
    ((exists e, fst (m s) = Raises e /\ trace (snd (m s)) = trace s ++ pre) \/
     (exists tx,
        trace (snd (m s)) = trace s ++ pre ++ [SendTransaction tx] /\
        fst (m s) = send_raw_transaction w (trace s ++ pre) tx)).

(** The computation leaves the cached token and configs as they are. *)
Definition keeps_caches {A} (m : M A) : Prop :=
  forall s, _jwt (snd (m s)) = _jwt s /\ _configs (snd (m s)) = _configs s.

(** In a state of a batch, a task that is done is one whose block
    returned. *)
Definition done_returned (cfg : Config) (worlds : nat -> World)
    (tasks : list (string * Z)) (b : batch) : Prop :=
  forall l1 l2,
    states b = l1 ++ Done :: l2 ->
    exists t recs,
      nth_error tasks (List.length l1) = Some t /\
      run_task cfg worlds (List.length l1) t = (Returns tt, recs).

(** More worlds to run the code in, after [Sample.world]. *)
Module Cases.

(** The configs list the source chain without a contract address. *)
Definition configs_no_contract : json :=
  JDict [("OPBNB", JDict [("chainId", JInt 204); ("nativeTokenName", JStr "BNB")])].

Definition no_contract : World :=
  Sample.world Sample.auth_ok configs_no_contract Sample.quote_ok Sample.commit_ok
    (10 ^ 18) 5000000000 (Returns 21001).

(** The native token of the source chain is not the one the module sends. *)
Definition configs_other_token : json :=
  JDict [("OPBNB", JDict [("chainId", JInt 204);
                          ("contractAddress", JStr "0xB2");
                          ("nativeTokenName", JStr "ETH")])].

Definition other_token : World :=
  Sample.world Sample.auth_ok configs_other_token Sample.quote_ok Sample.commit_ok
    (10 ^ 18) 5000000000 (Returns 21001).



(** The commit request is answered without an id. *)
Definition commit_refused : World :=
  Sample.world Sample.auth_ok Sample.configs_ok Sample.quote_ok (JDict [("error", JStr "expired")])
    (10 ^ 18) 5000000000 (Returns 21001).

(** Batches without wallets, with a delay range that cannot be drawn
    from, and without a permit. *)
Definition no_wallets : Config := mkConfig [] 1 "api-key" "https://rpc" 1 3.
Definition empty_range : Config := mkConfig ["k1"] 1 "api-key" "https://rpc" 5 2.
Definition no_permit : Config := mkConfig ["k1"] 0 "api-key" "https://rpc" 1 3.

End Cases.

(** ** Texts and tokens the client takes *)

(** A text of ASCII characters only, the texts on which [PyStr] and [PyInt]
    are [str] and [int]. *)
Definition is_ascii (s : string) : bool :=
  PyStr.all (fun c => PyStr.ord c <? 128) s.

(** A token as [_get_jwt] means it: no token, a falsy value (for which no
    header is set) or a [str].  A truthy token of another type is refused
    by the client as a header value, before anything is sent. *)
Definition header_token (jwt : option json) : bool :=
  match jwt with
  | None => true
  | Some (JStr _) => true
  | Some j => negb (Json.truthy j)
  end.

(** ** The block of [safe_swap], moment by moment

    Inside [async with semaphore] a task first runs its workflow, then
    calls [export_result], and only then runs [cleanup] and leaves the
    block: between the export and the exit it still holds its permit. *)

Inductive block_state :=
| Queued                (* waiting for a permit *)
| Running               (* inside the block, [export_result] not yet called *)
| Exported              (* [export_result] called, [cleanup] and the exit to come *)
| Finished              (* has left the block normally *)
| Crashed (e : exn).    (* has left the block by the exception [e] *)

Record moment := mkMoment {
  free : nat;                       (* free permits of the semaphore *)
  blocks : list block_state;        (* one per task, in task order *)
  sink : list export                (* the calls of export_result, in order *)
}.

(** The task has called [export_result]. *)
Definition has_exported (s : block_state) : bool :=
  match s with
  | Exported | Finished => true
  | _ => false
  end.

(** The task is inside the block and holds a permit. *)
Definition in_block (s : block_state) : bool :=
  match s with
  | Running | Exported => true
  | _ => false
  end.

(** A state of the batch read as a moment at which no task stands between
    its export and its exit. *)
Definition block_of (s : task_state) : block_state :=
  match s with
  | Waiting => Queued
  | Holding => Running
  | Done => Finished
  | Failed e => Crashed e
  end.

Definition moment_of_batch (b : batch) : moment :=
  mkMoment (permits b) (List.map block_of (states b)) (exported b).

Section Moments.

Variable cfg : Config.
Variable worlds : nat -> World.
Variable tasks : list (string * Z).

(** Modelled from the spec: [loader.semaphore] is the counting semaphore of
    capacity [threads]; a task takes a permit to enter the block
    ([tick_enter]) and gives it back when it leaves it, normally
    ([tick_leave]) or by an exception ([tick_raise]).  From the source: a
    block that returns has called [export_result] before it leaves
    ([tick_export], then [tick_leave]); what is exported, and whether the
    block returns or raises, is [run_task]. *)
Inductive tick : moment -> moment -> Prop :=
| tick_enter : forall p before after ex,
    tick (mkMoment (S p) (before ++ Queued :: after) ex)
         (mkMoment p (before ++ Running :: after) ex)
| tick_export : forall p before after ex t recs,
    nth_error tasks (List.length before) = Some t ->
    run_task cfg worlds (List.length before) t = (Returns tt, recs) ->
    tick (mkMoment p (before ++ Running :: after) ex)
         (mkMoment p (before ++ Exported :: after) (ex ++ recs))
| tick_leave : forall p before after ex,
    tick (mkMoment p (before ++ Exported :: after) ex)
         (mkMoment (S p) (before ++ Finished :: after) ex)
| tick_raise : forall p before after ex t e recs,
    nth_error tasks (List.length before) = Some t ->
    run_task cfg worlds (List.length before) t = (Raises e, recs) ->
    tick (mkMoment p (before ++ Running :: after) ex)
         (mkMoment (S p) (before ++ Crashed e :: after) (ex ++ recs)).

(** The moments a batch goes through. *)
Inductive moment_of : moment -> Prop :=
| moment_start :
    moment_of (mkMoment (threads cfg) (List.repeat Queued (List.length tasks)) [])
| moment_tick : forall m m', moment_of m -> tick m m' -> moment_of m'.

End Moments.

(* ===================================================================== *)
(** * [f"{x:.18f}"]: a float in positional notation with 18 decimals

    CPython prints the exact binary value of the float, correctly rounded
    to the number of decimals asked for: to the nearest, a tie going to the
    even digit. *)
(* ===================================================================== *)

Local Open Scope string_scope.
Local Open Scope Z_scope.

Module PyFloatText.

(** [m * 2^e * 10^18], rounded to an integer. *)
Definition scaled18 (m : positive) (e : Z) : Z :=
  let num := Zpos m * 10 ^ 18 in
  if 0 <=? e then num * 2 ^ e
  else
    let d := 2 ^ (- e) in
    let q := num / d in
    let r := num mod d in
    if (d <? 2 * r) || ((2 * r =? d) && Z.odd q) then q + 1 else q.

Definition sign_text (s : bool) : string := if s then "-" else "".

Definition format_18f (x : PyFloat.float) : string :=
  match x with
  | S754_zero s => sign_text s ++ "0.000000000000000000"
  | S754_infinity s => sign_text s ++ "inf"
  | S754_nan => "nan"
  | S754_finite s m e =>
      sign_text s ++ PyDecimal.format_f (PyDecimal.mkDecimal false (scaled18 m e) (-18))
  end.

(** The amount text of [process_swap] for an explicit amount:
    [f"{amount:.18f}".rstrip("0").rstrip(".")]. *)
Definition amount_text (x : PyFloat.float) : string :=
  PyStr.rstrip_by (Ascii.eqb ".") (PyStr.rstrip_by (Ascii.eqb "0") (format_18f x)).

(** A world whose float texts are those of CPython. *)
Definition python_text (w : World) : World :=
  mkWorld (http_request w) (get_balance w) (gas_price w) (chain_id w) (estimate_gas w)
          (get_transaction_count w) (send_raw_transaction w) (from_key w)
          (to_checksum_address w) (str_json w) format_18f (fault_text w).

End PyFloatText.

(* ===================================================================== *)
(** * Facts about strings and hexadecimal literals *)
(* ===================================================================== *)

Local Open Scope string_scope.

Module PyStrFacts.
Import PyStr.

Ltac ascii_cases c := destruct c as [[] [] [] [] [] [] [] []].

Lemma all_app (p : ascii -> bool) (s t : string) :
  all p (s ++ t) = all p s && all p t.
Proof.
  induction s as [|c s IH]; simpl; [reflexivity|].
  rewrite IH. apply andb_assoc.
Qed.

Lemma map_app (f : ascii -> ascii) (s t : string) :
  map f (s ++ t) = map f s ++ map f t.
Proof. induction s as [|c s IH]; simpl; [reflexivity| now rewrite IH]. Qed.

Lemma length_app (s t : string) :
  String.length (s ++ t) = (String.length s + String.length t)%nat.
Proof. induction s as [|c s IH]; simpl; [reflexivity| now rewrite IH]. Qed.

Lemma length_repeat (c : ascii) (n : nat) : String.length (repeat c n) = n.
Proof. induction n as [|n IH]; simpl; [reflexivity| now rewrite IH]. Qed.

Lemma app_empty_r (s : string) : s ++ "" = s.
Proof. induction s as [|c s IH]; simpl; [reflexivity| now rewrite IH]. Qed.

Lemma app_assoc (s t u : string) : (s ++ t) ++ u = s ++ (t ++ u).
Proof. induction s as [|c s IH]; simpl; [reflexivity| now rewrite IH]. Qed.

Lemma take_drop (n : nat) (s : string) : take n s ++ drop n s = s.
Proof.
  revert s; induction n as [|n IH]; intros [|c s]; simpl; try reflexivity.
  now rewrite IH.
Qed.

Lemma length_drop (n : nat) (s : string) :
  String.length (drop n s) = (String.length s - n)%nat.
Proof.
  revert s; induction n as [|n IH]; intros [|c s]; simpl; auto.
Qed.

Lemma all_take (p : ascii -> bool) (n : nat) (s : string) :
  all p s = true -> all p (take n s) = true.
Proof.
  revert s; induction n as [|n IH]; intros [|c s]; simpl; auto.
  intros H; apply andb_prop in H as [-> H]. simpl. auto.
Qed.

Lemma all_drop (p : ascii -> bool) (n : nat) (s : string) :
  all p s = true -> all p (drop n s) = true.
Proof.
  revert s; induction n as [|n IH]; intros [|c s]; simpl; auto.
  intros H; apply andb_prop in H as [_ H]. auto.
Qed.

Lemma all_impl (p q : ascii -> bool) (s : string) :
  (forall c, p c = true -> q c = true) -> all p s = true -> all q s = true.
Proof.
  intros Hpq; induction s as [|c s IH]; simpl; auto.
  intros H; apply andb_prop in H as [Hc Hs].
  rewrite (Hpq _ Hc), (IH Hs). reflexivity.
Qed.

(** Stripping leaves alone a text that neither starts nor ends with a
    character to strip. *)
Lemma lstrip_by_head (p : ascii -> bool) (c : ascii) (s : string) :
  p c = false -> lstrip_by p (String c s) = String c s.
Proof. intros H; simpl; now rewrite H. Qed.

Lemma rstrip_by_none (p : ascii -> bool) (s : string) :
  all (fun c => negb (p c)) s = true -> rstrip_by p s = s.
Proof.
  induction s as [|c s IH]; simpl; [reflexivity|].
  intros H; apply andb_prop in H as [Hc Hs].
  rewrite (IH Hs). apply negb_true_iff in Hc. rewrite Hc.
  destruct s; reflexivity.
Qed.

Lemma lstrip_by_none (p : ascii -> bool) (s : string) :
  all (fun c => negb (p c)) s = true -> lstrip_by p s = s.
Proof.
  destruct s as [|c s]; simpl; [reflexivity|].
  intros H; apply andb_prop in H as [Hc _].
  apply negb_true_iff in Hc. now rewrite Hc.
Qed.

Lemma lower_upper (s : string) : lower (upper s) = lower s.
Proof.
  unfold lower, upper. induction s as [|c s IH]; cbn [map]; [reflexivity|].
  rewrite IH. f_equal. ascii_cases c; reflexivity.
Qed.

Lemma lower_lower (s : string) : lower (lower s) = lower s.
Proof.
  unfold lower. induction s as [|c s IH]; cbn [map]; [reflexivity|].
  rewrite IH. f_equal. ascii_cases c; reflexivity.
Qed.

End PyStrFacts.

Module HexFacts.
Import PyStr PyInt PyStrFacts.

Lemma hex_char_not_space (c : ascii) :
  is_hex_char c = true -> negb (isspace c) = true.
Proof. ascii_cases c; vm_compute; congruence. Qed.

Lemma digit_value_lower (c : ascii) : digit_value (lower_char c) = digit_value c.
Proof. ascii_cases c; vm_compute; reflexivity. Qed.

Lemma digit_in_lower (b : Z) (c : ascii) : digit_in b (lower_char c) = digit_in b c.
Proof. unfold digit_in. now rewrite digit_value_lower. Qed.

Lemma is_hex_char_lower (c : ascii) : is_hex_char (lower_char c) = is_hex_char c.
Proof. unfold is_hex_char. now rewrite digit_in_lower. Qed.

Lemma hex_char_digit (c : ascii) :
  is_hex_char c = true -> exists d, digit_in 16 c = Some d.
Proof.
  unfold is_hex_char. destruct (digit_in 16 c) as [d|]; [eauto | discriminate].
Qed.

(** A hexadecimal digit is neither a sign nor the [x] of the marker. *)
Lemma split_sign_hex (c : ascii) (s : string) :
  is_hex_char c = true -> split_sign (String c s) = (false, String c s).
Proof. ascii_cases c; vm_compute; congruence. Qed.

Lemma skip_hex_marker_hex (s : string) :
  all is_hex_char s = true -> skip_hex_marker s = s.
Proof.
  destruct s as [|c [|c' s]]; simpl.
  - reflexivity.
  - intros _. ascii_cases c; reflexivity.
  - intros H. apply andb_prop in H as [_ H]. apply andb_prop in H as [H _].
    assert (Hx : Ascii.eqb c' "x" || Ascii.eqb c' "X" = false)
      by (revert H; ascii_cases c'; vm_compute; congruence).
    ascii_cases c; try reflexivity. now rewrite Hx.
Qed.

Lemma startswith_0x_hex (s : string) :
  all is_hex_char s = true -> startswith "0x" s = false.
Proof.
  destruct s as [|c [|c' s]].
  - reflexivity.
  - intros _. cbn [startswith]. apply andb_false_r.
  - intros H. cbn [all] in H.
    apply andb_prop in H as [_ H]. apply andb_prop in H as [H _].
    assert (Hx : Ascii.eqb "x" c' = false)
      by (revert H; ascii_cases c'; vm_compute; congruence).
    cbn [startswith]. rewrite Hx. apply andb_false_r.
Qed.

Lemma all_hex_lower (s : string) :
  all is_hex_char (lower s) = all is_hex_char s.
Proof.
  induction s as [|c s IH]; simpl; [reflexivity|].
  unfold lower in IH. now rewrite is_hex_char_lower, IH.
Qed.

Lemma hex_value_from_lower (s : string) (acc : Z) :
  hex_value_from acc (lower s) = hex_value_from acc s.
Proof.
  revert acc; induction s as [|c s IH]; intros acc; simpl; [reflexivity|].
  rewrite digit_in_lower. apply IH.
Qed.

(** Scanning a run of hexadecimal digits reads them all. *)
Lemma scan_digits_hex (s : string) (acc : Z) (seen : bool) :
  all is_hex_char s = true ->
  (s = EmptyString -> seen = true) ->
  scan_digits 16 s acc false seen = Some (hex_value_from acc s, EmptyString).
Proof.
  revert acc seen; induction s as [|c s IH]; intros acc seen Hall Hne; simpl.
  - rewrite (Hne eq_refl). reflexivity.
  - simpl in Hall. apply andb_prop in Hall as [Hc Hs].
    destruct (hex_char_digit c Hc) as [d Hd]. rewrite Hd.
    apply IH; auto.
Qed.

Lemma int16_hex (s : string) :
  is_hex_body s = true -> int16 s = Some (hex_value s).
Proof.
  unfold is_hex_body. intros H. apply andb_prop in H as [Hne Hall].
  destruct s as [|c s]; [discriminate|].
  unfold int16.
  assert (Hc : is_hex_char c = true) by (simpl in Hall; now apply andb_prop in Hall).
  rewrite lstrip_by_head by (apply negb_true_iff; now apply hex_char_not_space).
  rewrite (split_sign_hex c s Hc).
  rewrite (skip_hex_marker_hex _ Hall).
  rewrite (scan_digits_hex _ 0 false Hall) by discriminate.
  reflexivity.
Qed.

Lemma is_hex_body_lower (s : string) : is_hex_body (lower s) = is_hex_body s.
Proof.
  unfold is_hex_body. rewrite all_hex_lower. destruct s; reflexivity.
Qed.

Lemma strip_no_space (s : string) :
  all (fun c => negb (isspace c)) s = true -> strip s = s.
Proof.
  intros H. unfold strip. rewrite (lstrip_by_none _ _ H). now apply rstrip_by_none.
Qed.

Lemma hex_no_space (s : string) :
  all is_hex_char s = true -> all (fun c => negb (isspace c)) s = true.
Proof. apply all_impl. exact hex_char_not_space. Qed.

(** The commitment of a run of hexadecimal digits, bare or behind a marker
    in either case. *)
Lemma commitment_of_body (h : string) :
  is_hex_body h = true ->
  _quote_id_to_commitment_int h = Some (hex_value h) /\
  _quote_id_to_commitment_int ("0x" ++ h) = Some (hex_value h) /\
  _quote_id_to_commitment_int ("0X" ++ h) = Some (hex_value h).
Proof.
  intros Hb.
  assert (Hall : all is_hex_char h = true)
    by (unfold is_hex_body in Hb; now apply andb_prop in Hb).
  assert (Hl : int16 (lower h) = Some (hex_value h)).
  { rewrite int16_hex by now rewrite is_hex_body_lower.
    unfold hex_value. now rewrite hex_value_from_lower. }
  assert (Hns := hex_no_space _ Hall).
  unfold _quote_id_to_commitment_int. repeat split.
  - rewrite (strip_no_space _ Hns).
    rewrite startswith_0x_hex by now rewrite all_hex_lower. exact Hl.
  - rewrite strip_no_space by (simpl; exact Hns). exact Hl.
  - rewrite strip_no_space by (simpl; exact Hns). exact Hl.
Qed.

End HexFacts.

(** C6. For every commitment identifier written as hexadecimal digits, the
    integer derived by [_quote_id_to_commitment_int] is the number the digits
    denote, whether or not a "0x" marker stands in front and whatever the
    case of the letters: any two spellings that differ only by the marker
    and by letter case yield the same integer.  In particular "0xAB" and
    "ab" both yield 171 and "0x2a" yields 42. *)
Theorem C6_commitment_invariant_under_prefix_and_case :
  forall h h' : string,
    is_hex_body h = true ->
    PyStr.lower h' = PyStr.lower h ->
    (_quote_id_to_commitment_int h = Some (hex_value h) /\
     _quote_id_to_commitment_int ("0x" ++ h) = Some (hex_value h) /\
     _quote_id_to_commitment_int ("0X" ++ h) = Some (hex_value h)) /\
    (_quote_id_to_commitment_int h' = Some (hex_value h) /\
     _quote_id_to_commitment_int ("0x" ++ h') = Some (hex_value h) /\
     _quote_id_to_commitment_int ("0X" ++ h') = Some (hex_value h)) /\
    _quote_id_to_commitment_int (PyStr.upper h) = Some (hex_value h) /\
    _quote_id_to_commitment_int (PyStr.lower h) = Some (hex_value h) /\
    _quote_id_to_commitment_int "0xAB" = Some 171 /\
    _quote_id_to_commitment_int "ab" = Some 171 /\
    _quote_id_to_commitment_int "0x2a" = Some 42.
Proof.
  intros h h' Hb Hcase.
  assert (Hv : forall k, PyStr.lower k = PyStr.lower h -> hex_value k = hex_value h).
  { intros k Hk. unfold hex_value.
    rewrite <- (HexFacts.hex_value_from_lower k), Hk.
    apply HexFacts.hex_value_from_lower. }
  assert (Hbody : forall k, PyStr.lower k = PyStr.lower h -> is_hex_body k = true).
  { intros k Hk. rewrite <- HexFacts.is_hex_body_lower, Hk.
    now rewrite HexFacts.is_hex_body_lower. }
  assert (Hup := PyStrFacts.lower_upper h).
  assert (Hlow := PyStrFacts.lower_lower h).
  split; [exact (HexFacts.commitment_of_body h Hb)|].
  split.
  { rewrite <- (Hv h' Hcase). exact (HexFacts.commitment_of_body h' (Hbody h' Hcase)). }
  split.
  { rewrite <- (Hv _ Hup). exact (proj1 (HexFacts.commitment_of_body _ (Hbody _ Hup))). }
  split.
  { rewrite <- (Hv _ Hlow). exact (proj1 (HexFacts.commitment_of_body _ (Hbody _ Hlow))). }
  repeat split; reflexivity.
Qed.

Lemma C6_witness :
  is_hex_body "2A" = true /\ PyStr.lower "2a" = PyStr.lower "2A" /\
  _quote_id_to_commitment_int "0x2a" = Some (hex_value "2A").
Proof.
  split; [reflexivity|]. split; [reflexivity|].
  exact (proj1 (proj2 (proj1 (proj2
    (C6_commitment_invariant_under_prefix_and_case "2A" "2a" eq_refl eq_refl))))).
Defined.

(* ===================================================================== *)
(** * Facts about decimals: the fee buffer *)
(* ===================================================================== *)

Local Open Scope Z_scope.

Module DecimalFacts.
Import PyDecimal.

Lemma ndigits_fuel_pos (fuel : positive) (c : Z) : 1 <= ndigits_fuel fuel c.
Proof.
  revert c; induction fuel as [f IH|f IH|]; intros c; cbn [ndigits_fuel];
    destruct (c <? 10); try lia; specialize (IH (c / 10)); lia.
Qed.

Lemma ndigits_pos (c : Z) : 1 <= ndigits c.
Proof. destruct c; simpl; try lia. apply ndigits_fuel_pos. Qed.

(** A number below [10^n] has at most [n] digits. *)
Lemma ndigits_fuel_le (fuel : positive) :
  forall c n, 0 <= c <= Zpos fuel -> 1 <= n -> c < 10 ^ n ->
              ndigits_fuel fuel c <= n.
Proof.
  induction fuel as [f IH|f IH|]; intros c n Hc Hn Hlt; cbn [ndigits_fuel];
    destruct (Z.ltb_spec c 10) as [Hs|Hs]; try lia.
  all: assert (Hn2 : 2 <= n)
         by (destruct (Z.eq_dec n 1) as [->|]; [simpl in Hlt; lia | lia]).
  all: assert (Hp : 10 ^ n = 10 * 10 ^ (n - 1))
         by (rewrite <- Z.pow_succ_r by lia; f_equal; lia).
  all: assert (Hd : ndigits_fuel f (c / 10) <= n - 1);
         [ apply IH;
           [ split; [apply Z.div_pos; lia | apply Z.div_le_upper_bound; lia]
           | lia
           | apply Z.div_lt_upper_bound; lia ]
         | lia ].
Qed.

Lemma ndigits_le (c n : Z) : 0 <= c -> 1 <= n -> c < 10 ^ n -> ndigits c <= n.
Proof.
  intros Hc Hn Hlt. destruct c as [|p|p]; simpl; try lia.
  apply ndigits_fuel_le; lia.
Qed.

Lemma pow10_28 : 10 ^ 28 = 10000000000000000000000000000.
Proof. reflexivity. Qed.

Lemma pow10_33 : 10 ^ 33 = 1000000000000000000000000000000000.
Proof. reflexivity. Qed.

Lemma no_overflow (c e : Z) :
  0 <= c < 10 ^ 33 -> e <= 10 ->
  negb (c =? 0) && (Emax <? e + ndigits c - 1) = false.
Proof.
  intros Hc He. pose proof (ndigits_le c 33 (proj1 Hc) ltac:(lia) (proj2 Hc)).
  apply andb_false_iff; right. apply Z.ltb_ge. unfold Emax. lia.
Qed.

(** One digit-count of the rounding in [fix_context], for a coefficient
    [m * 10^5] with [m < 10^28]: the [k] digits dropped are zeros. *)
Lemma fix_drop_zeros (sgn : bool) (m k pk rest : Z) :
  0 <= m < 10 ^ 28 -> 1 <= k <= 5 ->
  pk = 10 ^ k -> rest * pk = 100000 -> 0 < rest ->
  exists d',
    (let q := round_half_even (m * 100000) k in
     let d1 := if q =? 10 ^ 28
               then mkDecimal sgn (10 ^ (28 - 1)) (-2 + k + 1)
               else mkDecimal sgn q (-2 + k) in
     if negb (coeff d1 =? 0) && (Emax <? exp d1 + ndigits (coeff d1) - 1)
     then None else Some d1) = Some d'
    /\ to_int d' = if sgn then - (m * 1000) else m * 1000.
Proof.
  intros Hm Hk Hpk Hrest Hr.
  assert (Hpkpos : 0 < pk) by (subst pk; apply Z.pow_pos_nonneg; lia).
  unfold round_half_even. rewrite <- Hpk.
  replace (m * 100000) with (m * rest * pk) by (rewrite <- Hrest; ring).
  rewrite Z.div_mul, Z.mod_mul by lia.
  replace (pk <? 2 * 0) with false by (symmetry; apply Z.ltb_ge; lia).
  replace (2 * 0 =? pk) with false by (symmetry; apply Z.eqb_neq; lia).
  cbn [orb andb]. cbv zeta.
  rewrite pow10_28 in *.
  assert (Hcases : (k = 1 /\ pk = 10) \/ (k = 2 /\ pk = 100) \/ (k = 3 /\ pk = 1000)
                   \/ (k = 4 /\ pk = 10000) \/ (k = 5 /\ pk = 100000)).
  { assert (Hk' : k = 1 \/ k = 2 \/ k = 3 \/ k = 4 \/ k = 5) by lia.
    destruct Hk' as [ -> | [ -> | [ -> | [ -> | -> ] ] ] ]; subst pk; auto 10. }
  destruct (Z.eqb_spec (m * rest) 10000000000000000000000000000) as [Heq|Hne].
  - cbn [coeff exp].
    change (10 ^ (28 - 1)) with 1000000000000000000000000000.
    rewrite no_overflow by (try rewrite pow10_33; lia).
    eexists; split; [reflexivity|].
    unfold to_int; cbn [coeff exp neg].
    destruct Hcases as [ [ -> -> ] | [ [ -> -> ] | [ [ -> -> ] | [ [ -> -> ] | [ -> -> ] ] ] ] ];
      cbn [Z.add Z.leb Z.compare Z.pos_sub Pos.pred_double Z.succ_double Z.pred_double Z.double];
      destruct sgn; cbn; lia.
  - cbn [coeff exp].
    rewrite no_overflow by (try rewrite pow10_33; nia).
    eexists; split; [reflexivity|].
    unfold to_int; cbn [coeff exp neg].
    destruct Hcases as [ [ -> -> ] | [ [ -> -> ] | [ [ -> -> ] | [ [ -> -> ] | [ -> -> ] ] ] ] ].
    + change (0 <=? -2 + 1) with false. cbv iota.
      change (10 ^ (- (-2 + 1))) with 10.
      replace (m * rest) with (m * 1000 * 10) by lia.
      rewrite Z.div_mul by lia. reflexivity.
    + change (0 <=? -2 + 2) with true. cbv iota.
      change (10 ^ (-2 + 2)) with 1.
      replace (m * rest * 1) with (m * 1000) by lia. reflexivity.
    + change (0 <=? -2 + 3) with true. cbv iota.
      change (10 ^ (-2 + 3)) with 10.
      replace (m * rest * 10) with (m * 1000) by lia. reflexivity.
    + change (0 <=? -2 + 4) with true. cbv iota.
      change (10 ^ (-2 + 4)) with 100.
      replace (m * rest * 100) with (m * 1000) by lia. reflexivity.
    + change (0 <=? -2 + 5) with true. cbv iota.
      change (10 ^ (-2 + 5)) with 1000.
      replace (m * rest * 1000) with (m * 1000) by lia. reflexivity.
Qed.

(** The context's rounding changes nothing in the value of [m * 10^5 * 10^-2]
    as long as [m] has at most 28 digits. *)
Lemma fix_context_fee (sgn : bool) (m : Z) :
  0 <= m < 10 ^ 28 ->
  exists d', fix_context default_prec (mkDecimal sgn (m * 100000) (-2)) = Some d'
             /\ to_int d' = if sgn then - (m * 1000) else m * 1000.
Proof.
  intros Hm. unfold fix_context, default_prec. cbn [coeff exp neg].
  assert (Hc : 0 <= m * 100000 < 10 ^ 33) by (rewrite pow10_33; rewrite pow10_28 in Hm; lia).
  pose proof (ndigits_le _ 33 (proj1 Hc) ltac:(lia) (proj2 Hc)) as Hn.
  pose proof (ndigits_pos (m * 100000)) as Hn1.
  destruct (Z.leb_spec (ndigits (m * 100000)) 28) as [Hle|Hgt].
  - cbn [coeff exp neg]. rewrite no_overflow by first [exact Hc | lia].
    eexists; split; [reflexivity|].
    unfold to_int; cbn [coeff exp neg].
    change (0 <=? -2) with false. cbv iota. change (10 ^ (- -2)) with 100.
    replace (m * 100000) with (m * 1000 * 100) by lia.
    rewrite Z.div_mul by lia. reflexivity.
  - cbn [coeff exp neg]. set (k := ndigits (m * 100000) - 28) in *.
    assert (Hk : 1 <= k <= 5) by (unfold k; lia).
    assert (Hk' : k = 1 \/ k = 2 \/ k = 3 \/ k = 4 \/ k = 5) by lia.
    destruct Hk' as [E|[E|[E|[E|E]]]]; rewrite E.
    + apply (fix_drop_zeros sgn m 1 10 10000); auto; lia.
    + apply (fix_drop_zeros sgn m 2 100 1000); auto; lia.
    + apply (fix_drop_zeros sgn m 3 1000 100); auto; lia.
    + apply (fix_drop_zeros sgn m 4 10000 10); auto; lia.
    + apply (fix_drop_zeros sgn m 5 100000 1); auto; lia.
Qed.

End DecimalFacts.

(* ===================================================================== *)
(** * Which calls a computation adds to the trace *)
(* ===================================================================== *)

Local Open Scope list_scope.

Module CallFacts.
Import Calls.

Lemma appends_same (P : call -> Prop) (s s' : module_state) :
  trace s' = trace s -> appends P s s'.
Proof. intros H. exists []. rewrite app_nil_r. auto. Qed.

Lemma appends_one (P : call -> Prop) (s s' : module_state) (c : call) :
  trace s' = trace s ++ [c] -> P c -> appends P s s'.
Proof. intros H Hc. exists [c]. auto. Qed.

Lemma appends_trans (P : call -> Prop) (s1 s2 s3 : module_state) :
  appends P s1 s2 -> appends P s2 s3 -> appends P s1 s3.
Proof.
  intros (e1 & H1 & F1) (e2 & H2 & F2). exists (e1 ++ e2). split.
  - rewrite H2, H1. now rewrite app_assoc.
  - apply Forall_app; auto.
Qed.

Lemma appends_weaken (P Q : call -> Prop) (s s' : module_state) :
  (forall c, P c -> Q c) -> appends P s s' -> appends Q s s'.
Proof.
  intros HPQ (e & H & F). exists e. split; [exact H|].
  eapply Forall_impl; eauto.
Qed.

Section Rules.

Context {A B : Type} (P : call -> Prop).

Lemma emits_from_pure (s : module_state) (m : M A) :
  trace (snd (m s)) = trace s -> emits_from P s m.
Proof. apply appends_same. Qed.

Lemma emits_from_perform (s : module_state) (c : call) (answer : list call -> outcome A) :
  P c -> emits_from P s (perform c answer).
Proof. intros Hc. eapply appends_one; [reflexivity | exact Hc]. Qed.

Lemma emits_from_bind (s : module_state) (m : M A) (k : A -> M B) :
  emits_from P s m ->
  (forall a s1, m s = (Returns a, s1) -> emits_from P s1 (k a)) ->
  emits_from P s (bind m k).
Proof.
  unfold emits_from, bind. intros Hm Hk.
  destruct (m s) as [[a|e] s1] eqn:E; cbn [snd] in *.
  - eapply appends_trans; [exact Hm | apply (Hk a s1 eq_refl)].
  - exact Hm.
Qed.

Lemma emits_from_try (s : module_state) (m : M A) (h : exn -> M A) :
  emits_from P s m ->
  (forall e s1, m s = (Raises e, s1) -> emits_from P s1 (h e)) ->
  emits_from P s (try_except m h).
Proof.
  unfold emits_from, try_except. intros Hm Hh.
  destruct (m s) as [[a|e] s1] eqn:E; cbn [snd] in *.
  - exact Hm.
  - eapply appends_trans; [exact Hm | apply (Hh e s1 eq_refl)].
Qed.

End Rules.

Lemma of_option_returns {A} (o : option A) (f : fault) (s s' : module_state) (a : A) :
  of_option o f s = (Returns a, s') -> o = Some a.
Proof. destruct o; cbn; intros H; inversion H; reflexivity. Qed.

(** Takes one step through a computation: a pure step, a sequence, a
    handler, a call, or a case analysis on what the code branches on. *)
Ltac emits_step_or known :=
  first
    [ known
    | apply emits_from_pure; reflexivity
    | apply emits_from_bind; [ | intros ? ? ? ]
    | apply emits_from_try; [ | intros ? ? ? ]
    | apply emits_from_perform
    | match goal with
      | |- emits_from _ _ (match ?x with _ => _ end) => destruct x eqn:?
      | |- emits_from _ _ (of_option ?x _) => destruct x eqn:?
      | |- emits_from _ _ (as_dict ?x) => destruct x eqn:?
      end
    | progress cbv zeta ].

Ltac emits_step := emits_step_or fail.

Section Module_calls.

Variable w : World.
Variable self : module.
Variable P : call -> Prop.

Lemma emits_http (method path : string) (json_body jwt : option json) :
  (forall m b a, P (HttpRequest m path b a)) ->
  emits P (_http w method path json_body jwt).
Proof.
  intros HP s. unfold _http. repeat emits_step. apply HP.
Qed.

Lemma emits_get_jwt :
  (forall m b a, P (HttpRequest m auth_path b a)) ->
  emits P (_get_jwt w self).
Proof.
  intros HP s. unfold _get_jwt.
  repeat emits_step_or ltac:(now apply emits_http).
Qed.

Lemma emits_get_configs :
  (forall m b a, P (HttpRequest m configs_path b a)) ->
  emits P (_get_configs w).
Proof.
  intros HP s. unfold _get_configs.
  repeat emits_step_or ltac:(now apply emits_http).
Qed.

Lemma emits_load_route :
  (forall m b a, P (HttpRequest m auth_path b a)) ->
  (forall m b a, P (HttpRequest m configs_path b a)) ->
  P ChainId ->
  emits P (load_route w self).
Proof.
  intros HA HC HI s. unfold load_route.
  apply emits_from_bind; [now apply emits_get_jwt | intros jwt s1 _].
  apply emits_from_bind; [now apply emits_get_configs | intros configs s2 _].
  repeat emits_step. exact HI.
Qed.

End Module_calls.

Lemma route_calls (w : World) (self : module) :
  emits (fun c => is_route_call c = true) (load_route w self).
Proof. apply emits_load_route; intros; reflexivity. Qed.

End CallFacts.

(* ===================================================================== *)
(** * The workflow: what is requested, and when it stops *)
(* ===================================================================== *)

Local Open Scope string_scope.
Local Open Scope list_scope.

Module WorkflowFacts.

Lemma insert_perm (x : string) (l : list string) :
  Permutation (PyStr.insert x l) (x :: l).
Proof.
  induction l as [|y l IH]; simpl; [reflexivity|].
  destruct (String.leb x y); [reflexivity|].
  rewrite IH. apply perm_swap.
Qed.

Lemma sorted_perm (l : list string) : Permutation (PyStr.sorted l) l.
Proof.
  induction l as [|x l IH]; simpl; [reflexivity|].
  rewrite insert_perm. now apply perm_skip.
Qed.

(** [_http] makes exactly one call, whatever comes back. *)
Lemma http_trace (w : World) (method path : string) (json_body jwt : option json)
    (s : module_state) :
  exists a,
    trace (snd (_http w method path json_body jwt s))
    = trace s ++ [HttpRequest method path json_body a].
Proof.
  unfold _http, bind, set_client, perform; cbn [trace snd fst].
  eexists.
  destruct (http_request w _ _ _ _ _) as [r|e]; cbn [snd trace]; [|reflexivity].
  destruct (response_json r); [|reflexivity].
  destruct (400 <=? status_code r)%Z; reflexivity.
Qed.

Lemma first_truthy_found (d : list (string * json)) :
  forall before k after,
    Forall (fun k' => Json.truthy (Json.get k' d) = false) before ->
    Json.truthy (Json.get k d) = true ->
    first_truthy (before ++ k :: after) d = Json.get k d.
Proof.
  induction before as [|k0 before IH]; intros k after Hb Hk.
  - cbn [app first_truthy]. destruct after; [reflexivity|].
    unfold Json.or_. now rewrite Hk.
  - inversion Hb as [|? ? H0 Hb']; subst.
    cbn [app first_truthy].
    destruct (before ++ k :: after) eqn:E; [now destruct before|].
    rewrite <- E. unfold Json.or_. rewrite H0. now apply IH.
Qed.

Lemma first_truthy_none (d : list (string * json)) :
  forall ks,
    Forall (fun k => Json.truthy (Json.get k d) = false) ks ->
    Json.truthy (first_truthy ks d) = false.
Proof.
  induction ks as [|k ks IH]; intros H; [reflexivity|].
  inversion H as [|? ? H0 H']; subst.
  cbn [first_truthy]. destruct ks as [|k' ks']; [exact H0|].
  unfold Json.or_. rewrite H0. now apply IH.
Qed.

End WorkflowFacts.

(** C3, as the code has it.  For every explicit amount [<= 0] the workflow
    fails, and it stops where the first part of [process_swap] (token,
    configs, route checks) stops: the only calls made are the
    authentication request, the config fetch and, when the configs give no
    chain id, the chain-id read; no balance or gas read, no quote, commit or
    deposit follows.  When that first part succeeds, the failure is the
    precondition error "Amount must be > 0 (or None for max balance).". *)
Theorem C3_nonpositive_amount_stops_after_route :
  forall (w : World) (self : module) (s : module_state) (amount : PyFloat.float),
    PyFloat.le_zero amount = true ->
    exists msg ext,
      process_swap w self (Some amount) s
      = (Returns (false, msg), snd (load_route w self s)) /\
      trace (snd (load_route w self s)) = trace s ++ ext /\
      Forall (fun c => is_route_call c = true) ext /\
      (forall r, fst (load_route w self s) = Returns r ->
                 msg = "Amount must be > 0 (or None for max balance).").
Proof.
  intros w self s amount Hle.
  destruct (CallFacts.route_calls w self s) as (ext & Ht & HF).
  unfold process_swap, try_except, process_swap_body, bind.
  destruct (load_route w self s) as [[r|e] s1] eqn:E; cbn [fst snd] in *.
  - exists "Amount must be > 0 (or None for max balance).", ext.
    cbn [resolve_amount]. rewrite Hle. cbn [raise ret].
    repeat split; auto.
  - exists (str_exn w e), ext. cbn [ret].
    repeat split; auto. intros r Hr. discriminate.
Qed.

Lemma C3_witness :
  exists msg ext,
    process_swap Sample.good Sample.self (Some Sample.minus_one) initial_state
    = (Returns (false, msg), snd (load_route Sample.good Sample.self initial_state)) /\
    trace (snd (load_route Sample.good Sample.self initial_state))
    = trace initial_state ++ ext /\
    Forall (fun c => is_route_call c = true) ext /\
    (forall r, fst (load_route Sample.good Sample.self initial_state) = Returns r ->
               msg = "Amount must be > 0 (or None for max balance).").
Proof.
  apply (C3_nonpositive_amount_stops_after_route
           Sample.good Sample.self initial_state Sample.minus_one).
  reflexivity.
Defined.

(** C3 as stated fails: with the amount -1.0 the workflow has sent the
    authentication request and fetched the configs by the time it rejects
    the amount, so calls were made before the failure. *)
Lemma C3_counterexample :
  PyFloat.le_zero Sample.minus_one = true /\
  process_swap Sample.good Sample.self (Some Sample.minus_one) initial_state
  = (Returns (false, "Amount must be > 0 (or None for max balance)."),
     mkState true (Some (JStr "jwt-1")) (Some Sample.configs_ok)
       [HttpRequest "POST" auth_path (Some (JDict [("apiKey", JStr "api-key")])) None;
        HttpRequest "GET" configs_path None None]) /\
  trace (snd (process_swap Sample.good Sample.self (Some Sample.minus_one) initial_state))
  <> trace initial_state.
Proof. split; [reflexivity|]. split; [reflexivity | discriminate]. Qed.

(** C7. When the token is there and the fetched configs are a dict with no
    entry for the source chain "OPBNB", the workflow fails with the message
    that names the chain and lists the keys the configs do have (all of
    them, sorted, joined by ", "); it stops right after the config fetch:
    the calls made are requests to the authentication and config endpoints
    only, and no quote request is among them. *)
Theorem C7_missing_source_chain_fails_before_quote :
  forall (w : World) (self : module) (amount : option PyFloat.float)
         (s s1 s2 : module_state) (jwt : json) (cfg : list (string * json)),
    _get_jwt w self s = (Returns jwt, s1) ->
    _get_configs w s1 = (Returns (JDict cfg), s2) ->
    Json.has_key CHAIN_IN cfg = false ->
    process_swap w self amount s
    = (Returns (false,
                "chainIn 'OPBNB' not found in configs. Available: "
                ++ PyStr.join ", " (PyStr.sorted (Json.keys cfg)))%string,
       s2) /\
    Permutation (PyStr.sorted (Json.keys cfg)) (Json.keys cfg) /\
    exists ext,
      trace s2 = trace s ++ ext /\
      Forall (fun c => is_setup_request c = true /\ is_quote_request c = false) ext.
Proof.
  intros w self amount s s1 s2 jwt cfg Hjwt Hcfg Hkey.
  split; [|split].
  - unfold process_swap, try_except, process_swap_body, load_route, bind.
    rewrite Hjwt, Hcfg. cbn [as_dict ret]. rewrite Hkey. reflexivity.
  - apply WorkflowFacts.sorted_perm.
  - set (P := fun c => is_setup_request c = true /\ is_quote_request c = false).
    assert (H1 : Calls.appends P s s1).
    { pose proof (CallFacts.emits_get_jwt w self P) as H.
      specialize (H ltac:(intros; split; reflexivity) s).
      unfold Calls.emits_from in H. now rewrite Hjwt in H. }
    assert (H2 : Calls.appends P s1 s2).
    { pose proof (CallFacts.emits_get_configs w P) as H.
      specialize (H ltac:(intros; split; reflexivity) s1).
      unfold Calls.emits_from in H. now rewrite Hcfg in H. }
    exact (CallFacts.appends_trans P _ _ _ H1 H2).
Qed.

Lemma C7_witness :
  process_swap Sample.other_chains Sample.self None initial_state
  = (Returns (false, "chainIn 'OPBNB' not found in configs. Available: BASE, ETHEREUM"),
     mkState true (Some (JStr "jwt-1")) (Some Sample.configs_other)
       [HttpRequest "POST" auth_path (Some (JDict [("apiKey", JStr "api-key")])) None;
        HttpRequest "GET" configs_path None None]).
Proof.
  exact (proj1 (C7_missing_source_chain_fails_before_quote
                  Sample.other_chains Sample.self None
                  initial_state _ _ (JStr "jwt-1")
                  [("ETHEREUM", JDict []); ("BASE", JDict [])]
                  eq_refl eq_refl eq_refl)).
Defined.

(** C8, as the code has it.  The bearer token is the value of the first
    candidate field, in the order token, jwt, accessToken, authorization,
    whose value is truthy (a field that is there with an empty or null value
    is passed over).  When no candidate carries a truthy value the workflow
    fails with "Can't find JWT in response: ..." and the authentication
    request is the only call it has made: no quote request is sent. *)
Theorem C8_token_is_first_truthy_candidate :
  forall (w : World) (self : module) (s s1 : module_state) (d : list (string * json)),
    cached (_jwt s) = None ->
    _http w "POST" auth_path (Some (JDict [("apiKey", JStr (api_key self))])) None s
    = (Returns (JDict d), s1) ->
    (forall before k after,
        jwt_fields = before ++ k :: after ->
        Forall (fun k' => Json.truthy (Json.get k' d) = false) before ->
        Json.truthy (Json.get k d) = true ->
        fst (_get_jwt w self s) = Returns (Json.get k d)) /\
    (Forall (fun k => Json.truthy (Json.get k d) = false) jwt_fields ->
     forall amount,
       process_swap w self amount s
       = (Returns (false, "Can't find JWT in response: " ++ str_json w (JDict d))%string,
          s1) /\
       exists a, trace s1 = trace s ++ [HttpRequest "POST" auth_path
                   (Some (JDict [("apiKey", JStr (api_key self))])) a] /\
                 is_quote_request (HttpRequest "POST" auth_path
                   (Some (JDict [("apiKey", JStr (api_key self))])) a) = false).
Proof.
  intros w self s s1 d Hc Hhttp. split.
  - intros before k after Hf Hb Hk.
    unfold _get_jwt, bind, read. rewrite Hc, Hhttp. cbn [as_dict ret].
    rewrite Hf, (WorkflowFacts.first_truthy_found d before k after Hb Hk), Hk.
    reflexivity.
  - intros Hnone amount. split.
    + unfold process_swap, try_except, process_swap_body, load_route, bind.
      unfold _get_jwt, bind, read. rewrite Hc, Hhttp. cbn [as_dict ret].
      rewrite (WorkflowFacts.first_truthy_none d _ Hnone). reflexivity.
    + destruct (WorkflowFacts.http_trace w "POST" auth_path
                  (Some (JDict [("apiKey", JStr (api_key self))])) None s) as [a Ha].
      rewrite Hhttp in Ha. exists a. split; [exact Ha | reflexivity].
Qed.

Lemma C8_witness :
  fst (_get_jwt Sample.empty_token Sample.self initial_state) = Returns (JStr "jwt-2").
Proof.
  apply (proj1 (C8_token_is_first_truthy_candidate
                  Sample.empty_token Sample.self initial_state _
                  [("token", JStr ""); ("jwt", JStr "jwt-2")] eq_refl eq_refl)
               ["token"] "jwt" ["accessToken"; "authorization"]).
  - reflexivity.
  - constructor; [reflexivity | constructor].
  - reflexivity.
Defined.

(** C8 as stated fails: in this response the first candidate field that is
    present is "token" (with an empty value), yet the token taken is that of
    "jwt". *)
Lemma C8_counterexample :
  http_request Sample.empty_token [] "POST" auth_path
    (Some (JDict [("apiKey", JStr "api-key")])) None
  = Returns (mkResponse 200 "" (Some (JDict [("token", JStr ""); ("jwt", JStr "jwt-2")]))) /\
  first_present jwt_fields [("token", JStr ""); ("jwt", JStr "jwt-2")] = Some (JStr "") /\
  fst (_get_jwt Sample.empty_token Sample.self initial_state) = Returns (JStr "jwt-2") /\
  fst (_get_jwt Sample.empty_token Sample.self initial_state) <> Returns (JStr "").
Proof. repeat split. discriminate. Qed.

(* ===================================================================== *)
(** * Amounts: the fee buffer, and wei to text and back *)
(* ===================================================================== *)

Local Open Scope string_scope.
Local Open Scope Z_scope.

Module AmountFacts.
Import PyDecimal PyStrFacts.

Lemma ceil_div_exact (a b : Z) : 0 < b -> ceil_div (a * b) b = a.
Proof.
  intros Hb. unfold ceil_div.
  replace (- (a * b)) with (- a * b) by ring.
  rewrite Z.div_mul by lia. lia.
Qed.

Lemma fee_buffer_exact (g : Z) :
  0 <= g -> 375 * g < 10 ^ 28 ->
  fee_buffer safety_mul_default g = Some (375000 * g).
Proof.
  intros Hg Hb. unfold fee_buffer, mul, of_int, safety_mul_default, conservative_gas.
  cbn [coeff exp neg].
  replace (g * 300000 <? 0) with false by (symmetry; apply Z.ltb_ge; lia).
  rewrite Z.abs_eq by lia.
  replace (g * 300000 * 125) with (375 * g * 100000) by ring.
  cbn [xorb Z.add].
  destruct (DecimalFacts.fix_context_fee false (375 * g) ltac:(lia)) as (d' & Hfix & Hint).
  rewrite Hfix. cbn [option_map]. rewrite Hint. f_equal. ring.
Qed.

Lemma max_send_of_max (b fee : Z) : max_send_of b fee = Z.max (b - fee) 0.
Proof. unfold max_send_of. destruct (Z.ltb_spec 0 (b - fee)); lia. Qed.

(** ** Digits *)

Lemma small_cases (d : Z) :
  0 <= d < 10 ->
  d = 0 \/ d = 1 \/ d = 2 \/ d = 3 \/ d = 4 \/ d = 5 \/ d = 6 \/ d = 7 \/ d = 8 \/ d = 9.
Proof. lia. Qed.

Ltac each_digit d H :=
  destruct (small_cases d H)
    as [ -> | [ -> | [ -> | [ -> | [ -> | [ -> | [ -> | [ -> | [ -> | -> ] ] ] ] ] ] ] ] ].

Lemma digit_in_digit_char (d : Z) :
  0 <= d < 10 -> PyInt.digit_in 10 (PyInt.digit_char d) = Some d.
Proof. intros H. each_digit d H; reflexivity. Qed.

Lemma digit_char_plain (d : Z) :
  0 <= d < 10 -> plain (PyInt.digit_char d) = true /\ no_point (PyInt.digit_char d) = true.
Proof. intros H. each_digit d H; split; reflexivity. Qed.

Lemma read_digits_fuel (fuel : positive) :
  forall c rest, 0 <= c <= Zpos fuel ->
    read_digits 0 (PyInt.digits_fuel fuel c rest) = read_digits c rest.
Proof.
  induction fuel as [f IH|f IH|]; intros c rest Hc; cbn [PyInt.digits_fuel];
    destruct (Z.ltb_spec c 10) as [Hs|Hs].
  all: try (cbn [read_digits]; rewrite digit_in_digit_char by (apply Z.mod_pos_bound; lia);
            rewrite Z.mod_small by lia; f_equal; lia).
  all: try lia.
  all: rewrite IH by (split; [apply Z.div_pos; lia | apply Z.div_le_upper_bound; lia]);
       cbn [read_digits]; rewrite digit_in_digit_char by (apply Z.mod_pos_bound; lia);
       f_equal; pose proof (Z.div_mod c 10 ltac:(lia)); lia.
Qed.

Lemma read_digits_digits (c : Z) : 0 <= c -> read_digits 0 (PyInt.digits c) = Some c.
Proof.
  intros Hc. destruct c as [|p|p]; try lia; [reflexivity|].
  unfold PyInt.digits. rewrite read_digits_fuel by lia. reflexivity.
Qed.

Lemma all_digits_fuel (q : ascii -> bool) (fuel : positive) :
  (forall d, 0 <= d < 10 -> q (PyInt.digit_char d) = true) ->
  forall c rest, PyStr.all q rest = true ->
                 PyStr.all q (PyInt.digits_fuel fuel c rest) = true.
Proof.
  intros Hq. induction fuel as [f IH|f IH|]; intros c rest Hr; cbn [PyInt.digits_fuel];
    destruct (c <? 10); try apply IH;
    cbn [PyStr.all]; rewrite Hq by (apply Z.mod_pos_bound; lia); exact Hr.
Qed.

Lemma all_digits (q : ascii -> bool) (c : Z) :
  (forall d, 0 <= d < 10 -> q (PyInt.digit_char d) = true) ->
  PyStr.all q (PyInt.digits c) = true.
Proof.
  intros Hq.
  pose proof (Hq 0 ltac:(lia)) as H0. change (PyInt.digit_char 0) with "0"%char in H0.
  destruct c as [|p|p]; cbn [PyInt.digits PyStr.all]; try (now rewrite H0).
  now apply all_digits_fuel.
Qed.

Lemma digits_fuel_nonempty (fuel : positive) (c : Z) (rest : string) :
  PyInt.digits_fuel fuel c rest <> EmptyString.
Proof.
  revert c rest. induction fuel as [f IH|f IH|]; intros c rest; cbn [PyInt.digits_fuel];
    destruct (c <? 10); try apply IH; discriminate.
Qed.

Lemma digits_nonempty (c : Z) : PyInt.digits c <> EmptyString.
Proof.
  destruct c; try discriminate. apply digits_fuel_nonempty.
Qed.

(** ** Positional text and back *)

Lemma literal_digit (d : Z) : 0 <= d < 10 -> literal_char (PyInt.digit_char d) = true.
Proof.
  intros H. unfold literal_char. destruct (digit_char_plain d H) as [-> ->]. reflexivity.
Qed.

Lemma literal_not_space (c : ascii) :
  literal_char c = true -> negb (PyStr.isspace c) = true.
Proof.
  unfold literal_char, plain. intros H.
  repeat (apply andb_prop in H as [H ?]). exact H.
Qed.

Lemma split_sign_literal (c : ascii) (s : string) :
  literal_char c = true -> PyInt.split_sign (String c s) = (false, String c s).
Proof. ascii_cases c; vm_compute; congruence. Qed.

Lemma split_point_none (s : string) :
  PyStr.all literal_char s = true -> split_point s = (s, None).
Proof.
  induction s as [|c s IH]; cbn [PyStr.all split_point]; [reflexivity|].
  intros H. apply andb_prop in H as [Hc Hs].
  assert (Hp : Ascii.eqb c "." = false).
  { unfold literal_char, no_point in Hc. apply andb_prop in Hc as [_ Hc].
    now apply negb_true_iff in Hc. }
  rewrite Hp, (IH Hs). reflexivity.
Qed.

Lemma split_point_at (s t : string) :
  PyStr.all literal_char s = true -> split_point (s ++ "." ++ t) = (s, Some t).
Proof.
  induction s as [|c s IH]; cbn [PyStr.all]; [reflexivity|].
  intros H. apply andb_prop in H as [Hc Hs].
  assert (Hp : Ascii.eqb c "." = false).
  { unfold literal_char, no_point in Hc. apply andb_prop in Hc as [_ Hc].
    now apply negb_true_iff in Hc. }
  change (String c s ++ "." ++ t) with (String c (s ++ "." ++ t)).
  cbn [split_point]. rewrite Hp, (IH Hs). reflexivity.
Qed.

(** The text [I] or [I.F] of digits reads back as the number of the digits
    [I ++ F], with as many decimals as [F] is long. *)
Lemma of_string_text (I F : string) (c : Z) :
  I <> EmptyString ->
  PyStr.all literal_char I = true -> PyStr.all literal_char F = true ->
  read_digits 0 (I ++ F) = Some c ->
  of_string (I ++ match F with EmptyString => EmptyString | f => "." ++ f end)
  = Some (mkDecimal false c (- Z.of_nat (String.length F))).
Proof.
  intros HI HaI HaF Hread.
  assert (Hns : forall s, PyStr.all literal_char s = true ->
                          PyStr.all (fun c => negb (PyStr.isspace c)) s = true)
    by (intros s; apply all_impl; exact literal_not_space).
  unfold of_string.
  destruct I as [|c0 I']; [congruence|].
  assert (Hc0 : literal_char c0 = true)
    by (cbn [PyStr.all] in HaI; now apply andb_prop in HaI).
  destruct F as [|a F'].
  - rewrite app_empty_r in *.
    rewrite HexFacts.strip_no_space by now apply Hns.
    rewrite (split_sign_literal c0 I' Hc0), (split_point_none _ HaI).
    rewrite app_empty_r. rewrite Hread. reflexivity.
  - rewrite HexFacts.strip_no_space.
    2:{ rewrite all_app. rewrite (Hns _ HaI).
        pose proof (Hns _ HaF) as HF2.
        cbn [PyStr.all append] in *. rewrite HF2. reflexivity. }
    change (String c0 I' ++ "." ++ String a F')
      with (String c0 (I' ++ "." ++ String a F')).
    rewrite (split_sign_literal c0 _ Hc0).
    change (String c0 (I' ++ "." ++ String a F'))
      with (String c0 I' ++ "." ++ String a F').
    rewrite (split_point_at _ _ HaI).
    change (String c0 I' ++ String a F') with (String c0 (I' ++ String a F')) in *.
    cbv beta iota. rewrite Hread. reflexivity.
Qed.

Lemma of_string_text_exp (I F : string) (c e : Z) :
  I <> EmptyString ->
  PyStr.all literal_char I = true -> PyStr.all literal_char F = true ->
  read_digits 0 (I ++ F) = Some c ->
  - Z.of_nat (String.length F) = e ->
  of_string (I ++ match F with EmptyString => EmptyString | f => "." ++ f end)
  = Some (mkDecimal false c e).
Proof. intros HI HaI HaF Hr <-. now apply of_string_text. Qed.

Lemma read_digits_zeros (n : nat) (s : string) :
  read_digits 0 (PyStr.repeat "0" n ++ s) = read_digits 0 s.
Proof. induction n as [|n IH]; [reflexivity | exact IH]. Qed.

Lemma all_repeat (q : ascii -> bool) (c : ascii) (n : nat) :
  q c = true -> PyStr.all q (PyStr.repeat c n) = true.
Proof. intros H. induction n as [|n IH]; cbn; [reflexivity | now rewrite H, IH]. Qed.

Lemma take_all (s : string) : PyStr.take (String.length s) s = s.
Proof. induction s as [|c s IH]; cbn; [reflexivity | now rewrite IH]. Qed.

Lemma drop_all (s : string) : PyStr.drop (String.length s) s = EmptyString.
Proof. induction s as [|c s IH]; cbn; [reflexivity | exact IH]. Qed.

(** [Decimal(format(d, "f"))] is [d], for a non-negative [d] whose exponent
    is not positive. *)
Lemma of_string_format_f (c e : Z) :
  0 <= c -> e <= 0 ->
  of_string (format_f (mkDecimal false c e)) = Some (mkDecimal false c e).
Proof.
  intros Hc He. unfold format_f. cbn [coeff exp neg].
  set (s := PyInt.digits c).
  assert (Hs : s <> EmptyString) by apply digits_nonempty.
  assert (Hlit : PyStr.all literal_char s = true) by (apply all_digits, literal_digit).
  assert (Hread : read_digits 0 s = Some c) by now apply read_digits_digits.
  assert (Hlen : (0 < String.length s)%nat) by (destruct s; [congruence | cbn; lia]).
  set (len := Z.of_nat (String.length s)) in *.
  change ("" ++ ?x) with x.
  destruct (Z.ltb_spec (e + len) 0) as [Hneg|Hnn].
  - (* 0.000ddd *)
    set (F := PyStr.repeat "0" (Z.to_nat (- (e + len))) ++ s).
    apply of_string_text_exp.
    + discriminate.
    + reflexivity.
    + unfold F. rewrite all_app, all_repeat by reflexivity. exact Hlit.
    + unfold F. cbn [append]. change (read_digits 0 (String "0" ?x)) with (read_digits 0 x).
      now rewrite read_digits_zeros.
    + unfold F. rewrite length_app, length_repeat. lia.
  - replace (len <? e + len) with false by (symmetry; apply Z.ltb_ge; lia).
    set (n := Z.to_nat (e + len)).
    set (F := PyStr.drop n s).
    assert (HF : - Z.of_nat (String.length F) = e)
      by (unfold F; rewrite length_drop; lia).
    assert (HaF : PyStr.all literal_char F = true) by now apply all_drop.
    destruct (PyStr.take n s) as [|c0 I'] eqn:HI.
    + (* 0.ddd *)
      assert (Hn : n = 0%nat).
      { destruct n; [reflexivity|]. destruct s; [congruence | discriminate]. }
      apply of_string_text_exp; [discriminate | reflexivity | exact HaF | | exact HF].
      unfold F. rewrite Hn. cbn [PyStr.drop append].
      change (read_digits 0 (String "0" ?x)) with (read_digits 0 x). exact Hread.
    + (* dd.ddd or ddddd *)
      apply of_string_text_exp; [discriminate | | exact HaF | | exact HF].
      * rewrite <- HI. now apply all_take.
      * rewrite <- HI. unfold F. now rewrite take_drop.
Qed.

(** ** Wei to ether and back *)

Lemma ideal_exponent_spec (n : nat) :
  forall c e, 0 < c -> e <= 0 ->
    0 < fst (Web3.ideal_exponent n c e) /\
    e <= snd (Web3.ideal_exponent n c e) <= 0 /\
    c = fst (Web3.ideal_exponent n c e) * 10 ^ (snd (Web3.ideal_exponent n c e) - e).
Proof.
  induction n as [|n IH]; intros c e Hc He; cbn [Web3.ideal_exponent].
  - cbn [fst snd]. rewrite Z.sub_diag. cbn. lia.
  - destruct (Z.ltb_spec e 0) as [Hlt|Hge]; cbn [andb].
    2:{ cbn [fst snd]. rewrite Z.sub_diag. cbn. lia. }
    destruct (Z.eqb_spec (c mod 10) 0) as [Hm|Hm].
    2:{ cbn [fst snd]. rewrite Z.sub_diag. cbn. lia. }
    pose proof (Z.div_mod c 10 ltac:(lia)) as Hdm.
    destruct (IH (c / 10) (e + 1) ltac:(lia) ltac:(lia)) as (H1 & H2 & H3).
    repeat split; try lia.
    set (c' := fst (Web3.ideal_exponent n (c / 10) (e + 1))) in *.
    set (e' := snd (Web3.ideal_exponent n (c / 10) (e + 1))) in *.
    replace (e' - e) with (Z.succ (e' - (e + 1))) by lia.
    rewrite Z.pow_succ_r by lia. lia.
Qed.

(** For a wei amount [1 .. 2^256 - 1], the ether text of [from_wei] read
    back and converted by [to_wei] is the amount. *)
Lemma wei_text_roundtrip (n : Z) :
  0 < n <= Web3.MAX_WEI ->
  exists d, Web3.from_wei n = Some d /\
            of_string (format_f d) = Some d /\
            Web3.to_wei d = Some n.
Proof.
  intros Hn. unfold Web3.from_wei.
  replace (n =? 0) with false by (symmetry; apply Z.eqb_neq; lia).
  replace ((n <? 0) || (Web3.MAX_WEI <? n)) with false.
  2:{ symmetry. apply orb_false_iff. split; [apply Z.ltb_ge | apply Z.ltb_ge]; lia. }
  destruct (ideal_exponent_spec 18 n (-18) ltac:(lia) ltac:(lia)) as (H1 & H2 & H3).
  destruct (Web3.ideal_exponent 18 n (-18)) as [c e]. cbn [fst snd] in *.
  eexists. split; [reflexivity|]. split.
  - apply of_string_format_f; lia.
  - unfold Web3.to_wei. cbn [coeff exp neg].
    replace (c =? 0) with false by (symmetry; apply Z.eqb_neq; lia).
    replace (0 <=? e + 18) with true by (symmetry; apply Z.leb_le; lia).
    replace (e + 18) with (e - -18) by lia. rewrite <- H3.
    replace (Web3.MAX_WEI <? n) with false by (symmetry; apply Z.ltb_ge; lia).
    reflexivity.
Qed.

End AmountFacts.

(** C4, as the code has it.  For every gas price [g >= 0] with
    [375 * g < 10^28] (any price up to about 2.6e25 wei per gas) and every
    balance [b], the fee buffer is [ceil(g * 300000 * 1.25)], which is the
    integer [375000 * g], and the maximum sendable amount is
    [max(b - feeBuffer, 0)], exactly; [_calc_max_send_wei] returns it when
    the chain reports [b] and [g].  (The product is computed by
    [Decimal] in a context of 28 digits, so a larger price may be rounded.) *)
Theorem C4_fee_buffer_and_max_send :
  forall (w : World) (self : module) (s : module_state) (g b : Z),
    0 <= g -> 375 * g < 10 ^ 28 ->
    get_balance w (trace s) (account_address self) = Returns b ->
    gas_price w (trace s ++ [GetBalance (account_address self)]) = Returns g ->
    let fee := ceil_div (g * 300000 * 125) 100 in
    fee_buffer safety_mul_default g = Some fee /\
    fee = 375000 * g /\
    max_send_of b fee = Z.max (b - fee) 0 /\
    fst (_calc_max_send_wei w self safety_mul_default s) = Returns (Z.max (b - fee) 0).
Proof.
  intros w self s g b Hg Hb Hbal Hgas fee.
  assert (Hfee : fee = 375000 * g).
  { unfold fee. replace (g * 300000 * 125) with (375000 * g * 100) by ring.
    apply AmountFacts.ceil_div_exact. lia. }
  assert (Hbuf : fee_buffer safety_mul_default g = Some fee)
    by (rewrite Hfee; now apply AmountFacts.fee_buffer_exact).
  repeat split; auto.
  - apply AmountFacts.max_send_of_max.
  - unfold _calc_max_send_wei, _get_native_balance_wei, bind, perform.
    cbn [trace]. rewrite Hbal, Hgas, Hbuf. cbn [of_option ret fst].
    now rewrite AmountFacts.max_send_of_max.
Qed.

Lemma C4_witness :
  fee_buffer safety_mul_default 5000000000 = Some 1875000000000000 /\
  fst (_calc_max_send_wei Sample.good Sample.self safety_mul_default initial_state)
  = Returns 998125000000000000.
Proof.
  pose proof (C4_fee_buffer_and_max_send Sample.good Sample.self initial_state
                5000000000 (10 ^ 18) ltac:(lia) ltac:(reflexivity) eq_refl eq_refl) as H.
  cbv zeta in H. destruct H as (H1 & _ & _ & H4).
  split; [exact H1 | exact H4].
Defined.

(** C4 as stated fails for a gas price of [10^26 + 1]: the 28-digit context
    rounds the product, and the fee buffer differs from the ceiling. *)
Lemma C4_counterexample :
  0 <= 10 ^ 26 + 1 /\
  fee_buffer safety_mul_default (10 ^ 26 + 1) = Some 37500000000000000000000000380000 /\
  ceil_div ((10 ^ 26 + 1) * 300000 * 125) 100 = 37500000000000000000000000375000 /\
  fee_buffer safety_mul_default (10 ^ 26 + 1)
  <> Some (ceil_div ((10 ^ 26 + 1) * 300000 * 125) 100).
Proof.
  split; [lia|]. split; [vm_compute; reflexivity|]. split; [vm_compute; reflexivity|].
  vm_compute. discriminate.
Qed.

(** The scenario of one ether at 5 gwei: the fee buffer, the maximum
    sendable amount and its text in the quote request. *)
Example one_ether_at_five_gwei :
  fee_buffer safety_mul_default 5000000000 = Some 1875000000000000 /\
  max_send_of (10 ^ 18) 1875000000000000 = 998125000000000000 /\
  option_map PyDecimal.format_f (Web3.from_wei 998125000000000000) = Some "0.998125"%string.
Proof. repeat split. Qed.

(* ===================================================================== *)
(** * The deposit: its value and its gas limit *)
(* ===================================================================== *)

Local Open Scope string_scope.
Local Open Scope Z_scope.
Local Open Scope list_scope.

Module DepositFacts.
Import Calls CallFacts.

Section With_world.

Variable w : World.
Variable self : module.
Variable P : call -> Prop.

Hypothesis P_http : forall m p b a, P (HttpRequest m p b a).
Hypothesis P_balance : forall a, P (GetBalance a).
Hypothesis P_gas_price : P GasPrice.
Hypothesis P_chain_id : P ChainId.
Hypothesis P_estimate : forall t f c v, P (EstimateGas t f c v).
Hypothesis P_count : forall a, P (GetTransactionCount a).

Lemma emits_send_native_deposit (bridge_address : json) (chain commitment value : Z) :
  (forall tx, tx_value tx = value -> P (SendTransaction tx)) ->
  emits P (_send_native_deposit w self bridge_address chain commitment value).
Proof.
  intros Hsend s. unfold _send_native_deposit, _estimate_gas_native_deposit.
  repeat emits_step; auto.
Qed.

Lemma emits_resolve_amount (amount : option PyFloat.float) :
  emits P (resolve_amount w self amount).
Proof.
  intros s. unfold resolve_amount, _calc_max_send_wei, _get_native_balance_wei.
  repeat emits_step; auto.
Qed.

Lemma emits_quote_commit_deposit (r : route) (amount_str : string) :
  (forall d v tx, PyDecimal.of_string amount_str = Some d -> Web3.to_wei d = Some v ->
                  tx_value tx = v -> P (SendTransaction tx)) ->
  emits P (quote_commit_deposit w self r amount_str).
Proof.
  intros Hsend s. unfold quote_commit_deposit.
  repeat emits_step_or
    ltac:(first [ now apply emits_http
                | apply emits_send_native_deposit; auto; intros; eapply Hsend;
                  [ eapply of_option_returns; eassumption
                  | eapply of_option_returns; eassumption
                  | assumption ] ]).
Qed.

End With_world.



End DepositFacts.



(* ===================================================================== *)
(** * The batch: permits, exports, completion *)
(* ===================================================================== *)

Local Open Scope string_scope.
Local Open Scope Z_scope.
Local Open Scope nat_scope.
Local Open Scope list_scope.

Module BotFacts.

(** [process_swap] returns a pair whatever happens inside. *)
Lemma process_swap_returns (w : World) (self : module) (amount : option PyFloat.float)
    (s : module_state) :
  exists status result s',
    process_swap w self amount s = (Returns (status, result), s').
Proof.
  unfold process_swap, try_except, bind.
  destruct (process_swap_body w self amount s) as [[h|e] s']; unfold ret; eauto.
Qed.

Section Batch_facts.

Variable cfg : Config.
Variable worlds : nat -> World.

(** A task whose key parses exports its record and is done. *)
Lemma run_task_parsed (i : nat) (wallet : string) (delay : Z) (a : string) :
  from_key (worlds i) wallet = Returns a ->
  run_task cfg worlds i (wallet, delay)
  = (Returns tt, [wallet_record (worlds i) cfg wallet]).
Proof.
  intros Hk. unfold run_task, safe_swap, new_module, wallet_record. cbn [fst snd].
  rewrite Hk.
  destruct (process_swap_returns (worlds i)
              (mkModule (rhino_api_key cfg) wallet (opbnb_rpc_url cfg) a a a)
              None initial_state) as (st & res & s' & Hp).
  rewrite Hp. reflexivity.
Qed.

(** A task whose key does not parse fails with the constructor's exception
    and exports nothing. *)
Lemma run_task_unparsed (i : nat) (wallet : string) (delay : Z) (e : exn) :
  from_key (worlds i) wallet = Raises e ->
  run_task cfg worlds i (wallet, delay) = (Raises e, []).
Proof.
  intros Hk. unfold run_task, safe_swap, new_module. cbn [fst snd].
  now rewrite Hk.
Qed.

Lemma keys_parse_nth (ws : list string) :
  forall i j wallet,
    keys_parse worlds i ws = true -> nth_error ws j = Some wallet ->
    exists a, from_key (worlds (i + j)) wallet = Returns a.
Proof.
  induction ws as [|w0 ws IH]; intros i j wallet Hk Hn; [now destruct j|].
  cbn [keys_parse] in Hk.
  destruct (from_key (worlds i) w0) as [a|] eqn:E; [|discriminate].
  destruct j as [|j]; cbn in Hn.
  - inversion Hn; subst. rewrite Nat.add_0_r. eauto.
  - destruct (IH (S i) j wallet Hk Hn) as [a' Ha'].
    exists a'. now rewrite Nat.add_succ_r.
Qed.

Lemma holding_app (l1 l2 : list task_state) (p : nat) (ex : list export) :
  holding (mkBatch p (l1 ++ l2) ex)
  = holding (mkBatch p l1 ex) + holding (mkBatch p l2 ex).
Proof. unfold holding; cbn [states]. now rewrite filter_app, length_app. Qed.

Lemma outputs_app (tasks1 : list (string * Z)) :
  forall i l1 st l2 t tasks2,
    List.length l1 = List.length tasks1 ->
    outputs cfg worlds i (l1 ++ st :: l2) (tasks1 ++ t :: tasks2)
    = outputs cfg worlds i l1 tasks1
      ++ match st with
         | Waiting | Holding => []
         | Done | Failed _ => snd (run_task cfg worlds (i + List.length l1) t)
         end
      ++ outputs cfg worlds (S (i + List.length l1)) l2 tasks2.
Proof.
  induction tasks1 as [|t1 tasks1 IH]; intros i l1 st l2 t tasks2 Hl.
  - destruct l1; [|discriminate]. cbn. now rewrite Nat.add_0_r.
  - destruct l1 as [|s1 l1]; [discriminate|]. cbn in Hl.
    cbn [app outputs List.length]. rewrite (IH (S i)) by lia.
    replace (i + S (List.length l1)) with (S i + List.length l1) by lia.
    now rewrite <- app_assoc.
Qed.

Variable tasks : list (string * Z).

Lemma nth_middle (before after : list task_state) (x : task_state) :
  nth_error (before ++ x :: after) (List.length before) = Some x.
Proof. rewrite nth_error_app2, Nat.sub_diag by lia. reflexivity. Qed.

(** Where a failed task stands when the state at one position changes. *)
Lemma failed_at (before after l1 l2 : list task_state) (x : task_state) (e : exn) :
  before ++ x :: after = l1 ++ Failed e :: l2 ->
  (List.length l1 = List.length before /\ x = Failed e) \/
  (List.length l1 <> List.length before /\
   forall y, exists l1' l2',
     before ++ y :: after = l1' ++ Failed e :: l2' /\ List.length l1' = List.length l1).
Proof.
  intros H.
  assert (Hx : nth_error (before ++ x :: after) (List.length l1) = Some (Failed e))
    by (rewrite H; apply nth_middle).
  destruct (Nat.eq_dec (List.length l1) (List.length before)) as [Heq|Hne].
  - left. split; [exact Heq|]. rewrite Heq, nth_middle in Hx. congruence.
  - right. split; [exact Hne|]. intros y.
    assert (Hn : nth_error (before ++ y :: after) (List.length l1) = Some (Failed e)).
    { destruct (Nat.lt_ge_cases (List.length l1) (List.length before)) as [Hlt|Hge].
      - rewrite nth_error_app1 in * by lia. exact Hx.
      - rewrite nth_error_app2 in * by lia.
        destruct (List.length l1 - List.length before) as [|k] eqn:Ek; [lia|]. exact Hx. }
    destruct (nth_error_split _ _ Hn) as (l1' & l2' & Heq & Hl).
    exists l1', l2'. auto.
Qed.

Lemma tasks_split (before after : list task_state) (x : task_state) :
  List.length (before ++ x :: after) = List.length tasks ->
  exists t1 t t2, tasks = t1 ++ t :: t2 /\ List.length t1 = List.length before.
Proof.
  intros H. rewrite length_app in H. cbn [List.length] in H.
  destruct (nth_error tasks (List.length before)) as [t|] eqn:E.
  - destruct (nth_error_split _ _ E) as (t1 & t2 & Heq & Hl). eauto.
  - apply nth_error_None in E. lia.
Qed.

Lemma holding_middle (before after : list task_state) (x : task_state) (p : nat)
    (ex : list export) :
  holding (mkBatch p (before ++ x :: after) ex)
  = holding (mkBatch p before ex) + (if is_holding x then 1 else 0)
    + holding (mkBatch p after ex).
Proof.
  rewrite holding_app. unfold holding; cbn [states filter].
  destruct (is_holding x); cbn [List.length]; lia.
Qed.

Lemma holding_irrelevant (l : list task_state) (p p' : nat) (ex ex' : list export) :
  holding (mkBatch p l ex) = holding (mkBatch p' l ex').
Proof. reflexivity. Qed.

Lemma invariant_start : batch_invariant cfg worlds tasks (initial_batch cfg (List.length tasks)).
Proof.
  unfold batch_invariant, initial_batch; cbn [states permits exported].
  split; [apply repeat_length|]. split; [|split].
  - unfold holding; cbn [states].
    assert (H : forall n, filter is_holding (List.repeat Waiting n) = [])
      by (induction n; cbn; auto).
    now rewrite H.
  - assert (H : forall n i ts, outputs cfg worlds i (List.repeat Waiting n) ts = []).
    { induction n as [|n IH]; intros i [|t ts]; cbn; auto. }
    rewrite H. constructor.
  - intros l1 e l2 H. exfalso.
    assert (Hin : In (Failed e) (List.repeat Waiting (List.length tasks)))
      by (rewrite H; apply in_elt).
    apply repeat_spec in Hin. discriminate.
Qed.

Lemma invariant_step (b b' : batch) :
  batch_invariant cfg worlds tasks b -> step cfg worlds tasks b b' ->
  batch_invariant cfg worlds tasks b'.
Proof.
  intros (Hlen & Hperm & Hex & Hfail) Hstep.
  destruct Hstep as [p before after ex
                    | p before after ex t recs Ht Hrun
                    | p before after ex t e0 recs Ht Hrun];
    cbn [states permits exported] in *;
    destruct (tasks_split _ _ _ Hlen) as (t1 & t' & t2 & Htasks & Hl1);
    rewrite holding_middle in Hperm; cbn [is_holding] in Hperm;
    rewrite Htasks, outputs_app in Hex by auto; cbn [app] in Hex.
  - (* a permit is taken *)
    unfold batch_invariant; cbn [states permits exported]. split; [|split; [|split]].
    + rewrite length_app in *. exact Hlen.
    + rewrite holding_middle. cbn [is_holding].
      rewrite (holding_irrelevant before p (S p) ex ex),
              (holding_irrelevant after p (S p) ex ex). lia.
    + rewrite Htasks, outputs_app by auto. exact Hex.
    + intros l1 e l2 H.
      destruct (failed_at _ _ _ _ _ _ H) as [[_ Hx]|[_ Hy]]; [discriminate|].
      destruct (Hy Waiting) as (l1' & l2' & Heq & Hl).
      rewrite <- Hl. eapply Hfail; eauto.
  - (* a task is done *)
    assert (t' = t) by (rewrite Htasks, <- Hl1, nth_error_app2, Nat.sub_diag in Ht by lia;
                        cbn in Ht; congruence).
    subst t'.
    unfold batch_invariant; cbn [states permits exported]. split; [|split; [|split]].
    + rewrite length_app in *. exact Hlen.
    + rewrite holding_middle. cbn [is_holding].
      rewrite (holding_irrelevant before (S p) p (ex ++ recs) ex),
              (holding_irrelevant after (S p) p (ex ++ recs) ex). lia.
    + rewrite Htasks, outputs_app by auto. cbn [Nat.add]. rewrite Hrun. cbn [snd].
      rewrite Hex. rewrite <- app_assoc.
      apply Permutation_app_head, Permutation_app_comm.
    + intros l1 e l2 H.
      destruct (failed_at _ _ _ _ _ _ H) as [[_ Hx]|[_ Hy]]; [discriminate|].
      destruct (Hy Holding) as (l1' & l2' & Heq & Hl).
      rewrite <- Hl. eapply Hfail; eauto.
  - (* a task has failed *)
    assert (t' = t) by (rewrite Htasks, <- Hl1, nth_error_app2, Nat.sub_diag in Ht by lia;
                        cbn in Ht; congruence).
    subst t'.
    unfold batch_invariant; cbn [states permits exported]. split; [|split; [|split]].
    + rewrite length_app in *. exact Hlen.
    + rewrite holding_middle. cbn [is_holding].
      rewrite (holding_irrelevant before (S p) p (ex ++ recs) ex),
              (holding_irrelevant after (S p) p (ex ++ recs) ex). lia.
    + rewrite Htasks, outputs_app by auto. cbn [Nat.add]. rewrite Hrun. cbn [snd].
      rewrite Hex. rewrite <- app_assoc.
      apply Permutation_app_head, Permutation_app_comm.
    + intros l1 e l2 H.
      destruct (failed_at _ _ _ _ _ _ H) as [[Hpos Hx]|[_ Hy]].
      * inversion Hx; subst e0. rewrite Hpos. eauto.
      * destruct (Hy Holding) as (l1' & l2' & Heq & Hl).
        rewrite <- Hl. eapply Hfail; eauto.
Qed.

Lemma reachable_invariant (b : batch) :
  reachable cfg worlds tasks b -> batch_invariant cfg worlds tasks b.
Proof.
  induction 1 as [|b b' _ IH Hstep]; [apply invariant_start|].
  eapply invariant_step; eauto.
Qed.

Lemma no_failed_task (b : batch) (e : exn) :
  keys_parse worlds 0 (List.map fst tasks) = true ->
  batch_invariant cfg worlds tasks b -> ~ In (Failed e) (states b).
Proof.
  intros Hk (_ & _ & _ & Hfail) Hin.
  destruct (in_split _ _ Hin) as (l1 & l2 & Heq).
  destruct (Hfail l1 e l2 Heq) as ([wallet delay] & recs & Hn & Hrun).
  assert (Hw : nth_error (List.map fst tasks) (List.length l1) = Some wallet)
    by (rewrite nth_error_map, Hn; reflexivity).
  destruct (keys_parse_nth _ _ _ _ Hk Hw) as [a Ha]. cbn [Nat.add] in Ha.
  rewrite (run_task_parsed _ _ _ _ Ha) in Hrun. discriminate.
Qed.

(** In order, from left to right, every task can take a permit and run. *)
Lemma run_remaining (p : nat) :
  keys_parse worlds 0 (List.map fst tasks) = true ->
  forall m k ex,
    List.length tasks = k + m ->
    reachable cfg worlds tasks
      (mkBatch (S p) (List.repeat Done k ++ List.repeat Waiting m) ex) ->
    exists ex',
      reachable cfg worlds tasks (mkBatch (S p) (List.repeat Done (k + m)) ex').
Proof.
  intros Hk. induction m as [|m IH]; intros k ex Hlen Hr.
  - exists ex. cbn [List.repeat] in Hr. now rewrite app_nil_r in Hr; rewrite Nat.add_0_r.
  - cbn [List.repeat] in Hr.
    destruct (nth_error tasks k) as [[wallet delay]|] eqn:Hn.
    2:{ apply nth_error_None in Hn. lia. }
    assert (Hw : nth_error (List.map fst tasks) k = Some wallet)
      by (rewrite nth_error_map, Hn; reflexivity).
    destruct (keys_parse_nth _ _ _ _ Hk Hw) as [a Ha]. cbn [Nat.add] in Ha.
    pose proof (run_task_parsed k wallet delay a Ha) as Hrun.
    assert (Hrep : List.length (List.repeat Done k) = k) by apply repeat_length.
    assert (H1 : reachable cfg worlds tasks
                   (mkBatch p (List.repeat Done k ++ Holding :: List.repeat Waiting m) ex))
      by (eapply reach_step; [exact Hr | constructor]).
    assert (H2 : reachable cfg worlds tasks
                   (mkBatch (S p) (List.repeat Done k ++ Done :: List.repeat Waiting m)
                            (ex ++ [wallet_record (worlds k) cfg wallet]))).
    { eapply reach_step; [exact H1|].
      eapply step_done; rewrite Hrep; eauto. }
    replace (List.repeat Done k ++ Done :: List.repeat Waiting m)
      with (List.repeat Done (S k) ++ List.repeat Waiting m) in H2.
    2:{ cbn [List.repeat]. rewrite repeat_cons, <- app_assoc. reflexivity. }
    replace (k + S m) with (S k + m) by lia.
    eapply IH; [lia | exact H2].
Qed.

(** Every step takes one off what remains to be done. *)
Lemma waiting_middle (before after : list task_state) (x : task_state) :
  List.length (filter is_waiting (before ++ x :: after))
  = List.length (filter is_waiting before) + (if is_waiting x then 1 else 0)
    + List.length (filter is_waiting after).
Proof.
  rewrite filter_app, length_app. cbn [filter].
  destruct (is_waiting x); cbn [List.length]; lia.
Qed.

Lemma remaining_step (b b' : batch) :
  step cfg worlds tasks b b' -> S (remaining b') = remaining b.
Proof.
  intros Hstep.
  destruct Hstep as [p before after ex
                    | p before after ex t recs Ht Hrun
                    | p before after ex t e0 recs Ht Hrun];
    unfold remaining; cbn [states];
    rewrite !holding_middle, !waiting_middle; cbn [is_holding is_waiting];
    unfold holding; cbn [states]; lia.
Qed.

Lemma remaining_start :
  remaining (initial_batch cfg (List.length tasks)) = 2 * List.length tasks.
Proof.
  unfold remaining, holding, initial_batch; cbn [states].
  induction (List.length tasks) as [|n IH]; [reflexivity|].
  cbn [List.repeat filter is_waiting is_holding List.length]. lia.
Qed.

Lemma run_reachable (k : nat) (b : batch) :
  run_of cfg worlds tasks k b -> reachable cfg worlds tasks b.
Proof.
  induction 1 as [|k b b' _ IH Hstep]; [apply reach_start|].
  eapply reach_step; eauto.
Qed.

(** A run of [k] steps has [k] steps less to take than the batch had at
    its start. *)
Lemma run_length (k : nat) (b : batch) :
  run_of cfg worlds tasks k b -> k + remaining b = 2 * List.length tasks.
Proof.
  induction 1 as [|k b b' _ IH Hstep]; [apply remaining_start|].
  apply remaining_step in Hstep. lia.
Qed.

Lemma none_holding (l : list task_state) :
  existsb is_holding l = false -> filter is_holding l = [].
Proof.
  induction l as [|x l IH]; [reflexivity|]. cbn [existsb filter].
  destruct (is_holding x); [discriminate|]. exact IH.
Qed.

Lemma some_state (p : task_state -> bool) (x0 : task_state) (l : list task_state) :
  (forall x, p x = true -> x = x0) ->
  existsb p l = true -> exists before after, l = before ++ x0 :: after.
Proof.
  intros Hp H. apply existsb_exists in H as (x & Hin & Hx).
  apply Hp in Hx. subst x. now apply in_split.
Qed.

(** With a permit in the semaphore and keys that parse, a batch that is not
    done can take a step: a task inside its block can leave it, and when
    none is inside, a waiting task can take a permit. *)
Lemma progress (b : batch) :
  keys_parse worlds 0 (List.map fst tasks) = true ->
  0 < threads cfg ->
  reachable cfg worlds tasks b ->
  forallb is_done (states b) = true \/ exists b', step cfg worlds tasks b b'.
Proof.
  intros Hk Hthreads Hreach.
  pose proof (reachable_invariant b Hreach) as Hinv.
  pose proof Hinv as (Hlen & Hperm & _ & _).
  destruct b as [p sts ex]. cbn [states permits exported] in *.
  destruct (existsb is_holding sts) eqn:Hh.
  - (* a task is inside its block *)
    right.
    apply (some_state is_holding Holding) in Hh as (before & after & ->);
      [|intros [] ; try discriminate; reflexivity].
    destruct (tasks_split _ _ _ Hlen) as (t1 & [wallet delay] & t2 & Htasks & Hl1).
    assert (Hn : nth_error tasks (List.length before) = Some (wallet, delay))
      by (rewrite Htasks, <- Hl1, nth_error_app2, Nat.sub_diag by lia; reflexivity).
    assert (Hw : nth_error (List.map fst tasks) (List.length before) = Some wallet)
      by (rewrite nth_error_map, Hn; reflexivity).
    destruct (keys_parse_nth _ _ _ _ Hk Hw) as [a Ha]. cbn [Nat.add] in Ha.
    eexists. eapply step_done; [exact Hn|].
    exact (run_task_parsed _ wallet delay a Ha).
  - destruct (existsb is_waiting sts) eqn:Hw.
    + (* no task is inside, one waits: the permits are all free *)
      right.
      apply (some_state is_waiting Waiting) in Hw as (before & after & ->);
        [|intros [] ; try discriminate; reflexivity].
      unfold holding in Hperm; cbn [states] in Hperm.
      rewrite (none_holding _ Hh) in Hperm. cbn [List.length] in Hperm.
      destruct p as [|p]; [lia|].
      eexists. apply step_acquire.
    + (* every task has left its block, and none has failed *)
      left. apply forallb_forall. intros x Hin.
      destruct x as [| | |e]; [| |reflexivity|].
      * assert (existsb is_waiting sts = true)
          by (apply existsb_exists; exists Waiting; auto).
        congruence.
      * assert (existsb is_holding sts = true)
          by (apply existsb_exists; exists Holding; auto).
        congruence.
      * exfalso. exact (no_failed_task _ e Hk Hinv Hin).
Qed.

End Batch_facts.

Section Process_swaps_facts.

Variable cfg : Config.
Variable worlds : nat -> World.
Variable random : nat -> Z.

Lemma prepare_tasks_wallets (ws : list string) :
  forall i tasks,
    prepare_tasks cfg random i ws = Returns tasks -> List.map fst tasks = ws.
Proof.
  induction ws as [|w0 ws IH]; intros i tasks H; cbn [prepare_tasks] in H.
  - inversion H. reflexivity.
  - destruct (draw_delay cfg (random i)) as [d|]; [|discriminate].
    destruct (prepare_tasks cfg random (S i) ws) as [ts|] eqn:E; [|discriminate].
    inversion H; subst. cbn. now rewrite (IH _ _ E).
Qed.

Lemma prepare_tasks_ok (ws : list string) :
  delay_range_ok cfg = true ->
  forall i, exists tasks, prepare_tasks cfg random i ws = Returns tasks.
Proof.
  intros Hok. induction ws as [|w0 ws IH]; intros i; cbn [prepare_tasks]; [eauto|].
  assert (Hd : exists d, draw_delay cfg (random i) = Returns d).
  { unfold draw_delay, randint. unfold delay_range_ok in Hok.
    destruct (Z.ltb_spec 0 (delay_max cfg)); [|eauto].
    destruct (Z.ltb_spec (delay_max cfg) (delay_min cfg)); [|eauto].
    apply orb_prop in Hok as [H1|H1]; apply Z.leb_le in H1; lia. }
  destruct Hd as [d ->]. destruct (IH (S i)) as [ts ->]. eauto.
Qed.

Lemma outputs_all_done (ts : list (string * Z)) :
  forall sts i,
    forallb is_done sts = true -> List.length sts = List.length ts ->
    keys_parse worlds i (List.map fst ts) = true ->
    outputs cfg worlds i sts ts = wallet_records worlds cfg i (List.map fst ts).
Proof.
  induction ts as [|[wallet delay] ts IH]; intros sts i Hd Hl Hk.
  - destruct sts; [reflexivity | discriminate].
  - destruct sts as [|st sts]; [discriminate|].
    cbn [forallb] in Hd. apply andb_prop in Hd as [Hst Hd].
    destruct st; try discriminate.
    cbn [List.map fst keys_parse] in Hk.
    destruct (from_key (worlds i) wallet) as [a|] eqn:Ha; [|discriminate].
    cbn [outputs List.map fst wallet_records].
    rewrite (run_task_parsed cfg worlds i wallet delay a Ha). cbn [snd app].
    f_equal. apply IH; auto.
Qed.

Lemma wallet_records_length (ws : list string) :
  forall i, List.length (wallet_records worlds cfg i ws) = List.length ws.
Proof. induction ws as [|w0 ws IH]; intros i; cbn; auto. Qed.

End Process_swaps_facts.

(** The batch of one wallet whose key does not parse: the constructor's
    exception leaves [safe_swap], nothing is exported, and [process_swaps]
    raises. *)
Lemma bad_wallet_aborts :
  safe_swap Sample.good Sample.bad_wallet 1 "zz" "https://rpc" None
  = (Raises (Remote "Non-hexadecimal digit found"), []) /\
  process_swaps Sample.bad_wallet (fun _ => Sample.good) (fun _ => 0%Z)
    (Aborted (Remote "Non-hexadecimal digit found") []).
Proof.
  split; [reflexivity|].
  apply (swaps_aborted _ _ _ [("zz", 1%Z)]
           (mkBatch 1 [Failed (Remote "Non-hexadecimal digit found")] [])).
  - reflexivity.
  - eapply reach_step; [eapply reach_step; [apply reach_start|]|].
    + apply (step_acquire _ _ _ 0 [] [] []).
    + apply (step_failed _ _ _ 0 [] [] [] ("zz", 1%Z)
               (Remote "Non-hexadecimal digit found") []); reflexivity.
  - left. reflexivity.
Qed.

(** The batch of one wallet whose quote request is refused: it completes,
    and the record exported carries the address, the status and the label. *)
Lemma refused_wallet_completes :
  process_swaps Sample.one_wallet (fun _ => Sample.refusing) (fun _ => 0%Z)
    (Completed [mkExport "0xA1" false "rhino_bridge"]) /\
  fst (process_swap Sample.refusing Sample.self None initial_state)
  = Returns (false, "Quote has no quoteId: <json>").
Proof.
  split; [|reflexivity].
  apply (swaps_completed _ _ _ [("k1", 1%Z)]
           (mkBatch 1 [Done] [mkExport "0xA1" false "rhino_bridge"])).
  - reflexivity.
  - eapply reach_step; [eapply reach_step; [apply reach_start|]|].
    + apply (step_acquire _ _ _ 0 [] [] []).
    + apply (step_done _ _ _ 0 [] [] [] ("k1", 1%Z)
               [mkExport "0xA1" false "rhino_bridge"]); reflexivity.
  - reflexivity.
Qed.

(** The batch of two wallets, both inside their block at the same time:
    the quote of the first wallet is refused, the second wallet deposits and
    leaves its block first.  Both records are exported, each with the flag
    of its own workflow, and the batch completes. *)
Lemma mixed_batch_completes :
  process_swaps Sample.two_keys Sample.mixed (fun _ => 0%Z)
    (Completed [mkExport "0xC3" true "rhino_bridge"; mkExport "0xA1" false "rhino_bridge"]).
Proof.
  assert (H0 : run_task Sample.two_keys Sample.mixed 0 ("k1", 1%Z)
               = (Returns tt, [mkExport "0xA1" false "rhino_bridge"]))
    by (vm_compute; reflexivity).
  assert (H1 : run_task Sample.two_keys Sample.mixed 1 ("k2", 1%Z)
               = (Returns tt, [mkExport "0xC3" true "rhino_bridge"]))
    by (vm_compute; reflexivity).
  apply (swaps_completed _ _ _ [("k1", 1%Z); ("k2", 1%Z)]
           (mkBatch 2 [Done; Done]
              [mkExport "0xC3" true "rhino_bridge"; mkExport "0xA1" false "rhino_bridge"])).
  - reflexivity.
  - apply (reach_step _ _ _
             (mkBatch 1 [Holding; Done] [mkExport "0xC3" true "rhino_bridge"])).
    + apply (reach_step _ _ _ (mkBatch 0 [Holding; Holding] [])).
      * apply (reach_step _ _ _ (mkBatch 1 [Holding; Waiting] [])).
        -- apply (reach_step _ _ _ (mkBatch 2 [Waiting; Waiting] []));
             [apply reach_start|].
           apply (step_acquire _ _ _ 1 [] [Waiting] []).
        -- apply (step_acquire _ _ _ 0 [Holding] [] []).
      * apply (step_done _ _ _ 0 [Holding] [] [] ("k2", 1%Z)
                 [mkExport "0xC3" true "rhino_bridge"]); [reflexivity | exact H1].
    + apply (step_done _ _ _ 1 [] [Done] [mkExport "0xC3" true "rhino_bridge"]
               ("k1", 1%Z) [mkExport "0xA1" false "rhino_bridge"]);
        [reflexivity | exact H0].
  - reflexivity.
Qed.

End BotFacts.

(** C1, as the code has it.  For every batch whose wallet keys all parse
    (and a delay range that can be drawn from), however the tasks
    interleave, [process_swaps] completes with exactly one export per input
    wallet: the wallet's address, the success flag its own [process_swap]
    returned, and the label "rhino_bridge" (the error text or hash is not
    part of the record).  The record of a wallet depends on that wallet's
    workflow only, so a workflow that fails changes nothing for the others.
    And with at least one permit the batch completes on every schedule: a
    run of the tasks has at most two steps per wallet, and at each of its
    states either every task is done, [process_swaps] returning with the
    exports made, or some task can take a step; no run hangs or goes on
    for ever. *)
Theorem C1_one_record_per_wallet :
  forall (cfg : Config) (worlds : nat -> World) (random : nat -> Z),
    delay_range_ok cfg = true ->
    keys_parse worlds 0 (wallets cfg) = true ->
    (forall result,
        process_swaps cfg worlds random result ->
        exists ex,
          result = Completed ex /\
          Permutation ex (wallet_records worlds cfg 0 (wallets cfg)) /\
          List.length ex = List.length (wallets cfg)) /\
    (0 < threads cfg ->
     (exists ex, process_swaps cfg worlds random (Completed ex)) /\
     (exists tasks,
         prepare_tasks cfg random 0 (wallets cfg) = Returns tasks /\
         forall k b,
           run_of cfg worlds tasks k b ->
           k <= 2 * List.length (wallets cfg) /\
           ((forallb is_done (states b) = true /\
             process_swaps cfg worlds random (Completed (exported b))) \/
            exists b', step cfg worlds tasks b b'))).
Proof.
  intros cfg worlds random Hrange Hkeys.
  destruct (BotFacts.prepare_tasks_ok cfg random (wallets cfg) Hrange 0) as [tasks Hprep].
  pose proof (BotFacts.prepare_tasks_wallets cfg random _ _ _ Hprep) as Hws.
  split.
  - intros result Hrun.
    destruct Hrun as [e He | tasks' b Hp Hreach Hdone | tasks' b e Hp Hreach Hin].
    + congruence.
    + assert (tasks' = tasks) by congruence. subst tasks'.
      pose proof (BotFacts.reachable_invariant cfg worlds tasks b Hreach)
        as (Hlen & _ & Hex & _).
      rewrite (BotFacts.outputs_all_done cfg worlds tasks (states b) 0 Hdone Hlen) in Hex
        by (rewrite Hws; exact Hkeys).
      rewrite Hws in Hex.
      exists (exported b). split; [reflexivity|]. split; [exact Hex|].
      rewrite (Permutation_length Hex). apply BotFacts.wallet_records_length.
    + assert (tasks' = tasks) by congruence. subst tasks'.
      exfalso.
      eapply (BotFacts.no_failed_task cfg worlds tasks b e); eauto.
      * rewrite Hws. exact Hkeys.
      * now apply BotFacts.reachable_invariant.
  - intros Hthreads. split.
    + destruct (threads cfg) as [|p] eqn:Hp; [lia|].
      destruct (BotFacts.run_remaining cfg worlds tasks p
                  ltac:(rewrite Hws; exact Hkeys)
                  (List.length tasks) 0 [] eq_refl) as [ex' Hr].
      { cbn [List.repeat app]. rewrite <- Hp. apply reach_start. }
      exists ex'.
      apply (swaps_completed cfg worlds random tasks
               (mkBatch (S p) (List.repeat Done (0 + List.length tasks)) ex'));
        [exact Hprep | exact Hr |].
      cbn [states Nat.add]. clear. induction (List.length tasks); cbn; auto.
    + exists tasks. split; [exact Hprep|]. intros k b Hrun.
      pose proof (BotFacts.run_reachable cfg worlds tasks k b Hrun) as Hreach.
      split.
      * pose proof (BotFacts.run_length cfg worlds tasks k b Hrun) as Hk.
        rewrite <- Hws, length_map. lia.
      * destruct (BotFacts.progress cfg worlds tasks b) as [Hdone|Hstep]; auto.
        -- rewrite Hws. exact Hkeys.
        -- left. split; [exact Hdone|].
           now apply (swaps_completed cfg worlds random tasks b).
Qed.

Lemma C1_witness :
  (exists ex,
      Completed [mkExport "0xC3" true "rhino_bridge"; mkExport "0xA1" false "rhino_bridge"]
      = Completed ex /\
      Permutation ex (wallet_records Sample.mixed Sample.two_keys 0
                        (wallets Sample.two_keys)) /\
      List.length ex = List.length (wallets Sample.two_keys)) /\
  wallet_records Sample.mixed Sample.two_keys 0 (wallets Sample.two_keys)
  = [mkExport "0xA1" false "rhino_bridge"; mkExport "0xC3" true "rhino_bridge"] /\
  (exists ex, process_swaps Sample.two_keys Sample.mixed (fun _ => 0%Z) (Completed ex)) /\
  (exists tasks,
      prepare_tasks Sample.two_keys (fun _ => 0%Z) 0 (wallets Sample.two_keys)
      = Returns tasks /\
      forall k b,
        run_of Sample.two_keys Sample.mixed tasks k b ->
        k <= 2 * List.length (wallets Sample.two_keys) /\
        ((forallb is_done (states b) = true /\
          process_swaps Sample.two_keys Sample.mixed (fun _ => 0%Z)
            (Completed (exported b))) \/
         exists b', step Sample.two_keys Sample.mixed tasks b b')).
Proof.
  destruct (C1_one_record_per_wallet Sample.two_keys Sample.mixed (fun _ => 0%Z)
              eq_refl eq_refl) as [Hrecords Hcompletes].
  split; [|split].
  - apply Hrecords. exact BotFacts.mixed_batch_completes.
  - vm_compute. reflexivity.
  - apply Hcompletes. apply Nat.lt_0_succ.
Defined.

(** C1 as stated fails twice.  The record exported for a wallet whose
    workflow failed is (address, False, "rhino_bridge"): the error text the
    workflow returned is not in it.  And for a wallet whose key does not
    parse nothing is exported at all, while the batch raises. *)
Lemma C1_counterexample :
  (process_swaps Sample.one_wallet (fun _ => Sample.refusing) (fun _ => 0%Z)
     (Completed [mkExport "0xA1" false "rhino_bridge"]) /\
   fst (process_swap Sample.refusing Sample.self None initial_state)
   = Returns (false, "Quote has no quoteId: <json>") /\
   mkExport "0xA1" false "rhino_bridge"
   <> mkExport "0xA1" false "Quote has no quoteId: <json>") /\
  (process_swaps Sample.bad_wallet (fun _ => Sample.good) (fun _ => 0%Z)
     (Aborted (Remote "Non-hexadecimal digit found") []) /\
   List.length (@nil export) <> List.length (wallets Sample.bad_wallet)).
Proof.
  split; [split; [exact (proj1 BotFacts.refused_wallet_completes)|split]|split].
  - exact (proj2 BotFacts.refused_wallet_completes).
  - discriminate.
  - exact (proj2 BotFacts.bad_wallet_aborts).
  - discriminate.
Qed.

(** C2 at the failing input.  Inside [process_swap] every exception becomes
    the pair (False, text).  The key is parsed by the constructor, though,
    which [safe_swap] calls before its [try]: for the wallet "zz" the
    exception leaves [safe_swap], no record is exported, and [gather] passes
    the exception on to [process_swaps]. *)
Theorem C2_unparseable_key_escapes :
  (forall (w : World) (self : module) (amount : option PyFloat.float) (s : module_state),
      exists status result s',
        process_swap w self amount s = (Returns (status, result), s')) /\
  from_key Sample.good "zz" = Raises (Remote "Non-hexadecimal digit found") /\
  safe_swap Sample.good Sample.bad_wallet 1 "zz" "https://rpc" None
  = (Raises (Remote "Non-hexadecimal digit found"), []) /\
  process_swaps Sample.bad_wallet (fun _ => Sample.good) (fun _ => 0%Z)
    (Aborted (Remote "Non-hexadecimal digit found") []).
Proof.
  split; [exact BotFacts.process_swap_returns|].
  split; [reflexivity|].
  exact BotFacts.bad_wallet_aborts.
Qed.

(** C9.  In every state a batch can reach, whatever the number of tasks and
    however they interleave, the tasks inside the [async with semaphore]
    block are as many as the permits taken: never more than the capacity
    [threads]. *)
Theorem C9_at_most_threads_hold_the_semaphore :
  forall (cfg : Config) (worlds : nat -> World) (tasks : list (string * Z)) (b : batch),
    reachable cfg worlds tasks b ->
    holding b <= threads cfg /\ holding b + permits b = threads cfg.
Proof.
  intros cfg worlds tasks b Hr.
  destruct (BotFacts.reachable_invariant cfg worlds tasks b Hr) as (_ & Hp & _).
  split; [lia | exact Hp].
Qed.

Lemma C9_witness :
  holding (mkBatch 0 [Holding; Waiting] []) <= threads Sample.two_wallets /\
  holding (mkBatch 0 [Holding; Waiting] []) + 0 = threads Sample.two_wallets.
Proof.
  apply (C9_at_most_threads_hold_the_semaphore Sample.two_wallets (fun _ => Sample.good)
           [("k1", 1%Z); ("k1", 2%Z)] (mkBatch 0 [Holding; Waiting] [])).
  eapply reach_step; [apply reach_start|].
  apply (step_acquire _ _ _ 0 [] [Waiting] []).
Defined.

(* ===================================================================== *)
(** * Facts about floats: [int(e * 1.20)]

    The product of an integer below [2^50] with the double nearest to 1.2,
    rounded to nearest even and cut to an integer, is the floor of [6e/5]. *)
(* ===================================================================== *)

Local Open Scope Z_scope.

Module FloatFacts.

Lemma iter_pos_iter {A} (f : A -> A) (n : positive) :
  forall x, iter_pos f n x = Pos.iter f x n.
Proof.
  induction n as [n IH|n IH|]; intros x; cbn [iter_pos Pos.iter].
  - rewrite !IH, !Pos.iter_swap. reflexivity.
  - rewrite !IH. reflexivity.
  - reflexivity.
Qed.

(** One shift to the right: the mantissa is halved, the bit that falls off
    is the round bit, and the sticky bit remembers the bits before it. *)
Lemma shr_1_spec (m : Z) (r s : bool) :
  0 <= m ->
  shr_1 (Build_shr_record m r s) = Build_shr_record (m / 2) (Z.odd m) (r || s).
Proof.
  intros Hm. rewrite <- Z.div2_div.
  destruct m as [|p|p]; [reflexivity | destruct p; reflexivity | lia].
Qed.

Lemma shr_iter_spec (m : Z) :
  0 <= m ->
  forall n, shifted m n (Pos.iter shr_1 (Build_shr_record m false false) n).
Proof.
  intros Hm n. induction n as [|n IH] using Pos.peano_ind.
  - cbn [Pos.iter]. rewrite shr_1_spec by lia. cbn [orb].
    exists (m mod 2). cbn [shr_m shr_r shr_s].
    change (2 ^ 1) with 2. change (2 ^ (1 - 1)) with 1.
    pose proof (Z.div_mod m 2 ltac:(lia)) as Hdm.
    pose proof (Z.mod_pos_bound m 2 ltac:(lia)) as Hb.
    rewrite Zmod_odd in *.
    repeat split; try lia; try (apply Z.div_pos; lia).
    all: destruct (Z.odd m); reflexivity.
  - rewrite Pos.iter_succ.
    destruct IH as (rem & Hrem & Heq & Hq & Hr & Hs).
    destruct (Pos.iter shr_1 (Build_shr_record m false false) n) as [q r s].
    cbn [shr_m shr_r shr_s] in *.
    rewrite shr_1_spec by lia. unfold shifted.
    rewrite Pos2Z.inj_succ.
    replace (Z.succ (Zpos n) - 1) with (Zpos n) by lia.
    rewrite Z.pow_succ_r by lia.
    assert (Hpow : 2 ^ Zpos n = 2 * 2 ^ (Zpos n - 1)).
    { rewrite <- Z.pow_succ_r by lia. f_equal. lia. }
    assert (Hpos : 0 < 2 ^ (Zpos n - 1)) by (apply Z.pow_pos_nonneg; lia).
    pose proof (Z.div_mod q 2 ltac:(lia)) as Hdm.
    rewrite Zmod_odd in Hdm.
    exists (rem + 2 ^ Zpos n * (if Z.odd q then 1 else 0)).
    cbn [shr_m shr_r shr_s].
    assert (Hq2 : 0 <= q / 2) by (apply Z.div_pos; lia).
    destruct (Z.odd q) eqn:Hodd; (repeat split; try lia; try nia).
    all: subst r s;
      repeat match goal with
             | |- context [Z.leb ?a ?b] => destruct (Z.leb_spec a b)
             | |- context [Z.eqb ?a ?b] => destruct (Z.eqb_spec a b)
             end; cbn; try reflexivity; lia.
Qed.

(** Rounding to nearest even after the shift: the quotient or its
    successor, whichever side of one half the remainder lies on. *)
Lemma round_after_shift (m : Z) (n : positive) (R : shr_record) :
  shifted m n R ->
  let q := m / 2 ^ Zpos n in
  let rem := m mod 2 ^ Zpos n in
  let x := round_nearest_even (shr_m R) (loc_of_shr_record R) in
  shr_m R = q /\
  ((x = q /\ 2 * rem <= 2 ^ Zpos n) \/ (x = q + 1 /\ 2 ^ Zpos n <= 2 * rem)).
Proof.
  intros (rem0 & Hrem & Heq & Hq & Hr & Hs) q rem x.
  assert (Hpos : 0 < 2 ^ Zpos n) by (apply Z.pow_pos_nonneg; lia).
  assert (Hpow : 2 ^ Zpos n = 2 * 2 ^ (Zpos n - 1)).
  { rewrite <- Z.pow_succ_r by lia. f_equal. lia. }
  assert (Hq' : shr_m R = q).
  { unfold q. apply Z.div_unique with rem0; lia. }
  assert (Hrem' : rem0 = rem).
  { unfold rem. apply Z.mod_unique with (shr_m R); lia. }
  split; [exact Hq'|].
  subst x. destruct R as [mq r s]. cbn [shr_m shr_r shr_s] in *.
  subst rem0.
  destruct r, s; cbn [loc_of_shr_record round_nearest_even].
  - (* above one half *)
    right. symmetry in Hr. apply Z.leb_le in Hr. split; lia.
  - (* one half *)
    symmetry in Hr. apply Z.leb_le in Hr.
    symmetry in Hs. apply negb_false_iff, Z.eqb_eq in Hs.
    destruct (Z.even mq); [left | right]; split; lia.
  - left. symmetry in Hr. apply Z.leb_gt in Hr. split; lia.
  - left. symmetry in Hr. apply Z.leb_gt in Hr. split; lia.
Qed.

(** ** Bit lengths *)

Lemma digits2_bounds (p : positive) :
  2 ^ (Zpos (digits2_pos p) - 1) <= Zpos p < 2 ^ Zpos (digits2_pos p).
Proof.
  induction p as [p IH|p IH|]; cbn [digits2_pos].
  - rewrite Pos2Z.inj_succ, (Pos2Z.inj_xI p).
    replace (Z.succ (Zpos (digits2_pos p)) - 1) with (Z.succ (Zpos (digits2_pos p) - 1)) by lia.
    rewrite !Z.pow_succ_r by lia. lia.
  - rewrite Pos2Z.inj_succ, (Pos2Z.inj_xO p).
    replace (Z.succ (Zpos (digits2_pos p)) - 1) with (Z.succ (Zpos (digits2_pos p) - 1)) by lia.
    rewrite !Z.pow_succ_r by lia. lia.
  - cbn. lia.
Qed.

Lemma digits2_unique (p : positive) (k : Z) :
  2 ^ (k - 1) <= Zpos p < 2 ^ k -> Zpos (digits2_pos p) = k.
Proof.
  intros [Hlo Hhi]. pose proof (digits2_bounds p) as [Dlo Dhi].
  set (d := Zpos (digits2_pos p)) in *.
  assert (Hk : 0 < k).
  { destruct (Z.ltb_spec 0 k) as [|Hk]; [assumption|].
    destruct k as [|k|k]; cbn in Hhi; lia. }
  destruct (Z.lt_trichotomy d k) as [Hlt|[Heq|Hgt]]; [|exact Heq|].
  - assert (2 ^ d <= 2 ^ (k - 1)) by (apply Z.pow_le_mono_r; lia). lia.
  - assert (2 ^ k <= 2 ^ (d - 1)) by (apply Z.pow_le_mono_r; lia). lia.
Qed.

Lemma iter_xO (p d : positive) : Zpos (Pos.iter xO p d) = Zpos p * 2 ^ Zpos d.
Proof.
  induction d as [|d IH] using Pos.peano_ind.
  - cbn [Pos.iter]. rewrite (Pos2Z.inj_xO p). change (2 ^ 1) with 2. lia.
  - rewrite Pos.iter_succ, (Pos2Z.inj_xO (Pos.iter xO p d)), IH, Pos2Z.inj_succ,
            Z.pow_succ_r by lia. lia.
Qed.

Lemma fexp_normal (x : Z) :
  -1021 <= x -> fexp PyFloat.prec PyFloat.emax x = x - 53.
Proof. unfold fexp, emin, PyFloat.prec, PyFloat.emax. lia. Qed.

(** ** Shifts inside the rounding of a result *)

Lemma shr_fexp_noshift (m : positive) (e : Z) :
  Zpos (digits2_pos m) = 53 -> -1021 <= 53 + e ->
  shr_fexp PyFloat.prec PyFloat.emax (Zpos m) e loc_Exact
  = (Build_shr_record (Zpos m) false false, e).
Proof.
  intros Hd He. unfold shr_fexp. cbn [Zdigits2 shr_record_of_loc].
  rewrite Hd, fexp_normal by lia.
  replace (53 + e - 53 - e) with 0 by lia. reflexivity.
Qed.

Lemma shr_fexp_shift (m : positive) (e : Z) (n : positive) :
  Zpos (digits2_pos m) = 53 + Zpos n -> -1021 <= 53 + Zpos n + e ->
  shr_fexp PyFloat.prec PyFloat.emax (Zpos m) e loc_Exact
  = (Pos.iter shr_1 (Build_shr_record (Zpos m) false false) n, e + Zpos n).
Proof.
  intros Hd He. unfold shr_fexp. cbn [Zdigits2 shr_record_of_loc].
  rewrite Hd, fexp_normal by lia.
  replace (53 + Zpos n + e - 53 - e) with (Zpos n) by lia.
  cbn [shr]. now rewrite iter_pos_iter.
Qed.

(** ** An integer as a float *)

Lemma of_int_normal (p : positive) :
  let dg := Zpos (digits2_pos p) in
  dg <= 52 ->
  exists mz,
    PyFloat.of_int (Zpos p) = Some (S754_finite false mz (dg - 53)) /\
    Zpos mz = Zpos p * 2 ^ (53 - dg) /\
    Zpos (digits2_pos mz) = 53.
Proof.
  intros dg Hdg. pose proof (digits2_bounds p) as Hb. fold dg in Hb.
  assert (Hdg1 : 1 <= dg) by (unfold dg; lia).
  unfold PyFloat.of_int, binary_normalize, binary_round.
  rewrite Z.add_0_r. fold dg. rewrite fexp_normal by lia. unfold shl_align.
  destruct (dg - 53 - 0) as [|d|d] eqn:Ed; try lia.
  set (mz := Pos.iter xO p d).
  assert (Hmz : Zpos mz = Zpos p * 2 ^ (53 - dg))
    by (unfold mz; rewrite iter_xO; f_equal; f_equal; lia).
  assert (H52 : 2 ^ 52 = 2 ^ (dg - 1) * 2 ^ (53 - dg))
    by (rewrite <- Z.pow_add_r by lia; f_equal; lia).
  assert (H53 : 2 ^ 53 = 2 ^ dg * 2 ^ (53 - dg))
    by (rewrite <- Z.pow_add_r by lia; f_equal; lia).
  assert (HK : 0 < 2 ^ (53 - dg)) by (apply Z.pow_pos_nonneg; lia).
  assert (Hdm : Zpos (digits2_pos mz) = 53).
  { apply digits2_unique. change (53 - 1) with 52. rewrite Hmz, H52, H53.
    split; [apply Z.mul_le_mono_nonneg_r | apply Z.mul_lt_mono_pos_r]; lia. }
  exists mz. split; [|split; assumption].
  unfold binary_round_aux.
  rewrite shr_fexp_noshift by (auto; lia). cbv beta iota.
  cbn [shr_m loc_of_shr_record round_nearest_even].
  rewrite shr_fexp_noshift by (auto; lia). cbv beta iota. cbn [shr_m].
  replace (dg - 53 <=? PyFloat.emax - PyFloat.prec) with true
    by (symmetry; apply Z.leb_le; unfold PyFloat.emax, PyFloat.prec; lia).
  reflexivity.
Qed.

(** ** The rounding of a product *)

Lemma round_aux_spec (P : positive) (ex : Z) (n : positive) :
  Zpos (digits2_pos P) = 53 + Zpos n ->
  -1021 <= 53 + Zpos n + ex ->
  ex + Zpos n <= -1 ->
  exists x,
    PyFloat.to_int (binary_round_aux PyFloat.prec PyFloat.emax false (Zpos P) ex loc_Exact)
    = Some (x / 2 ^ (- (ex + Zpos n))) /\
    let q := Zpos P / 2 ^ Zpos n in
    let rem := Zpos P mod 2 ^ Zpos n in
    (x = q /\ 2 * rem <= 2 ^ Zpos n) \/ (x = q + 1 /\ 2 ^ Zpos n <= 2 * rem).
Proof.
  intros Hd Hlo Hhi.
  pose proof (digits2_bounds P) as [Plo Phi]. rewrite Hd in Plo, Phi.
  replace (53 + Zpos n - 1) with (52 + Zpos n) in Plo by lia.
  rewrite Z.pow_add_r in Plo, Phi by lia.
  assert (Hn : 0 < 2 ^ Zpos n) by (apply Z.pow_pos_nonneg; lia).
  pose proof (shr_iter_spec (Zpos P) ltac:(lia) n) as Hsh.
  pose proof (round_after_shift _ _ _ Hsh) as Hround. cbv zeta in Hround.
  destruct Hround as [Hq Hx].
  set (q := Zpos P / 2 ^ Zpos n) in *.
  set (rem := Zpos P mod 2 ^ Zpos n) in *.
  assert (Hqlo : 2 ^ 52 <= q) by (apply Z.div_le_lower_bound; lia).
  assert (Hqhi : q < 2 ^ 53) by (apply Z.div_lt_upper_bound; lia).
  unfold binary_round_aux.
  rewrite (shr_fexp_shift P ex n Hd Hlo). cbv beta iota.
  set (x := round_nearest_even
              (shr_m (Pos.iter shr_1 (Build_shr_record (Zpos P) false false) n))
              (loc_of_shr_record (Pos.iter shr_1 (Build_shr_record (Zpos P) false false) n)))
    in *.
  exists x. split; [|exact Hx].
  assert (Hxr : 2 ^ 52 <= x <= 2 ^ 53) by lia.
  set (E := ex + Zpos n) in *.
  destruct (Z.eq_dec x (2 ^ 53)) as [Hc|Hc].
  - (* the rounding carried into a 54th bit *)
    rewrite Hc. change (2 ^ 53) with (Zpos 9007199254740992).
    rewrite (shr_fexp_shift 9007199254740992 E 1) by (try reflexivity; lia).
    cbv beta iota. cbn [Pos.iter shr_1 shr_m].
    replace (E + 1 <=? PyFloat.emax - PyFloat.prec) with true
      by (symmetry; apply Z.leb_le; unfold PyFloat.emax, PyFloat.prec; lia).
    cbn [PyFloat.to_int]. f_equal.
    destruct (Z.leb_spec 0 (E + 1)) as [H0|H0].
    + assert (E = -1) by lia. replace (E + 1) with 0 by lia.
      replace (- E) with 1 by lia. reflexivity.
    + replace (- E) with (Z.succ (- (E + 1))) by lia.
      rewrite Z.pow_succ_r by lia.
      change (Zpos 9007199254740992) with (2 * Zpos 4503599627370496).
      rewrite Z.div_mul_cancel_l by (try apply Z.pow_nonzero; lia). reflexivity.
  - destruct x as [|xp|xp]; try lia.
    assert (Hdx : Zpos (digits2_pos xp) = 53) by (apply digits2_unique; change (53 - 1) with 52; lia).
    rewrite (shr_fexp_noshift xp E Hdx) by lia.
    cbv beta iota. cbn [shr_m].
    replace (E <=? PyFloat.emax - PyFloat.prec) with true
      by (symmetry; apply Z.leb_le; unfold PyFloat.emax, PyFloat.prec; lia).
    cbn [PyFloat.to_int].
    replace (0 <=? E) with false by (symmetry; apply Z.leb_gt; lia).
    reflexivity.
Qed.

(** ** [int(e * 1.20)] *)

Lemma five_times_lit : 5 * 5404319552844595 = 6 * 2 ^ 52 - 1.
Proof. reflexivity. Qed.

Lemma floor_of_rounded (x N S A NS q rem mz tS : Z) :
  (* x is q or its successor, by the side of one half the remainder is on *)
  (x = q /\ 2 * rem <= A) \/ (x = q + 1 /\ A <= 2 * rem) ->
  0 <= rem < A ->
  (* the product, times five *)
  5 * (A * q + rem) = 5 * A * NS + A * tS - mz ->
  NS = N * S ->
  0 < mz -> 2 * mz < 5 * A -> mz <= 2 * A -> 4 * A <= A * S + mz ->
  4 <= S -> 0 < A ->
  (tS = 0 \/ (S <= tS <= 4 * S)) ->
  x / S = N.
Proof.
  intros Hx Hrem H5 HNS Hmz0 Hmz1 Hmz2 Hmz3 HS HA Ht.
  symmetry. apply Z.div_unique with (x - S * N); [left | lia].
  subst NS. 
  assert (HAS : 0 < A * S) by nia.
  destruct Ht as [Ht|Ht]; destruct Hx as [[-> Hr]|[-> Hr]]; nia.
Qed.

Lemma six_fifths (e S : Z) :
  0 <= e -> 0 < S ->
  exists tS, 6 * (e * S) = 5 * (6 * e / 5 * S) + tS /\ (tS = 0 \/ S <= tS <= 4 * S).
Proof.
  intros He HS.
  pose proof (Z.div_mod (6 * e) 5 ltac:(lia)) as Hdm.
  pose proof (Z.mod_pos_bound (6 * e) 5 ltac:(lia)) as Hb.
  exists ((6 * e) mod 5 * S). split; [nia|].
  destruct (Z.eq_dec ((6 * e) mod 5) 0) as [->|Hne]; [left; lia | right; nia].
Qed.

(** For an estimate below [2^50] the gas limit is the floor of [6e/5]. *)
Lemma gas_limit_floor (e : Z) :
  0 <= e < 2 ^ 50 -> gas_limit_of_estimate e = Some (6 * e / 5).
Proof.
  intros [H0 Hlt]. destruct e as [|p|p]; [reflexivity | | lia].
  unfold gas_limit_of_estimate.
  pose proof (digits2_bounds p) as [Dlo Dhi].
  set (dg := Zpos (digits2_pos p)) in *.
  assert (Hdg1 : 1 <= dg) by (unfold dg; lia).
  assert (Hdg : dg <= 50).
  { destruct (Z.le_gt_cases dg 50) as [|Hgt]; [assumption|].
    assert (2 ^ 50 <= 2 ^ (dg - 1)) by (apply Z.pow_le_mono_r; lia). lia. }
  destruct (of_int_normal p ltac:(fold dg; lia)) as (mz & Hof & Hmz & Hdmz).
  fold dg in Hof, Hmz. rewrite Hof.
  unfold PyFloat.mul, PyFloat.lit_1_20. cbn [SFmul xorb].
  pose proof (digits2_bounds mz) as [Mlo Mhi]. rewrite Hdmz in Mlo, Mhi.
  change (2 ^ (53 - 1)) with 4503599627370496 in Mlo.
  change (2 ^ 53) with 9007199254740992 in Mhi.
  set (P := (mz * 5404319552844595)%positive).
  assert (HP : Zpos P = Zpos mz * 5404319552844595) by reflexivity.
  set (K := 2 ^ (52 - dg)).
  assert (HK : 4 <= K).
  { unfold K. change 4 with (2 ^ 2). apply Z.pow_le_mono_r; lia. }
  assert (HmzK : Zpos mz = Zpos p * (2 * K)).
  { rewrite Hmz. unfold K. rewrite <- Z.pow_succ_r by lia. do 2 f_equal. lia. }
  destruct (Z.lt_ge_cases (Zpos P) (2 ^ 105)) as [Hsmall|Hbig].
  - (* a product of 105 bits: 52 are dropped *)
    assert (Hd : Zpos (digits2_pos P) = 53 + 52).
    { apply digits2_unique. change (53 + 52 - 1) with 104. change (53 + 52) with 105.
      split; [|exact Hsmall].
      change (2 ^ 104) with (4503599627370496 * 4503599627370496). nia. }
    destruct (round_aux_spec P (dg - 53 + -52) 52 Hd ltac:(lia) ltac:(lia))
      as (x & Hto & Hx).
    fold P. rewrite Hto. f_equal. cbv zeta in Hx.
    replace (- (dg - 53 + -52 + 52)) with (Z.succ (52 - dg)) by lia.
    rewrite Z.pow_succ_r by lia. fold K.
    pose proof (Z.div_mod (Zpos P) (2 ^ 52) ltac:(lia)) as Hdm.
    pose proof (Z.mod_pos_bound (Zpos P) (2 ^ 52) ltac:(lia)) as Hrem.
    destruct (six_fifths (Zpos p) (2 * K) ltac:(lia) ltac:(lia)) as (tS & H6 & Ht).
    set (q := Zpos P / 2 ^ 52) in *. set (rem := Zpos P mod 2 ^ 52) in *.
    change (2 ^ 52) with 4503599627370496 in *.
    eapply (floor_of_rounded x (6 * Zpos p / 5) (2 * K) 4503599627370496
              (6 * Zpos p / 5 * (2 * K)) q rem (Zpos mz) tS);
      try eassumption; try reflexivity; try lia.
  - (* a product of 106 bits: 53 are dropped *)
    assert (Hd : Zpos (digits2_pos P) = 53 + 53).
    { apply digits2_unique. change (53 + 53 - 1) with 105. change (53 + 53) with 106.
      split; [exact Hbig|].
      change (2 ^ 106) with (9007199254740992 * 9007199254740992). nia. }
    destruct (round_aux_spec P (dg - 53 + -52) 53 Hd ltac:(lia) ltac:(lia))
      as (x & Hto & Hx).
    fold P. rewrite Hto. f_equal. cbv zeta in Hx.
    replace (- (dg - 53 + -52 + 53)) with (52 - dg) by lia. fold K.
    pose proof (Z.div_mod (Zpos P) (2 ^ 53) ltac:(lia)) as Hdm.
    pose proof (Z.mod_pos_bound (Zpos P) (2 ^ 53) ltac:(lia)) as Hrem.
    destruct (six_fifths (Zpos p) K ltac:(lia) ltac:(lia)) as (tS & H6 & Ht).
    set (q := Zpos P / 2 ^ 53) in *. set (rem := Zpos P mod 2 ^ 53) in *.
    change (2 ^ 53) with 9007199254740992 in *.
    eapply (floor_of_rounded x (6 * Zpos p / 5) K 9007199254740992
              (6 * Zpos p / 5 * K) q rem (Zpos mz) tS);
      try eassumption; try reflexivity; try lia.
Qed.

End FloatFacts.

Local Open Scope string_scope.
Local Open Scope Z_scope.
Local Open Scope list_scope.

(** C5, as the code has it.  When the reads around it succeed, the deposit
    handed to the node carries this gas limit: for a successful estimate [e]
    with [0 <= e < 2^50], [int(e * 1.20)], which is the floor of [6e/5] (the
    double product cut toward zero, not its ceiling); and the fixed 300000
    when the estimation raises. *)
Theorem C5_gas_limit_of_deposit :
  forall (w : World) (self : module) (s : module_state) (bridge_address : json)
         (bridge : string) (chain commitment value price nonce : Z),
    to_checksum_address w bridge_address = Returns bridge ->
    gas_price w (trace s) = Returns price ->
    get_transaction_count w
      (trace s ++ [GasPrice; EstimateGas bridge (account_address self) commitment value])
      (account_address self) = Returns nonce ->
    let estimate :=
      estimate_gas w (trace s ++ [GasPrice]) bridge (account_address self) commitment value in
    let sent gas :=
      trace (snd (_send_native_deposit w self bridge_address chain commitment value s))
      = trace s ++ [GasPrice;
                    EstimateGas bridge (account_address self) commitment value;
                    GetTransactionCount (account_address self);
                    SendTransaction (mkTx bridge (account_address self) commitment value
                                          nonce chain gas price)] in
    (forall e, estimate = Returns e -> 0 <= e < 2 ^ 50 -> sent (6 * e / 5)) /\
    (forall x, estimate = Raises x -> sent fallback_gas_limit).
Proof.
  intros w self s bridge_address bridge chain commitment value price nonce
         Hb Hp Hn estimate sent.
  assert (Hrun : forall gas,
             (exists e, estimate = Returns e /\ gas_limit_of_estimate e = Some gas) \/
             (exists x, estimate = Raises x /\ gas = fallback_gas_limit) ->
             sent gas).
  { intros gas Hgas. unfold sent, _send_native_deposit, _estimate_gas_native_deposit.
    unfold bind, local, perform, try_except. rewrite Hb. cbn [trace]. rewrite Hp.
    fold estimate.
    destruct Hgas as [(e & -> & Hl)|(x & -> & ->)].
    - rewrite Hl. cbn [of_option ret trace snd].
      rewrite <- !app_assoc. cbn [app]. rewrite Hn. cbn [snd trace].
      rewrite <- !app_assoc. reflexivity.
    - cbn [ret trace snd].
      rewrite <- !app_assoc. cbn [app]. rewrite Hn. cbn [snd trace].
      rewrite <- !app_assoc. reflexivity. }
  split.
  - intros e He Hr. apply Hrun. left. exists e. split; [exact He|].
    now apply FloatFacts.gas_limit_floor.
  - intros x Hx. apply Hrun. right. exists x. auto.
Qed.

Lemma C5_witness :
  trace (snd (_send_native_deposit Sample.good Sample.self (JStr "0xB2") 204 42 1000
                initial_state))
  = [GasPrice; EstimateGas "0xB2" "0xA1" 42 1000; GetTransactionCount "0xA1";
     SendTransaction (mkTx "0xB2" "0xA1" 42 1000 7 204 25201 5000000000)].
Proof.
  apply (proj1 (C5_gas_limit_of_deposit Sample.good Sample.self initial_state
                  (JStr "0xB2") "0xB2" 204 42 1000 5000000000 7
                  eq_refl eq_refl eq_refl) 21001).
  - reflexivity.
  - split; [discriminate | reflexivity].
Defined.

(** C5 as stated fails for the estimate 21001: the gas limit of the deposit
    is 25201, while [ceil(21001 * 1.20)] is 25202. *)
Lemma C5_counterexample :
  gas_limit_of_estimate 21001 = Some 25201 /\
  ceil_div (21001 * 120) 100 = 25202 /\
  gas_limit_of_estimate 21001 <> Some (ceil_div (21001 * 120) 100) /\
  In (SendTransaction (mkTx "0xB2" "0xA1" 42 998125000000000000 7 204 25201 5000000000))
     (trace (snd (process_swap Sample.good Sample.self None initial_state))).
Proof.
  split; [reflexivity|]. split; [reflexivity|]. split; [vm_compute; discriminate|].
  vm_compute. repeat (first [left; reflexivity | right]).
Qed.

(* ===================================================================== *)
(** * Runs of the module, step by step *)
(* ===================================================================== *)

Local Open Scope string_scope.
Local Open Scope Z_scope.
Local Open Scope list_scope.

Module RunFacts.
Import Calls CallFacts.

Lemma bind_returns {A B} (m : M A) (k : A -> M B) (s s' : module_state) (b : B) :
  bind m k s = (Returns b, s') ->
  exists a s1, m s = (Returns a, s1) /\ k a s1 = (Returns b, s').
Proof.
  unfold bind. destruct (m s) as [[a|e] s1]; [eauto | discriminate].
Qed.

Lemma bind_raises {A B} (m : M A) (k : A -> M B) (s s' : module_state) (e : exn) :
  bind m k s = (Raises e, s') ->
  m s = (Raises e, s') \/ exists a s1, m s = (Returns a, s1) /\ k a s1 = (Raises e, s').
Proof.
  unfold bind. destruct (m s) as [[a|e0] s1]; [eauto|].
  intros H. inversion H; subst. left. reflexivity.
Qed.

(** Running [m] again from the state it left gives the same: then a
    sequence that starts with [m] may as well start from that state. *)
Lemma bind_rerun {A B} (m : M A) (k : A -> M B) (s s1 : module_state) (a : A) :
  m s = (Returns a, s1) -> m s1 = (Returns a, s1) -> bind m k s = bind m k s1.
Proof. unfold bind. intros -> ->. reflexivity. Qed.

Lemma as_dict_returns (v : json) (d : list (string * json)) (s s' : module_state) :
  as_dict v s = (Returns d, s') -> v = JDict d /\ s' = s.
Proof. destruct v; cbn; intros H; inversion H; auto. Qed.

Lemma of_option_state {A} (o : option A) (f : fault) (s : module_state) :
  snd (of_option o f s) = s.
Proof. destruct o; reflexivity. Qed.

(** ** What leaves the caches alone *)

Lemma keeps_pure {A} (m : M A) :
  (forall s, snd (m s) = s) -> keeps_caches m.
Proof. intros H s. now rewrite H. Qed.

Lemma keeps_perform {A} (c : call) (answer : list call -> outcome A) :
  keeps_caches (perform c answer).
Proof. intros s. split; reflexivity. Qed.

Lemma keeps_bind {A B} (m : M A) (k : A -> M B) :
  keeps_caches m -> (forall a, keeps_caches (k a)) -> keeps_caches (bind m k).
Proof.
  unfold keeps_caches, bind. intros Hm Hk s. specialize (Hm s).
  destruct (m s) as [[a|e] s1]; cbn [snd] in *; [|exact Hm].
  specialize (Hk a s1). destruct Hm as [<- <-]. exact Hk.
Qed.

Lemma keeps_try {A} (m : M A) (h : exn -> M A) :
  keeps_caches m -> (forall e, keeps_caches (h e)) -> keeps_caches (try_except m h).
Proof.
  unfold keeps_caches, try_except. intros Hm Hh s. specialize (Hm s).
  destruct (m s) as [[a|e] s1]; cbn [snd] in *; [exact Hm|].
  specialize (Hh e s1). destruct Hm as [<- <-]. exact Hh.
Qed.

Lemma keeps_of_option {A} (o : option A) (f : fault) : keeps_caches (of_option o f).
Proof. apply keeps_pure. intros s. apply of_option_state. Qed.

Lemma keeps_as_dict (v : json) : keeps_caches (as_dict v).
Proof. apply keeps_pure. intros s. destruct v; reflexivity. Qed.

Lemma keeps_set_client (b : bool) : keeps_caches (set_client b).
Proof. intros s. split; reflexivity. Qed.

Lemma keeps_http (w : World) (method path : string) (json_body jwt : option json) :
  keeps_caches (_http w method path json_body jwt).
Proof.
  unfold _http.
  apply keeps_bind; [apply keeps_set_client | intros _].
  apply keeps_bind; [apply keeps_perform | intros r].
  destruct (response_json r); [|apply keeps_pure; reflexivity].
  destruct (400 <=? status_code r); apply keeps_pure; reflexivity.
Qed.

Ltac keeps_step :=
  first [ apply keeps_http
        | apply keeps_perform
        | apply keeps_of_option
        | apply keeps_as_dict
        | apply keeps_pure; reflexivity
        | apply keeps_bind; [ | intros ? ]
        | apply keeps_try; [ | intros ? ]
        | match goal with
          | |- keeps_caches (match ?x with _ => _ end) => destruct x
          end
        | progress cbv zeta ].

Lemma keeps_send_native_deposit (w : World) (self : module) (bridge_address : json)
    (chain commitment value : Z) :
  keeps_caches (_send_native_deposit w self bridge_address chain commitment value).
Proof.
  unfold _send_native_deposit, _estimate_gas_native_deposit. repeat keeps_step.
Qed.

Lemma keeps_resolve_amount (w : World) (self : module) (amount : option PyFloat.float) :
  keeps_caches (resolve_amount w self amount).
Proof.
  unfold resolve_amount, _calc_max_send_wei, _get_native_balance_wei. repeat keeps_step.
Qed.

Lemma keeps_quote_commit_deposit (w : World) (self : module) (r : route)
    (amount_str : string) :
  keeps_caches (quote_commit_deposit w self r amount_str).
Proof.
  unfold quote_commit_deposit.
  repeat first [ apply keeps_send_native_deposit | keeps_step ].
Qed.

(** ** [_http] *)

Section Http.

Variable w : World.
Variables method path : string.
Variables json_body jwt : option json.

Lemma http_state (s : module_state) :
  snd (_http w method path json_body jwt s)
  = after_request s (HttpRequest method path json_body (cached jwt)).
Proof.
  unfold _http, bind, set_client, perform, after_request, cached; cbn [trace _jwt _configs _client].
  destruct (http_request w _ _ _ _ _) as [r|e]; cbn [snd]; [|reflexivity].
  destruct (response_json r); [|reflexivity].
  destruct (400 <=? status_code r); reflexivity.
Qed.

Lemma http_returns (s s' : module_state) (data : json) :
  _http w method path json_body jwt s = (Returns data, s') ->
  s' = after_request s (HttpRequest method path json_body (cached jwt)) /\
  exists r, http_request w (trace s) method path json_body (cached jwt) = Returns r /\
            response_json r = Some data /\ status_code r < 400.
Proof.
  intros H. split; [rewrite <- (http_state s), H; reflexivity|].
  revert H. unfold _http, bind, set_client, perform, cached; cbn [trace _jwt _configs _client].
  destruct (http_request w _ _ _ _ _) as [r|e]; [|discriminate].
  destruct (response_json r) as [d|] eqn:Hj; [|discriminate].
  destruct (Z.leb_spec 400 (status_code r)) as [Hge|Hlt]; [discriminate|].
  cbn [ret]. intros H. inversion H; subst. eauto.
Qed.

End Http.

(** ** The token and the configs *)

Lemma cached_some (v : option json) (j : json) :
  cached v = Some j -> v = Some j /\ Json.truthy j = true.
Proof.
  unfold cached. destruct v as [x|]; [|discriminate].
  destruct (Json.truthy x) eqn:E; [|discriminate].
  intros H; inversion H; subst. auto.
Qed.

Lemma cached_truthy (j : json) : Json.truthy j = true -> cached (Some j) = Some j.
Proof. unfold cached. now intros ->. Qed.

Lemma cached_falsy (j : json) : Json.truthy j = false -> cached (Some j) = None.
Proof. unfold cached. now intros ->. Qed.

Section Setup.

Variable w : World.
Variable self : module.

Lemma get_jwt_cached (s : module_state) (j : json) :
  cached (_jwt s) = Some j -> _get_jwt w self s = (Returns j, s).
Proof. unfold _get_jwt, bind, read. now intros ->. Qed.

Lemma get_jwt_fetch_trace (s : module_state) :
  cached (_jwt s) = None ->
  trace (snd (_get_jwt w self s)) = trace s ++ [auth_request self].
Proof.
  intros Hc. unfold _get_jwt, bind, read. rewrite Hc.
  pose proof (http_state w "POST" auth_path
                (Some (JDict [("apiKey", JStr (api_key self))])) None s) as Hs.
  destruct (_http w "POST" auth_path _ None s) as [[data|e] s1]; cbn [snd] in *; subst s1;
    [|reflexivity].
  destruct data; try reflexivity. cbn [as_dict ret].
  destruct (negb (Json.truthy (first_truthy jwt_fields d))); reflexivity.
Qed.

Lemma get_jwt_returns (s s' : module_state) (j : json) :
  _get_jwt w self s = (Returns j, s') ->
  Json.truthy j = true /\ _jwt s' = Some j /\ _configs s' = _configs s /\
  (s' = s \/ (cached (_jwt s) = None /\ trace s' = trace s ++ [auth_request self])).
Proof.
  intros H.
  destruct (cached (_jwt s)) as [j0|] eqn:Hc.
  - rewrite (get_jwt_cached s j0 Hc) in H. inversion H; subst.
    destruct (cached_some _ _ Hc) as [Hj Ht]. auto.
  - pose proof (get_jwt_fetch_trace s Hc) as Htr. rewrite H in Htr. cbn [snd] in Htr.
    revert H. unfold _get_jwt, bind, read. rewrite Hc.
    pose proof (http_state w "POST" auth_path
                  (Some (JDict [("apiKey", JStr (api_key self))])) None s) as Hs.
    destruct (_http w "POST" auth_path _ None s) as [[data|e] s1]; cbn [snd] in *; subst s1;
      [|discriminate].
    destruct data; try discriminate. cbn [as_dict ret].
    destruct (Json.truthy (first_truthy jwt_fields d)) eqn:Ht; cbn [negb]; [|discriminate].
    unfold set_jwt, ret, after_request; cbn [_client _jwt _configs trace].
    intros H. injection H as Hj Hs'. subst j s'. cbn [_jwt _configs trace] in *.
    split; [exact Ht|]. auto.
Qed.

(** Once the token is there, asking again costs nothing. *)
Lemma get_jwt_again (s s' : module_state) (j : json) :
  _get_jwt w self s = (Returns j, s') -> _get_jwt w self s' = (Returns j, s').
Proof.
  intros H. destruct (get_jwt_returns _ _ _ H) as (Ht & Hj & _).
  apply get_jwt_cached. rewrite Hj. now apply cached_truthy.
Qed.

Lemma get_configs_cached (s : module_state) (c : json) :
  cached (_configs s) = Some c -> _get_configs w s = (Returns c, s).
Proof. unfold _get_configs, bind, read. now intros ->. Qed.

Lemma get_configs_fetch_trace (s : module_state) :
  cached (_configs s) = None ->
  trace (snd (_get_configs w s)) = trace s ++ [configs_request].
Proof.
  intros Hc. unfold _get_configs, bind, read. rewrite Hc.
  pose proof (http_state w "GET" configs_path None None s) as Hs.
  destruct (_http w "GET" configs_path None None s) as [[data|e] s1]; cbn [snd] in *; subst s1;
    reflexivity.
Qed.

Lemma get_configs_returns (s s' : module_state) (c : json) :
  _get_configs w s = (Returns c, s') ->
  _configs s' = Some c /\ _jwt s' = _jwt s /\
  (s' = s \/ (cached (_configs s) = None /\ trace s' = trace s ++ [configs_request])).
Proof.
  intros H.
  destruct (cached (_configs s)) as [c0|] eqn:Hc.
  - rewrite (get_configs_cached s c0 Hc) in H. inversion H; subst.
    destruct (cached_some _ _ Hc) as [Hj Ht]. auto.
  - pose proof (get_configs_fetch_trace s Hc) as Htr. rewrite H in Htr. cbn [snd] in Htr.
    revert H. unfold _get_configs, bind, read. rewrite Hc.
    pose proof (http_state w "GET" configs_path None None s) as Hs.
    destruct (_http w "GET" configs_path None None s) as [[data|e] s1]; cbn [snd] in *; subst s1;
      [|discriminate].
    unfold set_configs, ret, after_request; cbn [_client _jwt _configs trace].
    intros H. inversion H; subst. cbn [_jwt _configs]. auto.
Qed.

End Setup.

End RunFacts.

(* ===================================================================== *)
(** * Requests, the token and the configs *)
(* ===================================================================== *)

Local Open Scope string_scope.
Local Open Scope Z_scope.
Local Open Scope list_scope.

(** X1. For a token that is absent, falsy or a [str], and whatever comes
    back, a call of [_http] makes exactly one call of the client's
    [request], with the method, path and body it was given and with the
    authorization header only when the token is truthy; it leaves the
    client open and does not touch the cached token and configs.  It
    returns a body only when that call gave a response that is JSON and
    whose status is below 400: the body of an error response is never
    returned as data. *)
Theorem X1_http_one_client_call_no_error_body :
  forall (w : World) (method path : string) (json_body jwt : option json)
         (s : module_state),
    header_token jwt = true ->
    snd (_http w method path json_body jwt s)
    = mkState true (_jwt s) (_configs s)
        (trace s ++ [HttpRequest method path json_body (cached jwt)]) /\
    (forall data,
        fst (_http w method path json_body jwt s) = Returns data ->
        exists r,
          http_request w (trace s) method path json_body (cached jwt) = Returns r /\
          response_json r = Some data /\ status_code r < 400).
Proof.
  intros w method path json_body jwt s _. split.
  - apply RunFacts.http_state.
  - intros data H.
    destruct (_http w method path json_body jwt s) as [r s'] eqn:E. cbn [fst] in H. subst r.
    exact (proj2 (RunFacts.http_returns w method path json_body jwt s s' data E)).
Qed.

Lemma X1_witness :
  snd (_http Sample.good "POST" quote_path None (Some (JStr "jwt-1")) initial_state)
  = mkState true None None [HttpRequest "POST" quote_path None (Some (JStr "jwt-1"))] /\
  (forall data,
      fst (_http Sample.good "POST" quote_path None (Some (JStr "jwt-1")) initial_state)
      = Returns data ->
      exists r,
        http_request Sample.good [] "POST" quote_path None (Some (JStr "jwt-1"))
        = Returns r /\
        response_json r = Some data /\ status_code r < 400).
Proof.
  apply (X1_http_one_client_call_no_error_body Sample.good "POST" quote_path None
           (Some (JStr "jwt-1")) initial_state).
  reflexivity.
Defined.

(** X2. A token returned by [_get_jwt] is truthy and is kept: asked again
    in the state it left, [_get_jwt] returns the same token and changes
    nothing, so no second authentication request is sent. *)
Theorem X2_get_jwt_is_cached :
  forall (w : World) (self : module) (s s1 : module_state) (j : json),
    _get_jwt w self s = (Returns j, s1) ->
    Json.truthy j = true /\
    _jwt s1 = Some j /\
    _get_jwt w self s1 = (Returns j, s1).
Proof.
  intros w self s s1 j H.
  destruct (RunFacts.get_jwt_returns w self s s1 j H) as (Ht & Hj & _).
  repeat split; auto. exact (RunFacts.get_jwt_again w self s s1 j H).
Qed.

Lemma X2_witness :
  Json.truthy (JStr "jwt-1") = true /\
  _jwt (snd (_get_jwt Sample.good Sample.self initial_state)) = Some (JStr "jwt-1") /\
  _get_jwt Sample.good Sample.self (snd (_get_jwt Sample.good Sample.self initial_state))
  = (Returns (JStr "jwt-1"), snd (_get_jwt Sample.good Sample.self initial_state)).
Proof.
  apply (X2_get_jwt_is_cached Sample.good Sample.self initial_state).
  reflexivity.
Defined.

(** X3. The configs returned by [_get_configs] are stored, but they count
    as cached only when truthy: truthy configs are returned again without a
    request, while an empty answer (such as [{}]) is fetched again by the
    next call. *)
Theorem X3_get_configs_caches_truthy_only :
  forall (w : World) (s s1 : module_state) (c : json),
    _get_configs w s = (Returns c, s1) ->
    _configs s1 = Some c /\
    (Json.truthy c = true -> _get_configs w s1 = (Returns c, s1)) /\
    (Json.truthy c = false ->
     trace (snd (_get_configs w s1)) = trace s1 ++ [HttpRequest "GET" configs_path None None]).
Proof.
  intros w s s1 c H.
  destruct (RunFacts.get_configs_returns w s s1 c H) as (Hc & _).
  split; [exact Hc|]. split; intros Ht.
  - apply RunFacts.get_configs_cached. rewrite Hc. now apply RunFacts.cached_truthy.
  - apply RunFacts.get_configs_fetch_trace. rewrite Hc. now apply RunFacts.cached_falsy.
Qed.

Lemma X3_witness :
  _configs (snd (_get_configs Sample.good initial_state)) = Some Sample.configs_ok /\
  (Json.truthy Sample.configs_ok = true ->
   _get_configs Sample.good (snd (_get_configs Sample.good initial_state))
   = (Returns Sample.configs_ok, snd (_get_configs Sample.good initial_state))) /\
  (Json.truthy Sample.configs_ok = false ->
   trace (snd (_get_configs Sample.good (snd (_get_configs Sample.good initial_state))))
   = trace (snd (_get_configs Sample.good initial_state))
     ++ [HttpRequest "GET" configs_path None None]).
Proof.
  apply (X3_get_configs_caches_truthy_only Sample.good initial_state).
  reflexivity.
Defined.

(* ===================================================================== *)
(** * The workflow as a whole: what comes first, what comes last *)
(* ===================================================================== *)

Local Open Scope string_scope.
Local Open Scope Z_scope.
Local Open Scope list_scope.

Module WorkflowRun.
Import Calls CallFacts RunFacts.

Section With_world.

Variable w : World.
Variable self : module.

(** Every call of the workflow satisfies what every call satisfies. *)
Lemma emits_process_swap (P : call -> Prop) (amount : option PyFloat.float) :
  (forall c, P c) -> emits P (process_swap w self amount).
Proof.
  intros HP s. unfold process_swap.
  apply emits_from_try; [|intros; apply emits_from_pure; reflexivity].
  apply emits_from_bind; [|intros; apply emits_from_pure; reflexivity].
  unfold process_swap_body.
  apply emits_from_bind; [apply emits_load_route; intros; apply HP | intros r s1 _].
  apply emits_from_bind;
    [apply DepositFacts.emits_resolve_amount; intros; apply HP | intros a s2 _].
  apply DepositFacts.emits_quote_commit_deposit; intros; apply HP.
Qed.

Lemma process_swap_grows (amount : option PyFloat.float) (s : module_state) :
  exists ext, trace (snd (process_swap w self amount s)) = trace s ++ ext.
Proof.
  destruct (emits_process_swap (fun _ => True) amount (fun _ => I) s) as (ext & H & _).
  eauto.
Qed.

(** [process_swap] in terms of its body. *)
Lemma process_swap_of_body (amount : option PyFloat.float) (s : module_state) :
  process_swap w self amount s
  = (match fst (process_swap_body w self amount s) with
     | Returns h => Returns (true, h)
     | Raises e => Returns (false, str_exn w e)
     end,
     snd (process_swap_body w self amount s)).
Proof.
  unfold process_swap, try_except, bind.
  destruct (process_swap_body w self amount s) as [[h|e] s']; reflexivity.
Qed.

(** ** Ending in the deposit *)

Lemma ends_raise (s : module_state) (e : exn) :
  ends_in_deposit w s (raise e).
Proof.
  exists []. split; [constructor|]. left. exists e. cbn. now rewrite app_nil_r.
Qed.

Lemma ends_send (s : module_state) (tx : deposit_tx) :
  ends_in_deposit w s (perform (SendTransaction tx) (fun h => send_raw_transaction w h tx)).
Proof.
  exists []. split; [constructor|]. right. exists tx. cbn. now rewrite app_nil_r.
Qed.

Lemma ends_bind {A} (s : module_state) (m : M A) (k : A -> M string) :
  emits_from (fun c => is_send c = false) s m ->
  (forall a s1, m s = (Returns a, s1) -> ends_in_deposit w s1 (k a)) ->
  ends_in_deposit w s (bind m k).
Proof.
  unfold emits_from, appends, ends_in_deposit, bind. intros (ext & Ht & HF) Hk.
  destruct (m s) as [[a|e] s1] eqn:E; cbn [fst snd] in *.
  - destruct (Hk a s1 eq_refl) as (pre & Hpre & Hcase).
    exists (ext ++ pre). split; [now apply Forall_app|].
    destruct Hcase as [(e & He & Htr)|(tx & Htr & Hans)].
    + left. exists e. split; [exact He|]. rewrite Htr, Ht. now rewrite app_assoc.
    + right. exists tx. split.
      * rewrite Htr, Ht. now rewrite <- !app_assoc.
      * rewrite Hans, Ht. now rewrite app_assoc.
  - exists ext. split; [exact HF|]. left. exists e. auto.
Qed.

Ltac no_send_step :=
  first [ apply emits_from_pure; reflexivity
        | now apply emits_http
        | apply emits_from_perform; reflexivity
        | apply emits_from_bind; [ | intros ? ? ? ]
        | apply emits_from_try; [ | intros ? ? ? ]
        | match goal with
          | |- emits_from _ _ (match ?x with _ => _ end) => destruct x eqn:?
          | |- emits_from _ _ (of_option ?x _) => destruct x eqn:?
          | |- emits_from _ _ (as_dict ?x) => destruct x eqn:?
          end
        | progress cbv zeta ].

Ltac ends_step :=
  first [ apply ends_raise
        | apply ends_send
        | apply ends_bind; [ repeat no_send_step | intros ? ? ? ]
        | match goal with
          | |- ends_in_deposit _ _ (match ?x with _ => _ end) => destruct x eqn:?
          | |- ends_in_deposit _ _ (if ?x then _ else _) => destruct x eqn:?
          end
        | progress cbv zeta ].

Lemma ends_send_native_deposit (bridge_address : json) (chain commitment value : Z)
    (s : module_state) :
  ends_in_deposit w s (_send_native_deposit w self bridge_address chain commitment value).
Proof.
  unfold _send_native_deposit, _estimate_gas_native_deposit.
  repeat ends_step.
Qed.

Lemma ends_quote_commit_deposit (r : route) (amount_str : string) (s : module_state) :
  ends_in_deposit w s (quote_commit_deposit w self r amount_str).
Proof.
  unfold quote_commit_deposit.
  repeat first [ apply ends_send_native_deposit | ends_step ].
Qed.

Lemma ends_process_swap_body (amount : option PyFloat.float) (s : module_state) :
  ends_in_deposit w s (process_swap_body w self amount).
Proof.
  unfold process_swap_body.
  apply ends_bind; [apply emits_load_route; intros; reflexivity | intros r s1 _].
  apply ends_bind;
    [apply DepositFacts.emits_resolve_amount; intros; reflexivity | intros a s2 _].
  apply ends_quote_commit_deposit.
Qed.

End With_world.

End WorkflowRun.

(** X5. A workflow that holds no token starts with the authentication
    request: whatever the amount asked for and however the run ends, the
    first call it makes is the POST of the API key to the authentication
    endpoint, without an authorization header. *)
Theorem X5_authentication_comes_first :
  forall (w : World) (self : module) (amount : option PyFloat.float) (s : module_state),
    cached (_jwt s) = None ->
    exists rest,
      trace (snd (process_swap w self amount s))
      = trace s
        ++ HttpRequest "POST" auth_path (Some (JDict [("apiKey", JStr (api_key self))])) None
           :: rest.
Proof.
  intros w self amount s Hc.
  pose proof (RunFacts.get_jwt_fetch_trace w self s Hc) as Hfetch.
  destruct (_get_jwt w self s) as [[j|e] s1] eqn:E; cbn [snd] in Hfetch.
  - pose proof (RunFacts.get_jwt_again w self s s1 j E) as E1.
    assert (Hsame : process_swap w self amount s = process_swap w self amount s1).
    { unfold process_swap, try_except, process_swap_body, load_route, bind.
      now rewrite E, E1. }
    destruct (WorkflowRun.process_swap_grows w self amount s1) as [ext Hext].
    exists ext. rewrite Hsame, Hext, Hfetch. now rewrite <- app_assoc.
  - exists []. unfold process_swap, try_except, process_swap_body, load_route, bind.
    rewrite E. exact Hfetch.
Qed.

Lemma X5_witness :
  exists rest,
    trace (snd (process_swap Sample.good Sample.self None initial_state))
    = trace initial_state
      ++ HttpRequest "POST" auth_path (Some (JDict [("apiKey", JStr "api-key")])) None
         :: rest.
Proof.
  apply (X5_authentication_comes_first Sample.good Sample.self None initial_state).
  reflexivity.
Defined.

(** X6. A run of [process_swap] hands at most one deposit to the node, and
    nothing follows it: the calls made are calls other than a deposit and
    then, possibly, one deposit.  The run reports success exactly when that
    deposit was made and the node accepted it, and the result is then the
    hash the node returned; when the node refuses it, or when no deposit is
    made, the run reports failure. *)
Theorem X6_one_deposit_last_success_iff_accepted :
  forall (w : World) (self : module) (amount : option PyFloat.float) (s : module_state),
    exists pre,
      Forall (fun c => is_send c = false) pre /\
      ((trace (snd (process_swap w self amount s)) = trace s ++ pre /\
        exists msg, fst (process_swap w self amount s) = Returns (false, msg)) \/
       (exists tx,
          trace (snd (process_swap w self amount s))
          = trace s ++ pre ++ [SendTransaction tx] /\
          fst (process_swap w self amount s)
          = match send_raw_transaction w (trace s ++ pre) tx with
            | Returns h => Returns (true, h)
            | Raises e => Returns (false, str_exn w e)
            end)).
Proof.
  intros w self amount s.
  destruct (WorkflowRun.ends_process_swap_body w self amount s) as (pre & Hpre & Hcase).
  exists pre. split; [exact Hpre|].
  rewrite (WorkflowRun.process_swap_of_body w self amount s). cbn [fst snd].
  destruct Hcase as [(e & He & Htr)|(tx & Htr & Hans)].
  - left. split; [exact Htr|]. rewrite He. eauto.
  - right. exists tx. split; [exact Htr|]. now rewrite Hans.
Qed.

(* ===================================================================== *)
(** * The route: what the configs must say before anything is quoted *)
(* ===================================================================== *)

Local Open Scope string_scope.
Local Open Scope Z_scope.
Local Open Scope list_scope.

Module RouteFacts.
Import Calls CallFacts RunFacts.

Lemma has_key_lookup (k : string) (d : list (string * json)) :
  Json.has_key k d = true -> exists v, Json.lookup k d = Some v /\ Json.get k d = v.
Proof.
  unfold Json.has_key, Json.get. destruct (Json.lookup k d) as [v|]; [eauto | discriminate].
Qed.

Section With_world.

Variable w : World.
Variable self : module.

(** What [load_route] has checked when it returns. *)
Lemma load_route_returns (s s' : module_state) (r : route) :
  load_route w self s = (Returns r, s') ->
  exists cfg chain_cfg,
    Json.truthy (route_jwt r) = true /\
    _jwt s' = Some (route_jwt r) /\
    _configs s' = Some (JDict cfg) /\
    Json.lookup CHAIN_IN cfg = Some (JDict chain_cfg) /\
    route_bridge_address r = Json.get "contractAddress" chain_cfg /\
    Json.truthy (Json.get "contractAddress" chain_cfg) = true /\
    (Json.truthy (Json.get "nativeTokenName" chain_cfg) = false \/
     Json.get "nativeTokenName" chain_cfg = JStr TOKEN_IN) /\
    (if Json.truthy (Json.get "chainId" chain_cfg)
     then route_chain_id r = Json.get "chainId" chain_cfg
     else exists n h, chain_id w h = Returns n /\ route_chain_id r = JInt n /\
                      trace s' = h ++ [ChainId]).
Proof.
  unfold load_route. intros H.
  apply bind_returns in H as (jwt & s1 & Hjwt & H).
  apply bind_returns in H as (configs & s2 & Hcfg & H).
  apply bind_returns in H as (cfg & s3 & Hd & H).
  apply as_dict_returns in Hd as [-> ->].
  destruct (get_jwt_returns w self _ _ _ Hjwt) as (Htruthy & Hj1 & _).
  destruct (get_configs_returns w _ _ _ Hcfg) as (Hc2 & Hj2 & _).
  destruct (Json.has_key CHAIN_IN cfg) eqn:Hkey; cbn [negb] in H; [|discriminate].
  destruct (has_key_lookup _ _ Hkey) as (v & Hlook & Hget).
  apply bind_returns in H as (chain_cfg & s4 & Hd & H).
  apply as_dict_returns in Hd as [Hv ->]. rewrite Hget in Hv. subst v.
  apply bind_returns in H as (chain & s5 & Hchain & H).
  destruct (Json.truthy (Json.get "contractAddress" chain_cfg)) eqn:Haddr; cbn [negb] in H;
    [|discriminate].
  exists cfg, chain_cfg.
  destruct (Json.truthy (Json.get "nativeTokenName" chain_cfg)) eqn:Hname; cbn [andb] in H.
  - destruct (Json.get "nativeTokenName" chain_cfg) as [| | | |name| |] eqn:Hn;
      cbn [negb] in H; try discriminate.
    destruct (String.eqb_spec TOKEN_IN name) as [<-|Hne]; cbn [negb] in H; [|discriminate].
    injection H as <- <-. cbn [route_jwt route_chain_id route_bridge_address].
    destruct (Json.truthy (Json.get "chainId" chain_cfg)) eqn:Hid.
    + injection Hchain as <- <-. repeat split; auto; congruence.
    + apply bind_returns in Hchain as (n & s6 & Hperf & Hret).
      injection Hret as <- <-.
      unfold perform in Hperf. injection Hperf as Hans <-. cbn [_jwt _configs trace].
      repeat split; auto; try congruence. exists n, (trace s2). auto.
  - injection H as <- <-. cbn [route_jwt route_chain_id route_bridge_address].
    destruct (Json.truthy (Json.get "chainId" chain_cfg)) eqn:Hid.
    + injection Hchain as <- <-. repeat split; auto; congruence.
    + apply bind_returns in Hchain as (n & s6 & Hperf & Hret).
      injection Hret as <- <-.
      unfold perform in Hperf. injection Hperf as Hans <-. cbn [_jwt _configs trace].
      repeat split; auto; try congruence. exists n, (trace s2). auto.
Qed.

(** A failure of [load_route] is the failure of [process_swap]. *)
Lemma load_route_raises (amount : option PyFloat.float) (s s' : module_state) (e : exn) :
  load_route w self s = (Raises e, s') ->
  process_swap w self amount s = (Returns (false, str_exn w e), s').
Proof.
  intros H. unfold process_swap, try_except, process_swap_body, bind. now rewrite H.
Qed.

(** While [load_route] runs, and if it fails, only route calls are made. *)
Lemma load_route_raises_calls (amount : option PyFloat.float) (s s' : module_state)
    (e : exn) :
  load_route w self s = (Raises e, s') ->
  exists ext, trace (snd (process_swap w self amount s)) = trace s ++ ext /\
              Forall (fun c => is_route_call c = true) ext.
Proof.
  intros H. rewrite (load_route_raises amount s s' e H). cbn [snd].
  pose proof (route_calls w self s) as Hr. unfold emits_from in Hr.
  rewrite H in Hr. exact Hr.
Qed.

(** [load_route] once the token and the configs are there and the configs
    list the source chain: the chain id is resolved, then the entry is
    checked. *)
Lemma load_route_entry (s s1 s2 : module_state) (jwt : json)
    (cfg chain_cfg : list (string * json)) :
  _get_jwt w self s = (Returns jwt, s1) ->
  _get_configs w s1 = (Returns (JDict cfg), s2) ->
  Json.lookup CHAIN_IN cfg = Some (JDict chain_cfg) ->
  (Json.truthy (Json.get "chainId" chain_cfg) = true \/
   exists n, chain_id w (trace s2) = Returns n) ->
  exists chain s3,
    load_route w self s
    = (let bridge_address := Json.get "contractAddress" chain_cfg in
       let native_token_name := Json.get "nativeTokenName" chain_cfg in
       if negb (Json.truthy bridge_address)
       then raise (RuntimeError ("Missing contractAddress for chain '" ++ CHAIN_IN
                                 ++ "' in rhino configs"))
       else if Json.truthy native_token_name
               && negb (match native_token_name with
                        | JStr s => String.eqb TOKEN_IN s
                        | _ => false
                        end)
       then raise (RuntimeError
                     ("tokenIn '" ++ TOKEN_IN ++ "' != nativeTokenName '"
                      ++ py_str w native_token_name ++ "' for chain '" ++ CHAIN_IN
                      ++ "'. This module expects native deposit."))
       else ret (mkRoute jwt chain bridge_address)) s3.
Proof.
  intros Hjwt Hcfg Hlook Hid.
  unfold load_route, bind. rewrite Hjwt, Hcfg. cbn [as_dict ret].
  unfold Json.has_key, Json.get at 1. rewrite Hlook. cbn [negb as_dict ret].
  destruct Hid as [Hid|(n & Hn)].
  - rewrite Hid. cbn [ret]. do 2 eexists. reflexivity.
  - destruct (Json.truthy (Json.get "chainId" chain_cfg)); cbn [ret];
      [do 2 eexists; reflexivity|].
    unfold perform. rewrite Hn. do 2 eexists. reflexivity.
Qed.

End With_world.

End RouteFacts.

(** X7. When the entry of the source chain in the configs has no contract
    address (or an empty one), the workflow fails with "Missing
    contractAddress for chain 'OPBNB' in rhino configs".  By then it has
    made the setup requests and, when the entry gives no chain id either,
    asked the node for it; nothing else: no balance is read, no quote is
    requested, no deposit is sent. *)
Theorem X7_missing_contract_address_stops_the_workflow :
  forall (w : World) (self : module) (amount : option PyFloat.float)
         (s s1 s2 : module_state) (jwt : json) (cfg chain_cfg : list (string * json)),
    _get_jwt w self s = (Returns jwt, s1) ->
    _get_configs w s1 = (Returns (JDict cfg), s2) ->
    Json.lookup CHAIN_IN cfg = Some (JDict chain_cfg) ->
    (Json.truthy (Json.get "chainId" chain_cfg) = true \/
     exists n, chain_id w (trace s2) = Returns n) ->
    Json.truthy (Json.get "contractAddress" chain_cfg) = false ->
    fst (process_swap w self amount s)
    = Returns (false, "Missing contractAddress for chain 'OPBNB' in rhino configs") /\
    exists ext,
      trace (snd (process_swap w self amount s)) = trace s ++ ext /\
      Forall (fun c => is_route_call c = true) ext.
Proof.
  intros w self amount s s1 s2 jwt cfg chain_cfg Hjwt Hcfg Hlook Hid Haddr.
  destruct (RouteFacts.load_route_entry w self s s1 s2 jwt cfg chain_cfg Hjwt Hcfg Hlook Hid)
    as (chain & s3 & Hload).
  cbv zeta in Hload. rewrite Haddr in Hload. cbn [negb raise] in Hload.
  split.
  - now rewrite (RouteFacts.load_route_raises w self amount s s3 _ Hload).
  - exact (RouteFacts.load_route_raises_calls w self amount s s3 _ Hload).
Qed.

Lemma X7_witness :
  fst (process_swap Cases.no_contract Sample.self None initial_state)
  = Returns (false, "Missing contractAddress for chain 'OPBNB' in rhino configs") /\
  exists ext,
    trace (snd (process_swap Cases.no_contract Sample.self None initial_state))
    = trace initial_state ++ ext /\
    Forall (fun c => is_route_call c = true) ext.
Proof.
  apply (X7_missing_contract_address_stops_the_workflow
           Cases.no_contract Sample.self None initial_state
           (snd (_get_jwt Cases.no_contract Sample.self initial_state))
           (snd (_get_configs Cases.no_contract
                   (snd (_get_jwt Cases.no_contract Sample.self initial_state))))
           (JStr "jwt-1")
           [("OPBNB", JDict [("chainId", JInt 204); ("nativeTokenName", JStr "BNB")])]
           [("chainId", JInt 204); ("nativeTokenName", JStr "BNB")]).
  - reflexivity.
  - reflexivity.
  - reflexivity.
  - left. reflexivity.
  - reflexivity.
Defined.

(** X8. When the entry of the source chain names a native token that is
    not exactly "BNB" (the comparison is case sensitive; a missing or empty
    name is let through), the workflow fails with the message that quotes
    the name found, having made route calls only: no quote is requested and
    no deposit is sent. *)
Theorem X8_foreign_native_token_stops_the_workflow :
  forall (w : World) (self : module) (amount : option PyFloat.float)
         (s s1 s2 : module_state) (jwt name : json) (cfg chain_cfg : list (string * json)),
    _get_jwt w self s = (Returns jwt, s1) ->
    _get_configs w s1 = (Returns (JDict cfg), s2) ->
    Json.lookup CHAIN_IN cfg = Some (JDict chain_cfg) ->
    (Json.truthy (Json.get "chainId" chain_cfg) = true \/
     exists n, chain_id w (trace s2) = Returns n) ->
    Json.truthy (Json.get "contractAddress" chain_cfg) = true ->
    Json.get "nativeTokenName" chain_cfg = name ->
    Json.truthy name = true ->
    name <> JStr "BNB" ->
    fst (process_swap w self amount s)
    = Returns (false,
               ("tokenIn 'BNB' != nativeTokenName '" ++ py_str w name
                ++ "' for chain 'OPBNB'. This module expects native deposit.")%string) /\
    exists ext,
      trace (snd (process_swap w self amount s)) = trace s ++ ext /\
      Forall (fun c => is_route_call c = true) ext.
Proof.
  intros w self amount s s1 s2 jwt name cfg chain_cfg Hjwt Hcfg Hlook Hid Haddr Hname Ht Hne.
  destruct (RouteFacts.load_route_entry w self s s1 s2 jwt cfg chain_cfg Hjwt Hcfg Hlook Hid)
    as (chain & s3 & Hload).
  cbv zeta in Hload. rewrite Haddr, Hname, Ht in Hload. cbn [negb andb] in Hload.
  assert (Hneq : negb (match name with
                       | JStr s => String.eqb TOKEN_IN s
                       | _ => false
                       end) = true).
  { destruct name; try reflexivity.
    destruct (String.eqb_spec TOKEN_IN s0) as [<-|]; [now elim Hne | reflexivity]. }
  rewrite Hneq in Hload. cbn [raise] in Hload.
  split.
  - now rewrite (RouteFacts.load_route_raises w self amount s s3 _ Hload).
  - exact (RouteFacts.load_route_raises_calls w self amount s s3 _ Hload).
Qed.

Lemma X8_witness :
  fst (process_swap Cases.other_token Sample.self None initial_state)
  = Returns (false,
             "tokenIn 'BNB' != nativeTokenName 'ETH' for chain 'OPBNB'. This module expects native deposit.") /\
  exists ext,
    trace (snd (process_swap Cases.other_token Sample.self None initial_state))
    = trace initial_state ++ ext /\
    Forall (fun c => is_route_call c = true) ext.
Proof.
  apply (X8_foreign_native_token_stops_the_workflow
           Cases.other_token Sample.self None initial_state
           (snd (_get_jwt Cases.other_token Sample.self initial_state))
           (snd (_get_configs Cases.other_token
                   (snd (_get_jwt Cases.other_token Sample.self initial_state))))
           (JStr "jwt-1") (JStr "ETH")
           [("OPBNB", JDict [("chainId", JInt 204);
                             ("contractAddress", JStr "0xB2");
                             ("nativeTokenName", JStr "ETH")])]
           [("chainId", JInt 204);
            ("contractAddress", JStr "0xB2");
            ("nativeTokenName", JStr "ETH")]).
  - reflexivity.
  - reflexivity.
  - reflexivity.
  - left. reflexivity.
  - reflexivity.
  - reflexivity.
  - reflexivity.
  - discriminate.
Defined.

(* ===================================================================== *)
(** * From the quote to the deposit, step by step *)
(* ===================================================================== *)

Local Open Scope string_scope.
Local Open Scope Z_scope.
Local Open Scope list_scope.

Module DepositRun.
Import Calls CallFacts RunFacts.

Section With_world.

Variable w : World.
Variable self : module.

(** [process_swap] once the route is loaded. *)
Lemma process_swap_after_route (amount : option PyFloat.float) (s s1 : module_state)
    (r : route) :
  load_route w self s = (Returns r, s1) ->
  process_swap w self amount s
  = (match fst (bind (resolve_amount w self amount)
                     (fun a => quote_commit_deposit w self r a) s1) with
     | Returns h => Returns (true, h)
     | Raises e => Returns (false, str_exn w e)
     end,
     snd (bind (resolve_amount w self amount)
               (fun a => quote_commit_deposit w self r a) s1)).
Proof.
  intros H. rewrite WorkflowRun.process_swap_of_body.
  unfold process_swap_body. unfold bind at 1 3. rewrite H. reflexivity.
Qed.

(** What the resolution of the amount reads. *)
Lemma resolve_amount_returns (amount : option PyFloat.float) (s s' : module_state)
    (a : string) :
  resolve_amount w self amount s = (Returns a, s') ->
  (amount <> None /\ s' = s) \/
  (amount = None /\
   s' = mkState (_client s) (_jwt s) (_configs s)
          (trace s ++ [GetBalance (account_address self); GasPrice])).
Proof.
  destruct amount as [x|]; cbn [resolve_amount].
  - destruct (PyFloat.le_zero x); cbn [raise ret]; [discriminate|].
    intros H; injection H as _ <-. left. split; [discriminate | reflexivity].
  - intros H. right. split; [reflexivity|]. revert H.
    unfold _calc_max_send_wei, _get_native_balance_wei, bind, perform.
    cbn [trace _client _jwt _configs].
    destruct (get_balance w (trace s) (account_address self)) as [b|]; [|discriminate].
    destruct (gas_price w (trace s ++ [GetBalance (account_address self)])) as [g|];
      [|discriminate].
    destruct (fee_buffer safety_mul_default g) as [fee|]; cbn [of_option ret raise];
      [|discriminate].
    destruct (max_send_of b fee <=? 0); cbn [raise]; [discriminate|].
    destruct (Web3.from_wei (max_send_of b fee)) as [d|]; cbn [of_option ret raise];
      [|discriminate].
    intros H; injection H as _ <-. now rewrite <- app_assoc.
Qed.

(** The gas limit of the deposit, from what the estimate call gave. *)
Lemma send_native_deposit_returns (bridge_address : json) (chain commitment value : Z)
    (s s' : module_state) (h : string) :
  _send_native_deposit w self bridge_address chain commitment value s = (Returns h, s') ->
  exists bridge price gas nonce,
    let acct := account_address self in
    let tx := mkTx bridge acct commitment value nonce chain gas price in
    to_checksum_address w bridge_address = Returns bridge /\
    gas_price w (trace s) = Returns price /\
    gas = match estimate_gas w (trace s ++ [GasPrice]) bridge acct commitment value with
          | Returns e => match gas_limit_of_estimate e with
                         | Some g => g
                         | None => fallback_gas_limit
                         end
          | Raises _ => fallback_gas_limit
          end /\
    get_transaction_count w
      (trace s ++ [GasPrice; EstimateGas bridge acct commitment value]) acct
    = Returns nonce /\
    send_raw_transaction w
      (trace s ++ [GasPrice; EstimateGas bridge acct commitment value;
                   GetTransactionCount acct]) tx
    = Returns h /\
    s' = mkState (_client s) (_jwt s) (_configs s)
           (trace s ++ [GasPrice; EstimateGas bridge acct commitment value;
                        GetTransactionCount acct; SendTransaction tx]).
Proof.
  unfold _send_native_deposit, _estimate_gas_native_deposit.
  unfold bind at 1. unfold local.
  destruct (to_checksum_address w bridge_address) as [bridge|]; [|discriminate].
  unfold bind at 1. unfold perform at 1.
  destruct (gas_price w (trace s)) as [price|]; [|discriminate].
  cbn [trace _client _jwt _configs].
  unfold bind at 1.
  set (s1 := mkState (_client s) (_jwt s) (_configs s) (trace s ++ [GasPrice])).
  assert (Hgas : exists gas,
             try_except
               (bind (perform (EstimateGas bridge (account_address self) commitment value)
                        (fun h => estimate_gas w h bridge (account_address self)
                                    commitment value))
                     (fun gas_est => of_option (gas_limit_of_estimate gas_est) FloatOverflow))
               (fun _ => ret fallback_gas_limit) s1
             = (Returns gas,
                mkState (_client s) (_jwt s) (_configs s)
                  (trace s ++ [GasPrice; EstimateGas bridge (account_address self)
                                           commitment value])) /\
             gas = match estimate_gas w (trace s ++ [GasPrice]) bridge
                           (account_address self) commitment value with
                   | Returns e => match gas_limit_of_estimate e with
                                  | Some g => g
                                  | None => fallback_gas_limit
                                  end
                   | Raises _ => fallback_gas_limit
                   end).
  { unfold try_except, bind, perform, s1. cbn [trace _client _jwt _configs].
    rewrite <- app_assoc. cbn [app].
    destruct (estimate_gas w (trace s ++ [GasPrice]) bridge (account_address self)
                commitment value) as [e|];
      [destruct (gas_limit_of_estimate e) as [g|]|]; cbn [of_option ret raise];
      eexists; split; reflexivity. }
  destruct Hgas as (gas & -> & Hgas).
  unfold bind at 1. unfold perform at 1. cbn [trace _client _jwt _configs].
  destruct (get_transaction_count w _ (account_address self)) as [nonce|] eqn:Hn;
    [|discriminate].
  unfold perform. cbn [trace _client _jwt _configs].
  rewrite <- !app_assoc. cbn [app].
  intros H. injection H as Hh <-.
  exists bridge, price, gas, nonce. cbv zeta. repeat split; auto.
Qed.

(** What [quote_commit_deposit] went through when it returns. *)
Lemma quote_commit_deposit_returns (r : route) (amount_str : string)
    (s s' : module_state) (h : string) :
  quote_commit_deposit w self r amount_str s = (Returns h, s') ->
  exists q c cid n d v chain s1 s2,
    _http w "POST" quote_path (Some (quote_payload self amount_str)) (Some (route_jwt r)) s
    = (Returns (JDict q), s1) /\
    Json.truthy (Json.get "quoteId" q) = true /\
    _http w "POST" (commit_path w (Json.get "quoteId" q)) None (Some (route_jwt r)) s1
    = (Returns (JDict c), s2) /\
    Json.get "quoteId" c = JStr cid /\
    _quote_id_to_commitment_int cid = Some n /\
    PyDecimal.of_string amount_str = Some d /\
    Web3.to_wei d = Some v /\
    int_of_json (route_chain_id r) = Some chain /\
    _send_native_deposit w self (route_bridge_address r) chain n v s2 = (Returns h, s').
Proof.
  unfold quote_commit_deposit. intros H.
  apply bind_returns in H as (quote & s1 & Hq & H).
  apply bind_returns in H as (q & s1' & Hd & H).
  apply as_dict_returns in Hd as [-> ->].
  destruct (Json.truthy (Json.get "quoteId" q)) eqn:Hqid; cbn [negb] in H; [|discriminate].
  apply bind_returns in H as (commit & s2 & Hc & H).
  apply bind_returns in H as (c & s2' & Hd & H).
  apply as_dict_returns in Hd as [-> ->].
  destruct (Json.truthy (Json.get "quoteId" c)) eqn:Hcid; cbn [negb] in H; [|discriminate].
  apply bind_returns in H as (cid & s3 & Hs & H).
  destruct (Json.get "quoteId" c) as [| | | |text| |] eqn:Hget; try discriminate.
  injection Hs as -> <-.
  apply bind_returns in H as (n & s4 & Hn & H).
  pose proof (of_option_state (_quote_id_to_commitment_int cid) (InvalidIntLiteral (JStr cid)) s2)
    as Hs4. rewrite Hn in Hs4. cbn [snd] in Hs4. subst s4.
  apply of_option_returns in Hn.
  apply bind_returns in H as (d & s4 & Hdec & H).
  pose proof (of_option_state (PyDecimal.of_string amount_str) (InvalidDecimal amount_str) s2)
    as Hs4. rewrite Hdec in Hs4. cbn [snd] in Hs4. subst s4.
  apply of_option_returns in Hdec.
  apply bind_returns in H as (v & s4 & Hv & H).
  pose proof (of_option_state (Web3.to_wei d) WeiOutOfRange s2) as Hs4.
  rewrite Hv in Hs4. cbn [snd] in Hs4. subst s4.
  apply of_option_returns in Hv.
  apply bind_returns in H as (chain & s4 & Hch & H).
  pose proof (of_option_state (int_of_json (route_chain_id r))
                (InvalidIntLiteral (route_chain_id r)) s2) as Hs4.
  rewrite Hch in Hs4. cbn [snd] in Hs4. subst s4.
  apply of_option_returns in Hch.
  exists q, c, cid, n, d, v, chain, s1, s2. repeat split; auto.
Qed.

(** ** Where a deposit goes *)

Lemma emits_send_native_deposit_to (P : call -> Prop) (bridge_address : json)
    (chain commitment value : Z) :
  (forall c, is_send c = false -> P c) ->
  (forall bridge nonce gas price,
      to_checksum_address w bridge_address = Returns bridge ->
      P (SendTransaction (mkTx bridge (account_address self) commitment value
                               nonce chain gas price))) ->
  emits P (_send_native_deposit w self bridge_address chain commitment value).
Proof.
  intros Hother Hsend s. unfold _send_native_deposit, _estimate_gas_native_deposit.
  apply emits_from_bind; [apply emits_from_pure; reflexivity | intros bridge s1 Hb].
  unfold local in Hb. injection Hb as Hb _.
  repeat emits_step; try (apply Hother; reflexivity).
  now apply Hsend.
Qed.

Lemma emits_quote_commit_deposit_to (P : call -> Prop) (r : route) (amount_str : string) :
  (forall c, is_send c = false -> P c) ->
  (forall bridge chain commitment value nonce gas price,
      to_checksum_address w (route_bridge_address r) = Returns bridge ->
      int_of_json (route_chain_id r) = Some chain ->
      P (SendTransaction (mkTx bridge (account_address self) commitment value
                               nonce chain gas price))) ->
  emits P (quote_commit_deposit w self r amount_str).
Proof.
  intros Hother Hsend s. unfold quote_commit_deposit.
  repeat emits_step_or
    ltac:(first [ apply emits_http; intros; apply Hother; reflexivity
                | apply emits_send_native_deposit_to;
                  [ exact Hother
                  | intros; eapply Hsend;
                    [ eassumption | eapply of_option_returns; eassumption ] ] ]).
Qed.

(** The calls after the route is loaded. *)
Lemma emits_after_route (P : call -> Prop) (amount : option PyFloat.float) (r : route) :
  (forall c, is_send c = false -> P c) ->
  (forall bridge chain commitment value nonce gas price,
      to_checksum_address w (route_bridge_address r) = Returns bridge ->
      int_of_json (route_chain_id r) = Some chain ->
      P (SendTransaction (mkTx bridge (account_address self) commitment value
                               nonce chain gas price))) ->
  emits P (bind (resolve_amount w self amount)
                (fun a => quote_commit_deposit w self r a)).
Proof.
  intros Hother Hsend s.
  apply emits_from_bind.
  - apply DepositFacts.emits_resolve_amount; intros; apply Hother; reflexivity.
  - intros a s1 _. now apply emits_quote_commit_deposit_to.
Qed.

Lemma keeps_after_route (amount : option PyFloat.float) (r : route) :
  keeps_caches (bind (resolve_amount w self amount)
                     (fun a => quote_commit_deposit w self r a)).
Proof.
  apply keeps_bind; [apply keeps_resolve_amount | intros a].
  apply keeps_quote_commit_deposit.
Qed.

Lemma route_call_not_send (c : call) : is_route_call c = true -> is_send c = false.
Proof. destruct c; cbn; congruence. Qed.

End With_world.

End DepositRun.

(** X9. Anything beyond the route calls (a balance or gas price read, a
    quote or commit request, a deposit) happens only for a route that
    passed the checks: the module then holds a truthy token and configs
    that list the source chain "OPBNB" with a contract address, and with a
    native token name that is either missing, empty or exactly "BNB". *)
Theorem X9_nothing_beyond_the_route_unless_checked :
  forall (w : World) (self : module) (amount : option PyFloat.float)
         (s : module_state) (ext : list call),
    trace (snd (process_swap w self amount s)) = trace s ++ ext ->
    Exists (fun c => is_route_call c = false) ext ->
    exists jwt cfg chain_cfg,
      _jwt (snd (process_swap w self amount s)) = Some jwt /\
      Json.truthy jwt = true /\
      _configs (snd (process_swap w self amount s)) = Some (JDict cfg) /\
      Json.lookup "OPBNB" cfg = Some (JDict chain_cfg) /\
      Json.truthy (Json.get "contractAddress" chain_cfg) = true /\
      (Json.truthy (Json.get "nativeTokenName" chain_cfg) = false \/
       Json.get "nativeTokenName" chain_cfg = JStr "BNB").
Proof.
  intros w self amount s ext Htrace Hex.
  destruct (load_route w self s) as [[r|e] s1] eqn:Hload.
  - destruct (RouteFacts.load_route_returns w self s s1 r Hload)
      as (cfg & chain_cfg & Ht & Hj & Hc & Hlook & _ & Haddr & Hname & _).
    rewrite (DepositRun.process_swap_after_route w self amount s s1 r Hload). cbn [snd].
    destruct (DepositRun.keeps_after_route w self amount r s1) as [-> ->].
    exists (route_jwt r), cfg, chain_cfg. auto 10.
  - exfalso.
    destruct (RouteFacts.load_route_raises_calls w self amount s s1 e Hload)
      as (ext' & Ht' & HF).
    rewrite Htrace in Ht'. apply app_inv_head in Ht'. subst ext'.
    apply Exists_exists in Hex as (c & Hin & Hc).
    rewrite Forall_forall in HF. specialize (HF c Hin). congruence.
Qed.

Lemma X9_witness :
  exists jwt cfg chain_cfg,
    _jwt (snd (process_swap Sample.good Sample.self None initial_state)) = Some jwt /\
    Json.truthy jwt = true /\
    _configs (snd (process_swap Sample.good Sample.self None initial_state))
    = Some (JDict cfg) /\
    Json.lookup "OPBNB" cfg = Some (JDict chain_cfg) /\
    Json.truthy (Json.get "contractAddress" chain_cfg) = true /\
    (Json.truthy (Json.get "nativeTokenName" chain_cfg) = false \/
     Json.get "nativeTokenName" chain_cfg = JStr "BNB").
Proof.
  apply (X9_nothing_beyond_the_route_unless_checked Sample.good Sample.self None
           initial_state
           (trace (snd (process_swap Sample.good Sample.self None initial_state)))).
  - vm_compute. reflexivity.
  - vm_compute. apply Exists_cons_tl, Exists_cons_tl, Exists_cons_hd. reflexivity.
Defined.

(** X10. Every deposit a run of [process_swap] hands to the node, accepted
    or not, is sent from the account of the wallet to the checksummed
    contract address that the configs held by the module give for "OPBNB";
    its chain id is the [int] of the chain id of that entry or, when the
    entry has none, a chain id the node reported. *)
Theorem X10_deposit_goes_to_the_configured_contract :
  forall (w : World) (self : module) (amount : option PyFloat.float)
         (s : module_state) (ext : list call) (tx : deposit_tx),
    trace (snd (process_swap w self amount s)) = trace s ++ ext ->
    In (SendTransaction tx) ext ->
    tx_from tx = account_address self /\
    exists cfg chain_cfg,
      _configs (snd (process_swap w self amount s)) = Some (JDict cfg) /\
      Json.lookup "OPBNB" cfg = Some (JDict chain_cfg) /\
      to_checksum_address w (Json.get "contractAddress" chain_cfg) = Returns (tx_to tx) /\
      (if Json.truthy (Json.get "chainId" chain_cfg)
       then int_of_json (Json.get "chainId" chain_cfg) = Some (tx_chain_id tx)
       else exists h, chain_id w h = Returns (tx_chain_id tx)).
Proof.
  intros w self amount s ext tx Htrace Hin.
  destruct (load_route w self s) as [[r|e] s1] eqn:Hload.
  - destruct (RouteFacts.load_route_returns w self s s1 r Hload)
      as (cfg & chain_cfg & _ & _ & Hc & Hlook & Hbridge & _ & _ & Hid).
    pose proof (CallFacts.route_calls w self s) as Hroute.
    unfold Calls.emits_from in Hroute. rewrite Hload in Hroute. cbn [snd] in Hroute.
    destruct Hroute as (ext1 & Ht1 & HF1).
    set (P := fun c =>
                match c with
                | SendTransaction tx =>
                    tx_from tx = account_address self /\
                    to_checksum_address w (route_bridge_address r) = Returns (tx_to tx) /\
                    int_of_json (route_chain_id r) = Some (tx_chain_id tx)
                | _ => True
                end).
    assert (Hrest : Calls.emits P (bind (resolve_amount w self amount)
                                        (fun a => quote_commit_deposit w self r a))).
    { apply DepositRun.emits_after_route.
      - intros c Hc0. destruct c; try exact I. discriminate.
      - intros. cbn. auto. }
    destruct (Hrest s1) as (ext2 & Ht2 & HF2).
    rewrite (DepositRun.process_swap_after_route w self amount s s1 r Hload) in *.
    cbn [snd] in *.
    destruct (DepositRun.keeps_after_route w self amount r s1) as [_ Hkeep].
    rewrite Ht2, Ht1, <- app_assoc in Htrace. apply app_inv_head in Htrace. subst ext.
    apply in_app_or in Hin as [Hin|Hin].
    + rewrite Forall_forall in HF1. specialize (HF1 _ Hin). discriminate.
    + rewrite Forall_forall in HF2. destruct (HF2 _ Hin) as (Hfrom & Hto & Hchain).
      split; [exact Hfrom|].
      exists cfg, chain_cfg. rewrite Hkeep. repeat split; auto.
      * now rewrite <- Hbridge.
      * destruct (Json.truthy (Json.get "chainId" chain_cfg)).
        -- now rewrite <- Hid.
        -- destruct Hid as (n & h & Hn & Hr & _). rewrite Hr in Hchain.
           cbn in Hchain. injection Hchain as <-. eauto.
  - exfalso.
    destruct (RouteFacts.load_route_raises_calls w self amount s s1 e Hload)
      as (ext' & Ht' & HF).
    rewrite Htrace in Ht'. apply app_inv_head in Ht'. subst ext'.
    rewrite Forall_forall in HF. specialize (HF _ Hin). discriminate.
Qed.

Lemma X10_witness :
  tx_from (mkTx "0xB2" "0xA1" 42 998125000000000000 7 204 25201 5000000000)
  = account_address Sample.self /\
  exists cfg chain_cfg,
    _configs (snd (process_swap Sample.good Sample.self None initial_state))
    = Some (JDict cfg) /\
    Json.lookup "OPBNB" cfg = Some (JDict chain_cfg) /\
    to_checksum_address Sample.good (Json.get "contractAddress" chain_cfg)
    = Returns (tx_to (mkTx "0xB2" "0xA1" 42 998125000000000000 7 204 25201 5000000000)) /\
    (if Json.truthy (Json.get "chainId" chain_cfg)
     then int_of_json (Json.get "chainId" chain_cfg)
          = Some (tx_chain_id (mkTx "0xB2" "0xA1" 42 998125000000000000 7 204 25201
                                    5000000000))
     else exists h,
         chain_id Sample.good h
         = Returns (tx_chain_id (mkTx "0xB2" "0xA1" 42 998125000000000000 7 204 25201
                                      5000000000))).
Proof.
  apply (X10_deposit_goes_to_the_configured_contract Sample.good Sample.self None
           initial_state
           (trace (snd (process_swap Sample.good Sample.self None initial_state)))).
  - vm_compute. reflexivity.
  - vm_compute. do 9 right. left. reflexivity.
Defined.

(* ===================================================================== *)
(** * A successful run, call by call *)
(* ===================================================================== *)

Local Open Scope string_scope.
Local Open Scope Z_scope.
Local Open Scope list_scope.

(** X11. A run of [process_swap] that reports success has made its calls in
    this order: the route calls; for the maximum amount a balance read and
    a gas price read, for an explicit amount nothing; the quote request;
    the commit request for the id the quote response gave; a gas price
    read, the gas estimate, the nonce read and the deposit.  Both requests
    carry the token.  The value of the deposit is the wei value of the
    amount text that was quoted, its commitment is the integer of the id
    the commit response gave, it is sent from the account of the wallet,
    and the result of the run is the hash the node answered to it. *)
Theorem X11_successful_run_in_order :
  forall (w : World) (self : module) (amount : option PyFloat.float)
         (s s' : module_state) (h : string),
    process_swap w self amount s = (Returns (true, h), s') ->
    exists setup reads jwt amount_str q c cid d tx,
      let acct := account_address self in
      let quote := HttpRequest "POST" quote_path (Some (quote_payload self amount_str))
                     (Some jwt) in
      let commit := HttpRequest "POST" (commit_path w (Json.get "quoteId" q)) None
                      (Some jwt) in
      let before := trace s ++ setup ++ reads in
      trace s' = before ++ [quote; commit; GasPrice;
                            EstimateGas (tx_to tx) acct (tx_commitment tx) (tx_value tx);
                            GetTransactionCount acct; SendTransaction tx] /\
      Forall (fun c => is_route_call c = true) setup /\
      ((amount <> None /\ reads = []) \/
       (amount = None /\ reads = [GetBalance acct; GasPrice])) /\
      (exists rq,
          http_request w before "POST" quote_path (Some (quote_payload self amount_str))
            (Some jwt) = Returns rq /\
          response_json rq = Some (JDict q)) /\
      (exists rc,
          http_request w (before ++ [quote]) "POST" (commit_path w (Json.get "quoteId" q))
            None (Some jwt) = Returns rc /\
          response_json rc = Some (JDict c)) /\
      Json.get "quoteId" c = JStr cid /\
      _quote_id_to_commitment_int cid = Some (tx_commitment tx) /\
      PyDecimal.of_string amount_str = Some d /\
      Web3.to_wei d = Some (tx_value tx) /\
      tx_from tx = acct /\
      send_raw_transaction w
        (before ++ [quote; commit; GasPrice;
                    EstimateGas (tx_to tx) acct (tx_commitment tx) (tx_value tx);
                    GetTransactionCount acct]) tx
      = Returns h.
Proof.
  intros w self amount s s' h H.
  rewrite WorkflowRun.process_swap_of_body in H.
  destruct (process_swap_body w self amount s) as [[h0|e] s0] eqn:Hb; cbn [fst snd] in H;
    [|discriminate].
  injection H as -> ->.
  unfold process_swap_body in Hb.
  apply RunFacts.bind_returns in Hb as (r & s1 & Hload & Hb).
  apply RunFacts.bind_returns in Hb as (a & s2 & Hres & Hqcd).
  (* the route *)
  pose proof (CallFacts.route_calls w self s) as Hroute.
  unfold Calls.emits_from in Hroute. rewrite Hload in Hroute. cbn [snd] in Hroute.
  destruct Hroute as (setup & Ht1 & HF1).
  destruct (RouteFacts.load_route_returns w self s s1 r Hload) as (_ & _ & Htruthy & _).
  pose proof (RunFacts.cached_truthy _ Htruthy) as Hcached.
  (* the amount *)
  assert (Hreads : exists reads,
             trace s2 = trace s1 ++ reads /\
             ((amount <> None /\ reads = []) \/
              (amount = None /\ reads = [GetBalance (account_address self); GasPrice]))).
  { destruct (DepositRun.resolve_amount_returns w self amount s1 s2 a Hres)
      as [[Hsome ->]|[Hnone ->]].
    - exists []. rewrite app_nil_r. auto.
    - exists [GetBalance (account_address self); GasPrice]. cbn [trace]. auto. }
  destruct Hreads as (reads & Ht2 & Hreads).
  (* the quote, the commit and the deposit *)
  destruct (DepositRun.quote_commit_deposit_returns w self r a s2 s' h Hqcd)
    as (q & c & cid & n & d & v & chain & s3 & s4
        & Hq & _ & Hc & Hcid & Hn & Hd & Hv & _ & Hsend).
  destruct (RunFacts.http_returns w _ _ _ _ _ _ _ Hq) as (Hs3 & rq & Hrq & Hjq & _).
  destruct (RunFacts.http_returns w _ _ _ _ _ _ _ Hc) as (Hs4 & rc & Hrc & Hjc & _).
  rewrite Hcached in *.
  destruct (DepositRun.send_native_deposit_returns w self _ _ _ _ _ _ _ Hsend)
    as (bridge & price & gas & nonce & Hdep).
  cbv zeta in Hdep. destruct Hdep as (_ & _ & _ & _ & Hans & Hs').
  assert (Htr4 : trace s4
                 = (trace s ++ setup ++ reads)
                   ++ [HttpRequest "POST" quote_path (Some (quote_payload self a))
                         (Some (route_jwt r));
                       HttpRequest "POST" (commit_path w (Json.get "quoteId" q)) None
                         (Some (route_jwt r))]).
  { rewrite Hs4, Hs3. unfold after_request; cbn [trace].
    rewrite Ht2, Ht1. rewrite <- !app_assoc. reflexivity. }
  exists setup, reads, (route_jwt r), a, q, c, cid, d,
    (mkTx bridge (account_address self) n v nonce chain gas price).
  cbv zeta. cbn [tx_to tx_from tx_commitment tx_value].
  split; [|split; [exact HF1|split; [exact Hreads|split; [|split]]]].
  - rewrite Hs'. cbn [trace]. rewrite Htr4. rewrite <- !app_assoc. reflexivity.
  - exists rq. split; [|exact Hjq]. rewrite <- Hrq. f_equal.
    rewrite Ht2, Ht1. now rewrite <- app_assoc.
  - exists rc. split; [|exact Hjc]. rewrite <- Hrc. f_equal.
    rewrite Hs3. unfold after_request; cbn [trace].
    rewrite Ht2, Ht1. now rewrite <- !app_assoc.
  - repeat split; auto.
    rewrite <- Hans. f_equal. rewrite Htr4. rewrite <- !app_assoc. reflexivity.
Qed.

Lemma X11_witness :
  exists setup reads jwt amount_str q c cid d tx,
    let w := Sample.good in
    let s := initial_state in
    let s' := snd (process_swap Sample.good Sample.self None initial_state) in
    let acct := account_address Sample.self in
    let quote := HttpRequest "POST" quote_path (Some (quote_payload Sample.self amount_str))
                   (Some jwt) in
    let commit := HttpRequest "POST" (commit_path w (Json.get "quoteId" q)) None
                    (Some jwt) in
    let before := trace s ++ setup ++ reads in
    trace s' = before ++ [quote; commit; GasPrice;
                          EstimateGas (tx_to tx) acct (tx_commitment tx) (tx_value tx);
                          GetTransactionCount acct; SendTransaction tx] /\
    Forall (fun c => is_route_call c = true) setup /\
    ((@None PyFloat.float <> None /\ reads = []) \/
     (@None PyFloat.float = None /\ reads = [GetBalance acct; GasPrice])) /\
    (exists rq,
        http_request w before "POST" quote_path
          (Some (quote_payload Sample.self amount_str)) (Some jwt) = Returns rq /\
        response_json rq = Some (JDict q)) /\
    (exists rc,
        http_request w (before ++ [quote]) "POST" (commit_path w (Json.get "quoteId" q))
          None (Some jwt) = Returns rc /\
        response_json rc = Some (JDict c)) /\
    Json.get "quoteId" c = JStr cid /\
    _quote_id_to_commitment_int cid = Some (tx_commitment tx) /\
    PyDecimal.of_string amount_str = Some d /\
    Web3.to_wei d = Some (tx_value tx) /\
    tx_from tx = acct /\
    send_raw_transaction w
      (before ++ [quote; commit; GasPrice;
                  EstimateGas (tx_to tx) acct (tx_commitment tx) (tx_value tx);
                  GetTransactionCount acct]) tx
    = Returns "0xfeed".
Proof.
  apply (X11_successful_run_in_order Sample.good Sample.self None initial_state
           (snd (process_swap Sample.good Sample.self None initial_state)) "0xfeed").
  vm_compute. reflexivity.
Defined.

(* ===================================================================== *)
(** * A run on a module that holds its token and configs *)
(* ===================================================================== *)

Local Open Scope string_scope.
Local Open Scope Z_scope.
Local Open Scope list_scope.

Module CachedRun.
Import Calls CallFacts RunFacts.

Section With_world.

Variable w : World.
Variable self : module.
Variable P : call -> Prop.

Hypothesis P_quote : forall m b a, P (HttpRequest m quote_path b a).
Hypothesis P_commit : forall id m b a, P (HttpRequest m (commit_path w id) b a).
Hypothesis P_balance : forall a, P (GetBalance a).
Hypothesis P_gas_price : P GasPrice.
Hypothesis P_chain_id : P ChainId.
Hypothesis P_estimate : forall t f c v, P (EstimateGas t f c v).
Hypothesis P_count : forall a, P (GetTransactionCount a).
Hypothesis P_send : forall tx, P (SendTransaction tx).

Lemma emits_quote_commit_deposit_paths (r : route) (amount_str : string) :
  emits P (quote_commit_deposit w self r amount_str).
Proof.
  intros s. unfold quote_commit_deposit.
  repeat emits_step_or
    ltac:(first [ now apply emits_http
                | apply DepositFacts.emits_send_native_deposit; auto ]).
Qed.

(** [load_route] when the token and the configs are cached: at most the
    chain id is asked for. *)
Lemma emits_load_route_cached (s : module_state) (j c : json) :
  cached (_jwt s) = Some j -> cached (_configs s) = Some c ->
  emits_from P s (load_route w self).
Proof.
  intros Hj Hc. unfold load_route.
  apply emits_from_bind.
  { apply emits_from_pure. now rewrite (get_jwt_cached w self s j Hj). }
  intros jwt s1 Hjwt. rewrite (get_jwt_cached w self s j Hj) in Hjwt.
  injection Hjwt as <- <-.
  apply emits_from_bind.
  { apply emits_from_pure. now rewrite (get_configs_cached w s c Hc). }
  intros configs s2 Hcfg. rewrite (get_configs_cached w s c Hc) in Hcfg.
  injection Hcfg as <- <-.
  repeat emits_step. exact P_chain_id.
Qed.

Lemma emits_process_swap_cached (amount : option PyFloat.float) (s : module_state)
    (j c : json) :
  cached (_jwt s) = Some j -> cached (_configs s) = Some c ->
  emits_from P s (process_swap w self amount).
Proof.
  intros Hj Hc. unfold process_swap.
  apply emits_from_try; [|intros; apply emits_from_pure; reflexivity].
  apply emits_from_bind; [|intros; apply emits_from_pure; reflexivity].
  unfold process_swap_body.
  apply emits_from_bind; [now apply (emits_load_route_cached s j c) | intros r s1 _].
  apply emits_from_bind; [now apply DepositFacts.emits_resolve_amount | intros a s2 _].
  apply emits_quote_commit_deposit_paths.
Qed.

End With_world.

End CachedRun.

(** X4. The token and the configs are fetched once per module: a run of
    [process_swap] that starts with a truthy token and truthy configs in
    the module sends no request to the authentication endpoint and none to
    the config endpoint, whatever else it does. *)
Theorem X4_cached_setup_is_not_fetched_again :
  forall (w : World) (self : module) (amount : option PyFloat.float)
         (s : module_state) (j c : json),
    cached (_jwt s) = Some j ->
    cached (_configs s) = Some c ->
    exists ext,
      trace (snd (process_swap w self amount s)) = trace s ++ ext /\
      Forall (fun call => is_setup_request call = false) ext.
Proof.
  intros w self amount s j c Hj Hc.
  apply (CachedRun.emits_process_swap_cached w self
           (fun call => is_setup_request call = false)) with (j := j) (c := c);
    try (intros; reflexivity); assumption.
Qed.

Lemma X4_witness :
  exists ext,
    trace (snd (process_swap Sample.good Sample.self None
                  (snd (process_swap Sample.good Sample.self None initial_state))))
    = trace (snd (process_swap Sample.good Sample.self None initial_state)) ++ ext /\
    Forall (fun call => is_setup_request call = false) ext.
Proof.
  apply (X4_cached_setup_is_not_fetched_again Sample.good Sample.self None
           (snd (process_swap Sample.good Sample.self None initial_state))
           (JStr "jwt-1") Sample.configs_ok).
  - vm_compute. reflexivity.
  - vm_compute. reflexivity.
Defined.

(* ===================================================================== *)
(** * Where the workflow stops when the bridge API or the configs say no *)
(* ===================================================================== *)

Local Open Scope string_scope.
Local Open Scope Z_scope.
Local Open Scope list_scope.

Module RefusalFacts.
Import RunFacts.

Section With_world.

Variable w : World.
Variable self : module.

(** The token of a loaded route goes into the authorization header as it
    is. *)
Lemma route_jwt_header (s s1 : module_state) (r : route) :
  load_route w self s = (Returns r, s1) ->
  cached (Some (route_jwt r)) = Some (route_jwt r).
Proof.
  intros H.
  destruct (RouteFacts.load_route_returns w self s s1 r H) as (_ & _ & Ht & _).
  now apply cached_truthy.
Qed.

(** [process_swap] once the route is loaded and the amount resolved. *)
Lemma process_swap_after_amount (amount : option PyFloat.float)
    (s s1 s2 : module_state) (r : route) (a : string) :
  load_route w self s = (Returns r, s1) ->
  resolve_amount w self amount s1 = (Returns a, s2) ->
  process_swap w self amount s
  = (match fst (quote_commit_deposit w self r a s2) with
     | Returns h => Returns (true, h)
     | Raises e => Returns (false, str_exn w e)
     end,
     snd (quote_commit_deposit w self r a s2)).
Proof.
  intros Hload Hres.
  rewrite (DepositRun.process_swap_after_route w self amount s s1 r Hload).
  unfold bind. now rewrite Hres.
Qed.

End With_world.

End RefusalFacts.

(** X12. When the quote response carries no quote id (the field is missing
    or empty), the workflow fails with "Quote has no quoteId: ..." and the
    quote request is the last call it has made: no commit is requested and
    no chain call for a deposit follows. *)
Theorem X12_quote_without_id_stops_before_commit :
  forall (w : World) (self : module) (amount : option PyFloat.float)
         (s s1 s2 s3 : module_state) (r : route) (a : string)
         (q : list (string * json)),
    load_route w self s = (Returns r, s1) ->
    resolve_amount w self amount s1 = (Returns a, s2) ->
    _http w "POST" quote_path (Some (quote_payload self a)) (Some (route_jwt r)) s2
    = (Returns (JDict q), s3) ->
    Json.truthy (Json.get "quoteId" q) = false ->
    process_swap w self amount s
    = (Returns (false, ("Quote has no quoteId: " ++ str_json w (JDict q))%string), s3) /\
    trace s3
    = trace s2 ++ [HttpRequest "POST" quote_path (Some (quote_payload self a))
                     (Some (route_jwt r))].
Proof.
  intros w self amount s s1 s2 s3 r a q Hload Hres Hq Hid. split.
  - rewrite (RefusalFacts.process_swap_after_amount w self amount s s1 s2 r a Hload Hres).
    unfold quote_commit_deposit, bind. rewrite Hq. cbn [as_dict ret].
    rewrite Hid. reflexivity.
  - destruct (RunFacts.http_returns w _ _ _ _ _ _ _ Hq) as (-> & _).
    rewrite (RefusalFacts.route_jwt_header w self s s1 r Hload). reflexivity.
Qed.

Lemma X12_witness :
  process_swap Sample.refusing Sample.self None initial_state
  = (Returns (false, "Quote has no quoteId: <json>"),
     snd (process_swap Sample.refusing Sample.self None initial_state)) /\
  trace (snd (process_swap Sample.refusing Sample.self None initial_state))
  = trace (snd (resolve_amount Sample.refusing Sample.self None
                  (snd (load_route Sample.refusing Sample.self initial_state))))
    ++ [HttpRequest "POST" quote_path (Some (quote_payload Sample.self "0.998125"))
          (Some (JStr "jwt-1"))].
Proof.
  apply (X12_quote_without_id_stops_before_commit Sample.refusing Sample.self None
           initial_state
           (snd (load_route Sample.refusing Sample.self initial_state))
           (snd (resolve_amount Sample.refusing Sample.self None
                   (snd (load_route Sample.refusing Sample.self initial_state))))
           (snd (process_swap Sample.refusing Sample.self None initial_state))
           (mkRoute (JStr "jwt-1") (JInt 204) (JStr "0xB2")) "0.998125" []).
  - vm_compute. reflexivity.
  - vm_compute. reflexivity.
  - vm_compute. reflexivity.
  - reflexivity.
Defined.

(** X13. When the quote was given but the commit response carries no quote
    id, the workflow fails with "Commit failed: ..." right after the commit
    request, which went to the path of the id the quote response gave: no
    chain call is made and nothing is deposited. *)
Theorem X13_commit_without_id_stops_before_deposit :
  forall (w : World) (self : module) (amount : option PyFloat.float)
         (s s1 s2 s3 s4 : module_state) (r : route) (a : string)
         (q c : list (string * json)),
    load_route w self s = (Returns r, s1) ->
    resolve_amount w self amount s1 = (Returns a, s2) ->
    _http w "POST" quote_path (Some (quote_payload self a)) (Some (route_jwt r)) s2
    = (Returns (JDict q), s3) ->
    Json.truthy (Json.get "quoteId" q) = true ->
    _http w "POST" (commit_path w (Json.get "quoteId" q)) None (Some (route_jwt r)) s3
    = (Returns (JDict c), s4) ->
    Json.truthy (Json.get "quoteId" c) = false ->
    process_swap w self amount s
    = (Returns (false, ("Commit failed: " ++ str_json w (JDict c))%string), s4) /\
    trace s4
    = trace s2 ++ [HttpRequest "POST" quote_path (Some (quote_payload self a))
                     (Some (route_jwt r));
                   HttpRequest "POST" (commit_path w (Json.get "quoteId" q)) None
                     (Some (route_jwt r))].
Proof.
  intros w self amount s s1 s2 s3 s4 r a q c Hload Hres Hq Hqid Hc Hcid. split.
  - rewrite (RefusalFacts.process_swap_after_amount w self amount s s1 s2 r a Hload Hres).
    unfold quote_commit_deposit, bind. rewrite Hq. cbn [as_dict ret].
    rewrite Hqid. cbn [negb]. rewrite Hc. cbn [as_dict ret].
    rewrite Hcid. reflexivity.
  - destruct (RunFacts.http_returns w _ _ _ _ _ _ _ Hq) as (-> & _).
    destruct (RunFacts.http_returns w _ _ _ _ _ _ _ Hc) as (-> & _).
    rewrite (RefusalFacts.route_jwt_header w self s s1 r Hload).
    unfold after_request; cbn [trace]. now rewrite <- app_assoc.
Qed.

Lemma X13_witness :
  process_swap Cases.commit_refused Sample.self None initial_state
  = (Returns (false, "Commit failed: <json>"),
     snd (process_swap Cases.commit_refused Sample.self None initial_state)) /\
  trace (snd (process_swap Cases.commit_refused Sample.self None initial_state))
  = trace (snd (resolve_amount Cases.commit_refused Sample.self None
                  (snd (load_route Cases.commit_refused Sample.self initial_state))))
    ++ [HttpRequest "POST" quote_path (Some (quote_payload Sample.self "0.998125"))
          (Some (JStr "jwt-1"));
        HttpRequest "POST" "/bridge/quote/commit/q-1" None (Some (JStr "jwt-1"))].
Proof.
  apply (X13_commit_without_id_stops_before_deposit Cases.commit_refused Sample.self None
           initial_state
           (snd (load_route Cases.commit_refused Sample.self initial_state))
           (snd (resolve_amount Cases.commit_refused Sample.self None
                   (snd (load_route Cases.commit_refused Sample.self initial_state))))
           (snd (_http Cases.commit_refused "POST" quote_path
                   (Some (quote_payload Sample.self "0.998125")) (Some (JStr "jwt-1"))
                   (snd (resolve_amount Cases.commit_refused Sample.self None
                           (snd (load_route Cases.commit_refused Sample.self
                                   initial_state))))))
           (snd (process_swap Cases.commit_refused Sample.self None initial_state))
           (mkRoute (JStr "jwt-1") (JInt 204) (JStr "0xB2")) "0.998125"
           [("quoteId", JStr "q-1")] [("error", JStr "expired")]).
  - vm_compute. reflexivity.
  - vm_compute. reflexivity.
  - vm_compute. reflexivity.
  - reflexivity.
  - vm_compute. reflexivity.
  - reflexivity.
Defined.



(* ===================================================================== *)
(** * The fee buffer at any gas price *)
(* ===================================================================== *)

Local Open Scope string_scope.
Local Open Scope Z_scope.

Module FeeFacts.
Import PyDecimal.

(** A positive number has at least the value of its digit count. *)
Lemma ndigits_fuel_ge (fuel : positive) :
  forall c, 0 < c <= Zpos fuel -> 10 ^ (ndigits_fuel fuel c - 1) <= c.
Proof.
  induction fuel as [f IH|f IH|]; intros c Hc; cbn [ndigits_fuel];
    destruct (Z.ltb_spec c 10) as [Hs|Hs]; try (cbn; lia).
  all: assert (Hd : 0 < c / 10 <= Zpos f)
         by (split; [apply Z.div_str_pos; lia | apply Z.div_le_upper_bound; lia]).
  all: specialize (IH _ Hd).
  all: pose proof (DecimalFacts.ndigits_fuel_pos f (c / 10)) as Hp.
  all: replace (1 + ndigits_fuel f (c / 10) - 1)
         with (Z.succ (ndigits_fuel f (c / 10) - 1)) by lia.
  all: rewrite Z.pow_succ_r by lia.
  all: pose proof (Z.mul_div_le c 10 ltac:(lia)); lia.
Qed.

Lemma ndigits_ge (c : Z) : 0 < c -> 10 ^ (ndigits c - 1) <= c.
Proof.
  intros Hc. destruct c as [|p|p]; try lia.
  cbn [ndigits]. apply ndigits_fuel_ge. lia.
Qed.

(** Rounding half to even moves a number by at most half a unit. *)
Lemma round_half_even_bound (c k : Z) :
  0 <= c -> 0 <= k ->
  0 <= round_half_even c k /\
  2 * Z.abs (round_half_even c k * 10 ^ k - c) <= 10 ^ k.
Proof.
  intros Hc Hk. unfold round_half_even.
  assert (HP : 0 < 10 ^ k) by (apply Z.pow_pos_nonneg; lia).
  set (P := 10 ^ k) in *.
  pose proof (Z.div_mod c P ltac:(lia)) as Hdm.
  pose proof (Z.mod_pos_bound c P HP) as Hr.
  assert (Hq : 0 <= c / P) by (apply Z.div_pos; lia).
  destruct ((P <? 2 * (c mod P)) || ((2 * (c mod P) =? P) && Z.odd (c / P))) eqn:E.
  - assert (Hup : P <= 2 * (c mod P)).
    { apply orb_prop in E as [E|E]; [apply Z.ltb_lt in E; lia|].
      apply andb_prop in E as [E _]. apply Z.eqb_eq in E. lia. }
    split; [lia|]. nia.
  - apply orb_false_iff in E as [E _]. apply Z.ltb_ge in E.
    split; [lia|]. nia.
Qed.

(** A number whose last digit is zero loses nothing when one digit is
    rounded away. *)
Lemma round_half_even_one (c : Z) :
  0 <= c -> c mod 10 = 0 -> round_half_even c 1 * 10 = c.
Proof.
  intros Hc Hm. unfold round_half_even. change (10 ^ 1) with 10. rewrite Hm.
  cbn [Z.mul Z.ltb Z.eqb Z.compare orb andb].
  pose proof (Z.div_mod c 10 ltac:(lia)). lia.
Qed.

(** The [int] of the rounded product, times 100, is the rounded product:
    nothing is cut. *)
Lemma some_eq {A} (a b : A) : Some a = Some b -> a = b.
Proof. congruence. Qed.

Lemma fee_buffer_rounded (g fee : Z) :
  0 <= g ->
  fee_buffer safety_mul_default g = Some fee ->
  fee = 375000 * g \/
  exists k, 1 <= k /\ 10 ^ (k + 27) <= 37500000 * g /\
            2 * Z.abs (100 * fee - 37500000 * g) <= 10 ^ k.
Proof.
  intros Hg. unfold fee_buffer, mul, of_int, safety_mul_default, conservative_gas.
  cbn [coeff exp neg].
  replace (g * 300000 <? 0) with false by (symmetry; apply Z.ltb_ge; lia).
  rewrite Z.abs_eq by lia. cbn [xorb Z.add].
  replace (g * 300000 * 125) with (37500000 * g) by ring.
  set (c := 37500000 * g).
  assert (Hc : 0 <= c) by (unfold c; lia).
  unfold fix_context, default_prec. cbv beta iota zeta delta [coeff exp neg].
  pose proof (DecimalFacts.ndigits_pos c) as Hn1.
  destruct (Z.leb_spec (ndigits c) 28) as [Hle|Hgt].
  - (* nothing to round *)
    cbv beta iota zeta delta [coeff exp neg].
    destruct (negb (c =? 0) && (Emax <? -2 + ndigits c - 1)); cbv beta iota delta [option_map];
      [discriminate|].
    intros H. apply some_eq in H. subst fee. left.
    unfold to_int. cbv beta iota zeta delta [coeff exp neg].
    change (0 <=? -2) with false. cbv iota. change (10 ^ (- -2)) with 100.
    unfold c. replace (37500000 * g) with (375000 * g * 100) by ring.
    now rewrite Z.div_mul by lia.
  - (* [k] digits are rounded away *)
    set (k := ndigits c - 28) in *.
    assert (Hk : 1 <= k) by (unfold k; lia).
    assert (Hcpos : 0 < c).
    { destruct (Z.eq_dec c 0) as [E|]; [|lia]. rewrite E in Hgt. cbn in Hgt. lia. }
    pose proof (ndigits_ge c Hcpos) as Hlow.
    replace (ndigits c - 1) with (k + 27) in Hlow by (unfold k; lia).
    destruct (round_half_even_bound c k Hc ltac:(lia)) as (Hq0 & Hq).
    set (q := round_half_even c k) in *.
    assert (HP : 0 < 10 ^ k) by (apply Z.pow_pos_nonneg; lia).
    intros H. right. exists k. split; [exact Hk|]. split; [exact Hlow|].
    assert (Hval : 100 * fee = q * 10 ^ k); [|rewrite Hval; exact Hq].
    revert H.
    destruct (Z.eqb_spec q (10 ^ 28)) as [Hcarry|Hnc]; cbv beta iota zeta delta [coeff exp neg].
    + (* the coefficient rounds up to a power of ten *)
      destruct (negb (10 ^ (28 - 1) =? 0)
                && (Emax <? -2 + k + 1 + ndigits (10 ^ (28 - 1)) - 1));
        cbv beta iota delta [option_map]; [discriminate|].
      intros H. apply some_eq in H. subst fee.
      unfold to_int. cbv beta iota zeta delta [coeff exp neg].
      replace (0 <=? -2 + k + 1) with true by (symmetry; apply Z.leb_le; lia).
      rewrite Hcarry.
      assert (Hpow : 10 ^ k = 10 * 10 ^ (-2 + k + 1))
        by (rewrite <- Z.pow_succ_r by lia; f_equal; lia).
      rewrite Hpow.
      change (10 ^ (28 - 1)) with 1000000000000000000000000000.
      change (10 ^ 28) with 10000000000000000000000000000. ring.
    + destruct (negb (q =? 0) && (Emax <? -2 + k + ndigits q - 1));
        cbv beta iota delta [option_map]; [discriminate|].
      intros H. apply some_eq in H. subst fee.
      unfold to_int. cbv beta iota zeta delta [coeff exp neg].
      destruct (Z.leb_spec 0 (-2 + k)) as [Hk2|Hk1].
      * assert (Hpow : 10 ^ k = 10 * (10 * 10 ^ (-2 + k)))
          by (rewrite <- !Z.pow_succ_r by lia; f_equal; lia).
        rewrite Hpow. ring.
      * assert (Hk1' : k = 1) by lia.
        assert (Hm : c mod 10 = 0).
        { unfold c. replace (37500000 * g) with (3750000 * g * 10) by ring.
          apply Z.mod_mul. lia. }
        pose proof (round_half_even_one c Hc Hm) as Hone.
        assert (Hq1 : q = 375000 * g * 10).
        { unfold q. rewrite Hk1'. unfold c in Hone |- *. lia. }
        rewrite Hq1, Hk1'. change (- (-2 + 1)) with 1. change (10 ^ 1) with 10.
        rewrite Z.div_mul by lia. ring.
Qed.

(** The fee buffer is one and a quarter times the cost of 300000 units of
    gas, up to the rounding of the decimal context: a relative error of at
    most 5 * 10^-28. *)
Lemma fee_buffer_bounds (g fee : Z) :
  0 <= g ->
  fee_buffer safety_mul_default g = Some fee ->
  2 * 10 ^ 27 * Z.abs (fee - 375000 * g) <= 375000 * g /\
  300000 * g <= fee.
Proof.
  intros Hg H.
  destruct (fee_buffer_rounded g fee Hg H) as [->|(k & Hk & Hlow & Herr)].
  - rewrite Z.sub_diag. cbn [Z.abs]. lia.
  - replace (k + 27) with (27 + k) in Hlow by lia.
    rewrite Z.pow_add_r in Hlow by lia.
    assert (HP : 0 < 10 ^ k) by (apply Z.pow_pos_nonneg; lia).
    change (10 ^ 27) with 1000000000000000000000000000 in *.
    set (P := 10 ^ k) in *. lia.
Qed.

End FeeFacts.

(** X15. At every gas price [g >= 0] for which the decimal product does
    not overflow, the fee buffer is 375000 * g up to the rounding of the
    28-digit decimal context, a relative error of at most 5 * 10^-28; in
    particular it always covers the plain cost of 300000 units of gas. *)
Theorem X15_fee_buffer_within_rounding :
  forall g fee : Z,
    0 <= g ->
    fee_buffer safety_mul_default g = Some fee ->
    2 * 10 ^ 27 * Z.abs (fee - 375000 * g) <= 375000 * g /\
    300000 * g <= fee.
Proof. exact FeeFacts.fee_buffer_bounds. Qed.

Lemma X15_witness :
  2 * 10 ^ 27 * Z.abs (37500000000000000000000000380000 - 375000 * (10 ^ 26 + 1))
  <= 375000 * (10 ^ 26 + 1) /\
  300000 * (10 ^ 26 + 1) <= 37500000000000000000000000380000.
Proof.
  apply (X15_fee_buffer_within_rounding (10 ^ 26 + 1) 37500000000000000000000000380000).
  - vm_compute. discriminate.
  - vm_compute. reflexivity.
Defined.

(** X16. What [_calc_max_send_wei] returns: it reads the balance and then
    the gas price, and nothing else.  The amount is never negative; at a
    gas price [g >= 0] it is never more than the balance, and whenever it
    is positive it leaves at least 300000 * g of the balance for the
    fee. *)
Theorem X16_max_send_leaves_the_fee :
  forall (w : World) (self : module) (s s' : module_state) (m : Z),
    _calc_max_send_wei w self safety_mul_default s = (Returns m, s') ->
    exists b g,
      get_balance w (trace s) (account_address self) = Returns b /\
      gas_price w (trace s ++ [GetBalance (account_address self)]) = Returns g /\
      trace s' = (trace s ++ [GetBalance (account_address self); GasPrice])%list /\
      0 <= m /\
      (0 <= g -> m <= Z.max b 0 /\ (0 < m -> m + 300000 * g <= b)).
Proof.
  intros w self s s' m.
  unfold _calc_max_send_wei, _get_native_balance_wei, bind, perform.
  cbn [trace _client _jwt _configs].
  destruct (get_balance w (trace s) (account_address self)) as [b|] eqn:Hb; [|discriminate].
  destruct (gas_price w (trace s ++ [GetBalance (account_address self)])%list) as [g|] eqn:Hg;
    [|discriminate].
  destruct (fee_buffer safety_mul_default g) as [fee|] eqn:Hf; cbn [of_option ret raise];
    [|discriminate].
  intros H. apply pair_equal_spec in H as [Hm Hs].
  assert (Hm' : m = max_send_of b fee) by congruence. subst m s'.
  exists b, g. cbn [trace]. rewrite <- app_assoc.
  split; [reflexivity|]. split; [reflexivity|]. split; [reflexivity|].
  rewrite AmountFacts.max_send_of_max. split; [lia|].
  intros Hg0. destruct (FeeFacts.fee_buffer_bounds g fee Hg0 Hf) as [_ Hfee]. lia.
Qed.

Lemma X16_witness :
  exists b g,
    get_balance Sample.good (trace initial_state) (account_address Sample.self) = Returns b /\
    gas_price Sample.good (trace initial_state ++ [GetBalance (account_address Sample.self)])%list
    = Returns g /\
    trace (snd (_calc_max_send_wei Sample.good Sample.self safety_mul_default initial_state))
    = (trace initial_state ++ [GetBalance (account_address Sample.self); GasPrice])%list /\
    0 <= 998125000000000000 /\
    (0 <= g ->
     998125000000000000 <= Z.max b 0 /\
     (0 < 998125000000000000 -> 998125000000000000 + 300000 * g <= b)).
Proof.
  apply (X16_max_send_leaves_the_fee Sample.good Sample.self initial_state
           (snd (_calc_max_send_wei Sample.good Sample.self safety_mul_default
                   initial_state))
           998125000000000000).
  vm_compute. reflexivity.
Defined.

(* ===================================================================== *)
(** * More on the commitment of a quote id *)
(* ===================================================================== *)

Local Open Scope string_scope.
Local Open Scope Z_scope.

Module CommitmentFacts.
Import PyStr PyInt PyStrFacts HexFacts.

(** ** White space around the id *)

Lemma lstrip_by_all (p : ascii -> bool) (ws t : string) :
  all p ws = true -> lstrip_by p (ws ++ t) = lstrip_by p t.
Proof.
  induction ws as [|c ws IH]; cbn [all append lstrip_by]; [reflexivity|].
  intros H. apply andb_prop in H as [-> H]. auto.
Qed.

Lemma lstrip_by_all_empty (p : ascii -> bool) (ws : string) :
  all p ws = true -> lstrip_by p ws = EmptyString.
Proof.
  intros H. rewrite <- (app_empty_r ws). now rewrite lstrip_by_all.
Qed.

Lemma rstrip_by_all_empty (p : ascii -> bool) (ws : string) :
  all p ws = true -> rstrip_by p ws = EmptyString.
Proof.
  induction ws as [|c ws IH]; cbn [all rstrip_by]; [reflexivity|].
  intros H. apply andb_prop in H as [-> H]. now rewrite IH.
Qed.

Lemma rstrip_by_app_all (p : ascii -> bool) (s ws : string) :
  all p ws = true -> rstrip_by p (s ++ ws) = rstrip_by p s.
Proof.
  intros H. induction s as [|c s IH]; cbn [append rstrip_by].
  - now apply rstrip_by_all_empty.
  - now rewrite IH.
Qed.

(** What is left of [s ++ ws] once the left is stripped. *)
Lemma lstrip_by_app (p : ascii -> bool) (s ws : string) :
  all p ws = true ->
  lstrip_by p (s ++ ws) = lstrip_by p s ++ (if all p s then EmptyString else ws).
Proof.
  intros H. induction s as [|c s IH]; cbn [append lstrip_by all].
  - now apply lstrip_by_all_empty.
  - destruct (p c); cbn [andb]; [exact IH | reflexivity].
Qed.

Lemma strip_around (ws1 ws2 s : string) :
  all isspace ws1 = true -> all isspace ws2 = true ->
  strip (ws1 ++ s ++ ws2) = strip s.
Proof.
  intros H1 H2. unfold strip.
  rewrite lstrip_by_all by exact H1.
  rewrite lstrip_by_app by exact H2.
  destruct (all isspace s); [now rewrite app_empty_r|].
  now apply rstrip_by_app_all.
Qed.

(** ** The value of a run of digits *)

Lemma hex_value_from_acc (h : string) :
  forall acc, hex_value_from acc h
              = acc * 16 ^ Z.of_nat (String.length h) + hex_value_from 0 h.
Proof.
  induction h as [|c h IH]; intros acc; cbn [hex_value_from String.length].
  - cbn. lia.
  - rewrite (IH (16 * acc + _)), (IH (16 * 0 + _)).
    rewrite Nat2Z.inj_succ, Z.pow_succ_r by lia. ring.
Qed.

Lemma digit_in_bound (base : Z) (c : ascii) (d : Z) :
  digit_in base c = Some d -> 0 <= d < base.
Proof.
  unfold digit_in, digit_value.
  pose proof (N2Z.is_nonneg (N_of_ascii c)) as Hn. unfold ord.
  destruct ((48 <=? Z.of_N (N_of_ascii c)) && (Z.of_N (N_of_ascii c) <=? 57)) eqn:E1.
  - apply andb_prop in E1 as [E1 _]. apply Z.leb_le in E1.
    destruct (Z.ltb_spec (Z.of_N (N_of_ascii c) - 48) base) as [Hlt|Hge]; intros H; inversion H; lia.
  - destruct ((97 <=? Z.of_N (N_of_ascii c)) && (Z.of_N (N_of_ascii c) <=? 122)) eqn:E2.
    + apply andb_prop in E2 as [E2 _]. apply Z.leb_le in E2.
      destruct (Z.ltb_spec (Z.of_N (N_of_ascii c) - 87) base) as [Hlt|Hge]; intros H; inversion H; lia.
    + destruct ((65 <=? Z.of_N (N_of_ascii c)) && (Z.of_N (N_of_ascii c) <=? 90)) eqn:E3;
        [|discriminate].
      apply andb_prop in E3 as [E3 _]. apply Z.leb_le in E3.
      destruct (Z.ltb_spec (Z.of_N (N_of_ascii c) - 55) base) as [Hlt|Hge]; intros H; inversion H; lia.
Qed.

Lemma hex_value_bound (h : string) :
  all is_hex_char h = true ->
  0 <= hex_value h < 16 ^ Z.of_nat (String.length h).
Proof.
  unfold hex_value. induction h as [|c h IH]; cbn [all hex_value_from String.length].
  - intros _. cbn. lia.
  - intros H. apply andb_prop in H as [Hc Hh]. specialize (IH Hh).
    destruct (hex_char_digit c Hc) as [d Hd]. rewrite Hd.
    pose proof (digit_in_bound 16 c d Hd) as Hb.
    rewrite hex_value_from_acc.
    rewrite Nat2Z.inj_succ, Z.pow_succ_r by lia.
    assert (0 < 16 ^ Z.of_nat (String.length h)) by (apply Z.pow_pos_nonneg; lia).
    nia.
Qed.

(** The lower-case spelling of a hexadecimal digit is determined by its
    value. *)
Lemma lower_char_of_digit (c : ascii) :
  is_hex_char c = true ->
  Some (lower_char c)
  = option_map (fun d => ascii_of_N (Z.to_N (if d <? 10 then 48 + d else 87 + d)))
      (digit_in 16 c).
Proof. ascii_cases c; vm_compute; congruence. Qed.

Lemma hex_value_injective (a : string) :
  forall b,
    all is_hex_char a = true -> all is_hex_char b = true ->
    String.length a = String.length b ->
    hex_value a = hex_value b ->
    lower a = lower b.
Proof.
  unfold hex_value, lower.
  induction a as [|c a IH]; intros [|c' b] Ha Hb Hlen Hv; try discriminate;
    [reflexivity|].
  cbn [all] in Ha, Hb.
  apply andb_prop in Ha as [Hc Ha]. apply andb_prop in Hb as [Hc' Hb].
  cbn [String.length] in Hlen. injection Hlen as Hlen.
  cbn [hex_value_from] in Hv.
  destruct (hex_char_digit c Hc) as [d Hd]. destruct (hex_char_digit c' Hc') as [d' Hd'].
  rewrite Hd, Hd' in Hv.
  rewrite (hex_value_from_acc a), (hex_value_from_acc b), Hlen in Hv.
  pose proof (hex_value_bound a Ha) as Ba. pose proof (hex_value_bound b Hb) as Bb.
  unfold hex_value in Ba, Bb. rewrite Hlen in Ba.
  pose proof (digit_in_bound 16 c d Hd) as Bd.
  pose proof (digit_in_bound 16 c' d' Hd') as Bd'.
  assert (HP : 0 < 16 ^ Z.of_nat (String.length b)) by (apply Z.pow_pos_nonneg; lia).
  assert (Hdd : d = d') by nia. subst d'.
  assert (Hrest : hex_value_from 0 a = hex_value_from 0 b) by nia.
  cbn [map]. f_equal.
  - pose proof (lower_char_of_digit c Hc) as L. pose proof (lower_char_of_digit c' Hc') as L'.
    rewrite Hd in L. rewrite Hd' in L'. congruence.
  - apply IH; auto.
Qed.

(** ** Signs and a second marker *)

Lemma int16_signed (neg : bool) (h : string) :
  is_hex_body h = true ->
  int16 (String (if neg then "-" else "+")%char h)
  = Some (if neg then - hex_value h else hex_value h).
Proof.
  unfold is_hex_body. intros H. apply andb_prop in H as [Hne Hall].
  unfold int16.
  rewrite lstrip_by_head by (destruct neg; reflexivity).
  assert (Hs : split_sign (String (if neg then "-" else "+")%char h) = (neg, h))
    by (destruct neg; reflexivity).
  rewrite Hs, (skip_hex_marker_hex _ Hall).
  rewrite (scan_digits_hex _ 0 false Hall) by (destruct h; [discriminate | discriminate]).
  reflexivity.
Qed.

Lemma skip_hex_marker_marked (c : ascii) (h : string) :
  is_hex_char c = true ->
  skip_hex_marker (String "0" (String "x" (String c h))) = String c h.
Proof.
  ascii_cases c; vm_compute; intros Hc; try reflexivity; discriminate.
Qed.

Lemma int16_marked (h : string) :
  is_hex_body h = true -> int16 ("0x" ++ h) = Some (hex_value h).
Proof.
  unfold is_hex_body. intros H. apply andb_prop in H as [Hne Hall].
  destruct h as [|c h]; [discriminate|].
  assert (Hc : is_hex_char c = true) by (cbn [all] in Hall; now apply andb_prop in Hall).
  unfold int16. cbn [append].
  rewrite lstrip_by_head by reflexivity.
  change (split_sign (String "0" (String "x" (String c h))))
    with (false, String "0" (String "x" (String c h))).
  cbv beta iota.
  rewrite (skip_hex_marker_marked c h Hc).
  rewrite (scan_digits_hex _ 0 false Hall) by discriminate.
  reflexivity.
Qed.

(** ** A character that is no digit *)

Lemma scan_digits_stops (h : string) (c : ascii) (r : string) :
  forall acc seen,
    all is_hex_char h = true ->
    (h = EmptyString -> seen = true) ->
    digit_in 16 c = None -> is_underscore c = false ->
    scan_digits 16 (h ++ String c r) acc false seen
    = Some (hex_value_from acc h, String c r).
Proof.
  induction h as [|a h IH]; intros acc seen Hall Hne Hc Hu.
  - cbn [append scan_digits hex_value_from]. rewrite Hc, Hu, (Hne eq_refl). reflexivity.
  - cbn [all] in Hall. apply andb_prop in Hall as [Ha Hall].
    destruct (hex_char_digit a Ha) as [d Hd].
    cbn [append scan_digits hex_value_from]. rewrite Hd.
    apply IH; auto.
Qed.

Lemma hex_char_not_x (c : ascii) :
  is_hex_char c = true -> Ascii.eqb c "x" || Ascii.eqb c "X" = false.
Proof. ascii_cases c; vm_compute; congruence. Qed.

Lemma skip_hex_marker_body (h : string) (c : ascii) (r : string) :
  is_hex_body h = true ->
  Ascii.eqb c "x" || Ascii.eqb c "X" = false ->
  skip_hex_marker (h ++ String c r) = h ++ String c r.
Proof.
  unfold is_hex_body. intros H Hx. apply andb_prop in H as [Hne Hall].
  destruct h as [|a [|b h]]; [discriminate| |]; cbn [append].
  - cbn [skip_hex_marker]. rewrite Hx.
    destruct a as [[] [] [] [] [] [] [] []]; reflexivity.
  - cbn [all] in Hall. apply andb_prop in Hall as [_ Hall].
    apply andb_prop in Hall as [Hb _].
    cbn [skip_hex_marker]. rewrite (hex_char_not_x b Hb).
    destruct a as [[] [] [] [] [] [] [] []]; reflexivity.
Qed.

Lemma startswith_0x_body (h : string) (c : ascii) (r : string) :
  is_hex_body h = true ->
  Ascii.eqb "x" c = false ->
  startswith "0x" (h ++ String c r) = false.
Proof.
  unfold is_hex_body. intros H Hx. apply andb_prop in H as [Hne Hall].
  destruct h as [|a [|b h]]; [discriminate| |]; cbn [append startswith].
  - rewrite Hx. apply andb_false_r.
  - cbn [all] in Hall. apply andb_prop in Hall as [_ Hall].
    apply andb_prop in Hall as [Hb _].
    assert (Hbx : Ascii.eqb "x" b = false)
      by (revert Hb; ascii_cases b; vm_compute; congruence).
    rewrite Hbx. apply andb_false_r.
Qed.

Lemma rstrip_by_keeps (p : ascii -> bool) (s : string) (c : ascii) (r : string) :
  p c = false ->
  rstrip_by p (s ++ String c r) = s ++ String c (rstrip_by p r).
Proof.
  intros Hc. induction s as [|a s IH]; cbn [append rstrip_by].
  - rewrite Hc. destruct (rstrip_by p r); reflexivity.
  - rewrite IH. destruct s; reflexivity.
Qed.

Lemma lower_char_class (c : ascii) :
  isspace (lower_char c) = isspace c /\
  is_underscore (lower_char c) = is_underscore c.
Proof. ascii_cases c; split; reflexivity. Qed.

End CommitmentFacts.

(** X17. ASCII white space around an ASCII quote id does not matter: for
    every text of ASCII characters, the commitment of the text with ASCII
    white space (TAB, LF, VT, FF, CR, FS, GS, RS, US, blank) before and
    after it is the commitment (or the rejection) of the text itself. *)
Theorem X17_commitment_ignores_surrounding_ascii_space :
  forall ws1 ws2 s : string,
    is_ascii s = true ->
    PyStr.all PyStr.isspace ws1 = true ->
    PyStr.all PyStr.isspace ws2 = true ->
    _quote_id_to_commitment_int (ws1 ++ s ++ ws2) = _quote_id_to_commitment_int s.
Proof.
  intros ws1 ws2 s _ H1 H2. unfold _quote_id_to_commitment_int.
  now rewrite (CommitmentFacts.strip_around ws1 ws2 s H1 H2).
Qed.

Lemma X17_witness :
  _quote_id_to_commitment_int (" " ++ "0x2a" ++ String "010" EmptyString)
  = _quote_id_to_commitment_int "0x2a".
Proof.
  apply (X17_commitment_ignores_surrounding_ascii_space " " (String "010" EmptyString)
           "0x2a");
    reflexivity.
Defined.

(** X18. Two quote ids made of the same number of hexadecimal digits get
    the same commitment only if they are the same up to letter case:
    distinct ids of equal length never collide. *)
Theorem X18_equal_length_ids_do_not_collide :
  forall a b : string,
    is_hex_body a = true -> is_hex_body b = true ->
    String.length a = String.length b ->
    _quote_id_to_commitment_int a = _quote_id_to_commitment_int b ->
    PyStr.lower a = PyStr.lower b.
Proof.
  intros a b Ha Hb Hlen H.
  rewrite (proj1 (HexFacts.commitment_of_body a Ha)) in H.
  rewrite (proj1 (HexFacts.commitment_of_body b Hb)) in H.
  injection H as H.
  unfold is_hex_body in Ha, Hb.
  apply andb_prop in Ha as [_ Ha]. apply andb_prop in Hb as [_ Hb].
  now apply CommitmentFacts.hex_value_injective.
Qed.

Lemma X18_witness : PyStr.lower "2A" = PyStr.lower "2a".
Proof.
  apply (X18_equal_length_ids_do_not_collide "2A" "2a"); reflexivity.
Defined.

(** X19. The commitment of hexadecimal digits is never negative and is
    below 16 to the number of digits: an id of at most 64 digits, with or
    without the marker, gives a commitment that fits the [uint256] argument
    of the bridge contract. *)
Theorem X19_commitment_of_64_digits_fits_uint256 :
  forall h : string,
    is_hex_body h = true ->
    (String.length h <= 64)%nat ->
    exists n,
      _quote_id_to_commitment_int h = Some n /\
      _quote_id_to_commitment_int ("0x" ++ h) = Some n /\
      0 <= n < 16 ^ Z.of_nat (String.length h) /\
      n < 2 ^ 256.
Proof.
  intros h Hb Hlen.
  destruct (HexFacts.commitment_of_body h Hb) as (H1 & H2 & _).
  exists (hex_value h). split; [exact H1|]. split; [exact H2|].
  unfold is_hex_body in Hb. apply andb_prop in Hb as [_ Hall].
  pose proof (CommitmentFacts.hex_value_bound h Hall) as Hbound.
  split; [exact Hbound|].
  assert (Hpow : 16 ^ Z.of_nat (String.length h) <= 16 ^ 64)
    by (apply Z.pow_le_mono_r; lia).
  change (16 ^ 64) with (2 ^ 256) in Hpow. lia.
Qed.

Lemma X19_witness :
  exists n,
    _quote_id_to_commitment_int "ff" = Some n /\
    _quote_id_to_commitment_int ("0x" ++ "ff") = Some n /\
    0 <= n < 16 ^ Z.of_nat (String.length "ff") /\
    n < 2 ^ 256.
Proof.
  apply (X19_commitment_of_64_digits_fits_uint256 "ff").
  - reflexivity.
  - cbn. lia.
Defined.

(** X20. The function accepts more than bare digits, as [int(q, 16)] does:
    a sign in front of the digits is read, so that a minus sign gives a
    negative commitment, and a second "0x" marker behind the one that is
    cut off is read as a marker too. *)
Theorem X20_sign_and_second_marker_are_read :
  forall h : string,
    is_hex_body h = true ->
    _quote_id_to_commitment_int ("-" ++ h) = Some (- hex_value h) /\
    _quote_id_to_commitment_int ("+" ++ h) = Some (hex_value h) /\
    _quote_id_to_commitment_int ("0x-" ++ h) = Some (- hex_value h) /\
    _quote_id_to_commitment_int ("0x0x" ++ h) = Some (hex_value h).
Proof.
  intros h Hb.
  assert (Hall : PyStr.all is_hex_char h = true)
    by (unfold is_hex_body in Hb; now apply andb_prop in Hb).
  assert (Hns := HexFacts.hex_no_space _ Hall).
  assert (Hlb : is_hex_body (PyStr.lower h) = true)
    by now rewrite HexFacts.is_hex_body_lower.
  assert (Hv : hex_value (PyStr.lower h) = hex_value h)
    by (unfold hex_value; apply HexFacts.hex_value_from_lower).
  pose proof (CommitmentFacts.int16_signed true (PyStr.lower h) Hlb) as Hminus.
  pose proof (CommitmentFacts.int16_signed false (PyStr.lower h) Hlb) as Hplus.
  pose proof (CommitmentFacts.int16_marked (PyStr.lower h) Hlb) as Hmark.
  cbv iota in Hminus, Hplus. rewrite Hv in Hminus, Hplus, Hmark.
  unfold _quote_id_to_commitment_int.
  repeat split.
  - rewrite HexFacts.strip_no_space by (cbn [append PyStr.all]; exact Hns). exact Hminus.
  - rewrite HexFacts.strip_no_space by (cbn [append PyStr.all]; exact Hns). exact Hplus.
  - rewrite HexFacts.strip_no_space by (cbn [append PyStr.all]; exact Hns). exact Hminus.
  - rewrite HexFacts.strip_no_space by (cbn [append PyStr.all]; exact Hns). exact Hmark.
Qed.

Lemma X20_witness :
  _quote_id_to_commitment_int ("-" ++ "2a") = Some (- hex_value "2a") /\
  _quote_id_to_commitment_int ("+" ++ "2a") = Some (hex_value "2a") /\
  _quote_id_to_commitment_int ("0x-" ++ "2a") = Some (- hex_value "2a") /\
  _quote_id_to_commitment_int ("0x0x" ++ "2a") = Some (hex_value "2a").
Proof.
  apply (X20_sign_and_second_marker_are_read "2a"). reflexivity.
Defined.

(** X21. An ASCII id in which hexadecimal digits are followed by an ASCII
    character that is neither a hexadecimal digit nor an underscore, white
    space or the x of a marker is rejected (ValueError), whatever ASCII
    text follows that character. *)
Theorem X21_foreign_ascii_character_is_rejected :
  forall (h : string) (c : ascii) (rest : string),
    is_ascii (h ++ String c rest) = true ->
    is_hex_body h = true ->
    is_hex_char c = false ->
    PyInt.is_underscore c = false ->
    PyStr.isspace c = false ->
    Ascii.eqb "x" (PyStr.lower_char c) = false ->
    _quote_id_to_commitment_int (h ++ String c rest) = None.
Proof.
  intros h c rest _ Hb Hc Hu Hs Hx.
  assert (Hall : PyStr.all is_hex_char h = true)
    by (unfold is_hex_body in Hb; now apply andb_prop in Hb).
  destruct h as [|a t] eqn:Eh; [discriminate|]. rewrite <- Eh in *.
  assert (Ha : is_hex_char a = true)
    by (rewrite Eh in Hall; cbn [PyStr.all] in Hall; now apply andb_prop in Hall).
  unfold _quote_id_to_commitment_int, PyStr.strip.
  (* stripping keeps the digits and the character *)
  assert (Hl : PyStr.lstrip_by PyStr.isspace (h ++ String c rest) = h ++ String c rest).
  { rewrite Eh. cbn [append]. apply PyStrFacts.lstrip_by_head.
    apply negb_true_iff. now apply HexFacts.hex_char_not_space. }
  rewrite Hl, (CommitmentFacts.rstrip_by_keeps _ h c rest Hs).
  set (r := PyStr.rstrip_by PyStr.isspace rest).
  unfold PyStr.lower. rewrite PyStrFacts.map_app. cbn [PyStr.map].
  fold (PyStr.lower h). fold (PyStr.lower r).
  set (c' := PyStr.lower_char c) in *. set (r' := PyStr.lower r).
  assert (Hlb : is_hex_body (PyStr.lower h) = true)
    by now rewrite HexFacts.is_hex_body_lower.
  assert (Hlall : PyStr.all is_hex_char (PyStr.lower h) = true)
    by now rewrite HexFacts.all_hex_lower.
  assert (Hc' : is_hex_char c' = false)
    by (unfold c'; now rewrite HexFacts.is_hex_char_lower).
  destruct (CommitmentFacts.lower_char_class c) as [Hs' Hu'].
  fold c' in Hs', Hu'. rewrite Hs in Hs'. rewrite Hu in Hu'.
  rewrite (CommitmentFacts.startswith_0x_body _ c' r' Hlb Hx).
  unfold PyInt.int16.
  assert (Hl' : PyStr.lstrip_by PyStr.isspace (PyStr.lower h ++ String c' r')
                = PyStr.lower h ++ String c' r').
  { rewrite Eh. cbn [PyStr.lower PyStr.map append]. apply PyStrFacts.lstrip_by_head.
    apply negb_true_iff. apply HexFacts.hex_char_not_space.
    now rewrite HexFacts.is_hex_char_lower. }
  rewrite Hl'.
  assert (Hsign : PyInt.split_sign (PyStr.lower h ++ String c' r')
                  = (false, PyStr.lower h ++ String c' r')).
  { rewrite Eh. cbn [PyStr.lower PyStr.map append]. apply HexFacts.split_sign_hex.
    now rewrite HexFacts.is_hex_char_lower. }
  rewrite Hsign.
  assert (Hxx : Ascii.eqb c' "x" || Ascii.eqb c' "X" = false).
  { unfold c' in *. revert Hx. clear. destruct c as [[] [] [] [] [] [] [] []];
      vm_compute; congruence. }
  rewrite (CommitmentFacts.skip_hex_marker_body _ c' r' Hlb Hxx).
  assert (Hd : PyInt.digit_in 16 c' = None).
  { unfold is_hex_char in Hc'. destruct (PyInt.digit_in 16 c'); [discriminate | reflexivity]. }
  rewrite (CommitmentFacts.scan_digits_stops _ c' r' 0 false Hlall) by
    (first [ exact Hd | exact Hu' | rewrite Eh; discriminate ]).
  rewrite PyStrFacts.lstrip_by_head by exact Hs'. reflexivity.
Qed.

Lemma X21_witness : _quote_id_to_commitment_int ("2a" ++ String "g" "0") = None.
Proof.
  apply (X21_foreign_ascii_character_is_rejected "2a" "g" "0"); reflexivity.
Defined.

(* ===================================================================== *)
(** * More on the batch: tasks, records, and how it can end *)
(* ===================================================================== *)

Local Open Scope string_scope.
Local Open Scope Z_scope.
Local Open Scope nat_scope.
Local Open Scope list_scope.

Module BatchFacts.

(** What [safe_swap] does, by the key. *)
Lemma safe_swap_by_key (w : World) (cfg : Config) (delay : Z) (key rpc : string)
    (amount : option PyFloat.float) :
  match from_key w key with
  | Raises e => safe_swap w cfg delay key rpc amount = (Raises e, [])
  | Returns a =>
      exists status result s',
        process_swap w (mkModule (rhino_api_key cfg) key rpc a a a) amount initial_state
        = (Returns (status, result), s') /\
        safe_swap w cfg delay key rpc amount
        = (Returns tt, [mkExport a status "rhino_bridge"])
  end.
Proof.
  unfold safe_swap, new_module.
  destruct (from_key w key) as [a|e]; [|reflexivity].
  destruct (BotFacts.process_swap_returns w
              (mkModule (rhino_api_key cfg) key rpc a a a) amount initial_state)
    as (status & result & s' & Hp).
  exists status, result, s'. split; [exact Hp|]. rewrite Hp. reflexivity.
Qed.

Section Batch_facts.

Variable cfg : Config.
Variable worlds : nat -> World.

(** A block that raises has exported nothing; one that returns has
    exported one record. *)
Lemma run_task_raises (i : nat) (t : string * Z) (e : exn) (recs : list export) :
  run_task cfg worlds i t = (Raises e, recs) ->
  recs = [] /\ from_key (worlds i) (fst t) = Raises e.
Proof.
  unfold run_task.
  pose proof (safe_swap_by_key (worlds i) cfg (snd t) (fst t) (opbnb_rpc_url cfg) None) as H.
  destruct (from_key (worlds i) (fst t)) as [a|e0].
  - destruct H as (st & res & s' & _ & ->). discriminate.
  - rewrite H. intros H0. injection H0 as <- <-. auto.
Qed.

Lemma run_task_returns (i : nat) (t : string * Z) (recs : list export) :
  run_task cfg worlds i t = (Returns tt, recs) ->
  recs = [wallet_record (worlds i) cfg (fst t)] /\
  exists a, from_key (worlds i) (fst t) = Returns a.
Proof.
  destruct t as [wallet delay]. cbn [fst].
  destruct (from_key (worlds i) wallet) as [a|e] eqn:Hk.
  - rewrite (BotFacts.run_task_parsed cfg worlds i wallet delay a Hk).
    intros H. injection H as <-. eauto.
  - rewrite (BotFacts.run_task_unparsed cfg worlds i wallet delay e Hk). discriminate.
Qed.

Variable tasks : list (string * Z).

(** Where a given state stands when the state at one position changes. *)
Lemma state_at (before after l1 l2 : list task_state) (x y : task_state) :
  before ++ x :: after = l1 ++ y :: l2 ->
  (List.length l1 = List.length before /\ x = y) \/
  (List.length l1 <> List.length before /\
   forall z, exists l1' l2',
     before ++ z :: after = l1' ++ y :: l2' /\ List.length l1' = List.length l1).
Proof.
  intros H.
  assert (Hx : nth_error (before ++ x :: after) (List.length l1) = Some y)
    by (rewrite H; apply BotFacts.nth_middle).
  destruct (Nat.eq_dec (List.length l1) (List.length before)) as [Heq|Hne].
  - left. split; [exact Heq|]. rewrite Heq, BotFacts.nth_middle in Hx. congruence.
  - right. split; [exact Hne|]. intros z.
    assert (Hn : nth_error (before ++ z :: after) (List.length l1) = Some y).
    { destruct (Nat.lt_ge_cases (List.length l1) (List.length before)) as [Hlt|Hge].
      - rewrite nth_error_app1 in * by lia. exact Hx.
      - rewrite nth_error_app2 in * by lia.
        destruct (List.length l1 - List.length before) as [|k] eqn:Ek; [lia|]. exact Hx. }
    destruct (nth_error_split _ _ Hn) as (l1' & l2' & Heq & Hl).
    exists l1', l2'. auto.
Qed.

Lemma done_returned_start :
  done_returned cfg worlds tasks (initial_batch cfg (List.length tasks)).
Proof.
  intros l1 l2 H. exfalso. cbn [initial_batch states] in H.
  assert (Hin : In Done (List.repeat Waiting (List.length tasks)))
    by (rewrite H; apply in_elt).
  apply repeat_spec in Hin. discriminate.
Qed.

Lemma done_returned_step (b b' : batch) :
  done_returned cfg worlds tasks b -> step cfg worlds tasks b b' ->
  done_returned cfg worlds tasks b'.
Proof.
  intros Hdone Hstep.
  destruct Hstep as [p before after ex
                    | p before after ex t recs Ht Hrun
                    | p before after ex t e0 recs Ht Hrun];
    unfold done_returned in *; cbn [states] in *; intros l1 l2 H.
  - destruct (state_at _ _ _ _ _ _ H) as [[_ Hx]|[_ Hy]]; [discriminate|].
    destruct (Hy Waiting) as (l1' & l2' & Heq & Hl).
    rewrite <- Hl. eapply Hdone; eauto.
  - destruct (state_at _ _ _ _ _ _ H) as [[Hpos _]|[_ Hy]].
    + rewrite Hpos. eauto.
    + destruct (Hy Holding) as (l1' & l2' & Heq & Hl).
      rewrite <- Hl. eapply Hdone; eauto.
  - destruct (state_at _ _ _ _ _ _ H) as [[_ Hx]|[_ Hy]]; [discriminate|].
    destruct (Hy Holding) as (l1' & l2' & Heq & Hl).
    rewrite <- Hl. eapply Hdone; eauto.
Qed.

Lemma reachable_done_returned (b : batch) :
  reachable cfg worlds tasks b -> done_returned cfg worlds tasks b.
Proof.
  induction 1 as [|b b' _ IH Hstep]; [apply done_returned_start|].
  eapply done_returned_step; eauto.
Qed.

(** The same, read by position. *)
Lemma done_at (b : batch) (j : nat) (t : string * Z) :
  done_returned cfg worlds tasks b ->
  nth_error (states b) j = Some Done -> nth_error tasks j = Some t ->
  exists recs, run_task cfg worlds j t = (Returns tt, recs).
Proof.
  intros Hdone Hst Ht.
  destruct (nth_error_split _ _ Hst) as (l1 & l2 & Heq & Hl).
  destruct (Hdone l1 l2 Heq) as (t' & recs & Ht' & Hrun).
  rewrite Hl in *. assert (t' = t) by congruence. subst t'. eauto.
Qed.

Lemma failed_at_position (b : batch) (j : nat) (t : string * Z) (e : exn) :
  batch_invariant cfg worlds tasks b ->
  nth_error (states b) j = Some (Failed e) -> nth_error tasks j = Some t ->
  exists recs, run_task cfg worlds j t = (Raises e, recs).
Proof.
  intros (_ & _ & _ & Hfail) Hst Ht.
  destruct (nth_error_split _ _ Hst) as (l1 & l2 & Heq & Hl).
  destruct (Hfail l1 e l2 Heq) as (t' & recs & Ht' & Hrun).
  rewrite Hl in *. assert (t' = t) by congruence. subst t'. eauto.
Qed.

End Batch_facts.

Section Counting.

Variable cfg : Config.
Variable worlds : nat -> World.

(** The records of the tasks that left their block are those of the tasks
    that are done, one each. *)
Lemma outputs_length (ts : list (string * Z)) :
  forall sts i,
    List.length sts = List.length ts ->
    (forall j t e, nth_error sts j = Some (Failed e) -> nth_error ts j = Some t ->
                   exists recs, run_task cfg worlds (i + j) t = (Raises e, recs)) ->
    (forall j t, nth_error sts j = Some Done -> nth_error ts j = Some t ->
                 exists recs, run_task cfg worlds (i + j) t = (Returns tt, recs)) ->
    List.length (outputs cfg worlds i sts ts) = List.length (filter is_done sts) /\
    List.length (filter is_done sts) <= List.length ts.
Proof.
  induction ts as [|t ts IH]; intros sts i Hlen Hfail Hdone.
  - destruct sts; [cbn; lia | discriminate].
  - destruct sts as [|st sts]; [discriminate|].
    cbn [List.length] in Hlen. injection Hlen as Hlen.
    destruct (IH sts (S i) Hlen) as [IH1 IH2].
    { intros j t' e Hs Ht. replace (S i + j) with (i + S j) by lia.
      apply (Hfail (S j) t' e); assumption. }
    { intros j t' Hs Ht. replace (S i + j) with (i + S j) by lia.
      apply (Hdone (S j) t'); assumption. }
    cbn [outputs filter List.length]. rewrite length_app, IH1.
    destruct st as [| | |e]; cbn [is_done List.length].
    + lia.
    + lia.
    + destruct (Hdone 0 t eq_refl eq_refl) as [recs Hrun].
      rewrite Nat.add_0_r in Hrun.
      destruct (run_task_returns cfg worlds i t recs Hrun) as [-> _].
      rewrite Hrun. cbn [snd List.length]. lia.
    + destruct (Hfail 0 t e eq_refl eq_refl) as [recs Hrun].
      rewrite Nat.add_0_r in Hrun.
      destruct (run_task_raises cfg worlds i t e recs Hrun) as [-> _].
      rewrite Hrun. cbn [snd List.length]. lia.
Qed.

Lemma keys_parse_of_nth (ws : list string) :
  forall i,
    (forall j wallet, nth_error ws j = Some wallet ->
                      exists a, from_key (worlds (i + j)) wallet = Returns a) ->
    keys_parse worlds i ws = true.
Proof.
  induction ws as [|w0 ws IH]; intros i H; cbn [keys_parse]; [reflexivity|].
  destruct (H 0 w0 eq_refl) as [a Ha]. rewrite Nat.add_0_r in Ha. rewrite Ha.
  apply IH. intros j wallet Hj. replace (S i + j) with (i + S j) by lia.
  now apply (H (S j)).
Qed.

(** Without a permit nothing moves. *)
Lemma no_permit_no_step (tasks : list (string * Z)) (b : batch) :
  threads cfg = 0 ->
  reachable cfg worlds tasks b -> b = initial_batch cfg (List.length tasks).
Proof.
  intros H0. induction 1 as [|b b' _ IH Hstep]; [reflexivity|].
  subst b. exfalso. unfold initial_batch in Hstep. rewrite H0 in Hstep.
  inversion Hstep;
    match goal with
    | H : ?l ++ Holding :: ?r = List.repeat Waiting ?n |- _ =>
        assert (Hin : In Holding (List.repeat Waiting n))
          by (rewrite <- H; apply in_elt);
        apply repeat_spec in Hin; discriminate
    end.
Qed.

End Counting.

Section Moment_facts.

Variable cfg : Config.
Variable worlds : nat -> World.
Variable tasks : list (string * Z).

Lemma count_middle (p : block_state -> bool) (before after : list block_state)
    (x : block_state) :
  List.length (filter p (before ++ x :: after))
  = List.length (filter p before) + (if p x then 1 else 0)
    + List.length (filter p after).
Proof.
  rewrite filter_app, length_app. cbn [filter].
  destruct (p x); cbn [List.length]; lia.
Qed.

(** What holds at every moment: one block per task; the permits taken are
    those of the tasks inside their block, exported or not; the records in
    the sink are those of the tasks that have called [export_result]. *)
Lemma moment_invariant (m : moment) :
  moment_of cfg worlds tasks m ->
  List.length (blocks m) = List.length tasks /\
  List.length (filter in_block (blocks m)) + free m = threads cfg /\
  List.length (sink m) = List.length (filter has_exported (blocks m)).
Proof.
  induction 1 as [|m m' _ (Hlen & Hperm & Hsink) Htick].
  - cbn [blocks free sink]. split; [apply repeat_length|].
    assert (H : forall (p : block_state -> bool) n,
               p Queued = false -> filter p (List.repeat Queued n) = []).
    { intros p n Hp. induction n as [|n IH]; [reflexivity|].
      cbn [List.repeat filter]. now rewrite Hp. }
    rewrite !H by reflexivity. split; reflexivity.
  - destruct Htick as [p before after ex
                      | p before after ex t recs Ht Hrun
                      | p before after ex
                      | p before after ex t e recs Ht Hrun];
      cbn [blocks free sink] in *;
      rewrite ?length_app in *; cbn [List.length] in *;
      rewrite !count_middle in *; cbn [in_block has_exported] in *.
    + repeat split; lia.
    + destruct (run_task_returns cfg worlds _ t recs Hrun) as [-> _].
      cbn [List.length]. repeat split; lia.
    + repeat split; lia.
    + destruct (run_task_raises cfg worlds _ t e recs Hrun) as [-> _].
      cbn [List.length]. repeat split; lia.
Qed.

Lemma block_of_middle (before after : list task_state) (x : task_state) :
  List.map block_of (before ++ x :: after)
  = List.map block_of before ++ block_of x :: List.map block_of after.
Proof. now rewrite map_app. Qed.

(** The states of the batch are among its moments: a task that is done has
    exported and then left its block. *)
Lemma batch_is_moment (b : batch) :
  reachable cfg worlds tasks b -> moment_of cfg worlds tasks (moment_of_batch b).
Proof.
  induction 1 as [|b b' _ IH Hstep].
  - unfold moment_of_batch, initial_batch; cbn [permits states exported].
    rewrite map_repeat. apply moment_start.
  - destruct Hstep as [p before after ex
                      | p before after ex t recs Ht Hrun
                      | p before after ex t e recs Ht Hrun];
      unfold moment_of_batch in *; cbn [permits states exported] in *;
      rewrite block_of_middle in *; cbn [block_of] in *.
    + eapply moment_tick; [exact IH|]. apply tick_enter.
    + eapply moment_tick; [eapply moment_tick; [exact IH|]|].
      * eapply tick_export; rewrite length_map; eauto.
      * apply tick_leave.
    + eapply moment_tick; [exact IH|].
      eapply tick_raise; rewrite length_map; eauto.
Qed.

End Moment_facts.

End BatchFacts.

(** X22. [process_swaps] prepares exactly one task per wallet, in the
    order of the wallets, each with its own delay: a delay of the
    configured range when the maximum is positive, and no delay
    otherwise. *)
Theorem X22_one_task_per_wallet_delay_in_range :
  forall (cfg : Config) (random : nat -> Z) (tasks : list (string * Z)),
    prepare_tasks cfg random 0 (wallets cfg) = Returns tasks ->
    List.map fst tasks = wallets cfg /\
    Forall (fun t => if (0 <? delay_max cfg)%Z
                     then (delay_min cfg <= snd t <= delay_max cfg)%Z
                     else snd t = 0%Z) tasks.
Proof.
  intros cfg random tasks H.
  split; [exact (BotFacts.prepare_tasks_wallets cfg random _ _ _ H)|].
  revert tasks H. generalize 0 as i. generalize (wallets cfg) as ws.
  induction ws as [|w0 ws IH]; intros i tasks H; cbn [prepare_tasks] in H.
  - injection H as <-. constructor.
  - destruct (draw_delay cfg (random i)) as [d|] eqn:Hd; [|discriminate].
    destruct (prepare_tasks cfg random (S i) ws) as [ts|] eqn:E; [|discriminate].
    injection H as <-. constructor; [|exact (IH _ _ E)].
    cbn [snd]. unfold draw_delay, randint in Hd.
    destruct (Z.ltb_spec 0 (delay_max cfg)) as [Hpos|Hnp].
    + destruct (Z.ltb_spec (delay_max cfg) (delay_min cfg)) as [Hlt|Hge]; [discriminate|].
      injection Hd as <-.
      pose proof (Z.mod_pos_bound (random i) (delay_max cfg - delay_min cfg + 1)
                    ltac:(lia)).
      lia.
    + now injection Hd as <-.
Qed.

Lemma X22_witness :
  List.map fst [("k1", 2%Z); ("k1", 3%Z)] = wallets Sample.two_wallets /\
  Forall (fun t => if (0 <? delay_max Sample.two_wallets)%Z
                   then (delay_min Sample.two_wallets <= snd t
                         <= delay_max Sample.two_wallets)%Z
                   else snd t = 0%Z) [("k1", 2%Z); ("k1", 3%Z)].
Proof.
  apply (X22_one_task_per_wallet_delay_in_range Sample.two_wallets
           (fun i => Z.of_nat (S i))).
  reflexivity.
Defined.

(** X23. A delay range with a positive maximum below its minimum cannot
    be drawn from: with at least one wallet, [process_swaps] then raises
    while it prepares the first task, and no wallet is processed and
    nothing is exported. *)
Theorem X23_empty_delay_range_aborts_the_batch :
  forall (cfg : Config) (worlds : nat -> World) (random : nat -> Z),
    (0 < delay_max cfg < delay_min cfg)%Z ->
    wallets cfg <> [] ->
    (exists e, process_swaps cfg worlds random (Aborted e [])) /\
    (forall result,
        process_swaps cfg worlds random result -> exists e, result = Aborted e []).
Proof.
  intros cfg worlds random Hrange Hws.
  assert (Hprep : exists e, prepare_tasks cfg random 0 (wallets cfg) = Raises e).
  { destruct (wallets cfg) as [|w0 ws]; [congruence|].
    cbn [prepare_tasks]. unfold draw_delay, randint.
    replace (0 <? delay_max cfg)%Z with true by (symmetry; apply Z.ltb_lt; lia).
    replace (delay_max cfg <? delay_min cfg)%Z with true by (symmetry; apply Z.ltb_lt; lia).
    eauto. }
  destruct Hprep as [e He]. split.
  - exists e. now apply swaps_not_started.
  - intros result Hrun.
    destruct Hrun as [e' He' | tasks b Hp _ _ | tasks b e' Hp _ _]; [eauto | |];
      congruence.
Qed.

Lemma X23_witness :
  (exists e, process_swaps Cases.empty_range (fun _ => Sample.good) (fun _ => 0%Z)
               (Aborted e [])) /\
  (forall result,
      process_swaps Cases.empty_range (fun _ => Sample.good) (fun _ => 0%Z) result ->
      exists e, result = Aborted e []).
Proof.
  apply (X23_empty_delay_range_aborts_the_batch Cases.empty_range
           (fun _ => Sample.good) (fun _ => 0%Z)).
  - cbn. lia.
  - discriminate.
Defined.

(** X24. [safe_swap] raises exactly when the key of the wallet does not
    parse, with the exception of the constructor and without exporting
    anything.  When the key parses it returns, whatever happens inside
    [process_swap], and exports exactly one record: the address of the
    wallet, the status [process_swap] returned and the label
    "rhino_bridge". *)
Theorem X24_safe_swap_raises_only_on_the_key :
  forall (w : World) (cfg : Config) (delay : Z) (key rpc : string)
         (amount : option PyFloat.float),
    match from_key w key with
    | Raises e => safe_swap w cfg delay key rpc amount = (Raises e, [])
    | Returns a =>
        exists status result s',
          process_swap w (mkModule (rhino_api_key cfg) key rpc a a a) amount initial_state
          = (Returns (status, result), s') /\
          safe_swap w cfg delay key rpc amount
          = (Returns tt, [mkExport a status "rhino_bridge"])
    end.
Proof. exact BatchFacts.safe_swap_by_key. Qed.

(** X25. Whenever [process_swaps] returns normally, every key of the
    batch did parse and exactly one record per wallet was exported, the
    record of that wallet: a batch never completes with a record
    missing. *)
Theorem X25_completed_batch_has_every_record :
  forall (cfg : Config) (worlds : nat -> World) (random : nat -> Z) (ex : list export),
    process_swaps cfg worlds random (Completed ex) ->
    keys_parse worlds 0 (wallets cfg) = true /\
    Permutation ex (wallet_records worlds cfg 0 (wallets cfg)) /\
    List.length ex = List.length (wallets cfg).
Proof.
  intros cfg worlds random ex Hrun.
  inversion Hrun as [ | tasks b Hprep Hreach Hdone Hex | ]. subst.
  pose proof (BotFacts.prepare_tasks_wallets cfg random _ _ _ Hprep) as Hws.
  pose proof (BotFacts.reachable_invariant cfg worlds tasks b Hreach) as Hinv.
  pose proof (BatchFacts.reachable_done_returned cfg worlds tasks b Hreach) as Hret.
  destruct Hinv as (Hlen & Hperm & Hout & Hfail).
  assert (Hkeys : keys_parse worlds 0 (List.map fst tasks) = true).
  { apply BatchFacts.keys_parse_of_nth. intros j wallet Hj. cbn [Nat.add].
    rewrite nth_error_map in Hj.
    destruct (nth_error tasks j) as [t|] eqn:Ht; [|discriminate].
    injection Hj as <-.
    assert (Hst : nth_error (states b) j = Some Done).
    { destruct (nth_error (states b) j) as [st|] eqn:Hs.
      - rewrite forallb_forall in Hdone.
        specialize (Hdone st (nth_error_In _ _ Hs)).
        destruct st; try discriminate. reflexivity.
      - apply nth_error_None in Hs.
        assert (j < List.length tasks) by (apply nth_error_Some; congruence). lia. }
    destruct (BatchFacts.done_at cfg worlds tasks b j t Hret Hst Ht) as [recs Hrt].
    exact (proj2 (BatchFacts.run_task_returns cfg worlds j t recs Hrt)). }
  rewrite (BotFacts.outputs_all_done cfg worlds tasks (states b) 0 Hdone Hlen Hkeys) in Hout.
  rewrite Hws in *.
  split; [exact Hkeys|]. split; [exact Hout|].
  rewrite (Permutation_length Hout). apply BotFacts.wallet_records_length.
Qed.

Lemma X25_witness :
  keys_parse (fun _ => Sample.refusing) 0 (wallets Sample.one_wallet) = true /\
  Permutation [mkExport "0xA1" false "rhino_bridge"]
    (wallet_records (fun _ => Sample.refusing) Sample.one_wallet 0
       (wallets Sample.one_wallet)) /\
  List.length [mkExport "0xA1" false "rhino_bridge"]
  = List.length (wallets Sample.one_wallet).
Proof.
  apply (X25_completed_batch_has_every_record Sample.one_wallet (fun _ => Sample.refusing)
           (fun _ => 0%Z)).
  exact (proj1 BotFacts.refused_wallet_completes).
Defined.

(** X26. At every moment of a batch, however the tasks interleave, the
    records handed to [export_result] so far are as many as the tasks that
    have reached that call: a task that is waiting, that runs its workflow
    or that has failed has exported nothing; a task that has exported, be
    it still inside its block (where [cleanup] runs after the export) or
    out of it, has exported one record.  There are never more records than
    wallets, and the tasks inside their block, exported or not, are as many
    as the permits taken. *)
Theorem X26_one_record_per_task_past_its_export :
  forall (cfg : Config) (worlds : nat -> World) (tasks : list (string * Z)) (m : moment),
    moment_of cfg worlds tasks m ->
    List.length (sink m) = List.length (filter has_exported (blocks m)) /\
    List.length (sink m) <= List.length tasks /\
    List.length (filter in_block (blocks m)) + free m = threads cfg.
Proof.
  intros cfg worlds tasks m Hm.
  destruct (BatchFacts.moment_invariant cfg worlds tasks m Hm) as (Hlen & Hperm & Hsink).
  split; [exact Hsink|]. split; [|exact Hperm].
  rewrite Hsink, <- Hlen. apply filter_length_le.
Qed.

Lemma X26_witness :
  let m := mkMoment 0 [Exported; Queued] [mkExport "0xA1" true "rhino_bridge"] in
  List.length (sink m) = List.length (filter has_exported (blocks m)) /\
  List.length (sink m) <= List.length [("k1", 1%Z); ("k1", 2%Z)] /\
  List.length (filter in_block (blocks m)) + free m = threads Sample.two_wallets.
Proof.
  apply (X26_one_record_per_task_past_its_export Sample.two_wallets (fun _ => Sample.good)
           [("k1", 1%Z); ("k1", 2%Z)]).
  apply (moment_tick _ _ _ (mkMoment 0 [Running; Queued] [])).
  - apply (moment_tick _ _ _ (mkMoment 1 [Queued; Queued] [])); [apply moment_start|].
    apply (tick_enter _ _ _ 0 [] [Queued] []).
  - apply (tick_export _ _ _ 0 [] [Queued] [] ("k1", 1%Z)
             [mkExport "0xA1" true "rhino_bridge"]); [reflexivity|].
    vm_compute. reflexivity.
Defined.

(** X27. A batch without wallets completes at once: [process_swaps]
    returns without a record, and that is the only way it can end,
    whatever the number of permits. *)
Theorem X27_empty_batch_completes :
  forall (cfg : Config) (worlds : nat -> World) (random : nat -> Z),
    wallets cfg = [] ->
    process_swaps cfg worlds random (Completed []) /\
    (forall result, process_swaps cfg worlds random result -> result = Completed []).
Proof.
  intros cfg worlds random Hws.
  assert (Hprep : prepare_tasks cfg random 0 (wallets cfg) = Returns [])
    by (rewrite Hws; reflexivity).
  assert (Hstay : forall b, reachable cfg worlds [] b -> b = initial_batch cfg 0).
  { induction 1 as [|b b' _ IH Hstep]; [reflexivity|].
    subst b. exfalso. unfold initial_batch in Hstep. cbn [List.repeat] in Hstep.
    inversion Hstep;
      match goal with
      | H : ?l ++ ?x :: ?r = [] |- _ => destruct l; discriminate
      end. }
  split.
  - apply (swaps_completed cfg worlds random [] (initial_batch cfg 0));
      [exact Hprep | apply reach_start | reflexivity].
  - intros result Hrun.
    destruct Hrun as [e He | tasks b Hp Hreach Hdone | tasks b e Hp Hreach Hin].
    + congruence.
    + assert (tasks = []) by congruence. subst tasks.
      now rewrite (Hstay b Hreach).
    + assert (tasks = []) by congruence. subst tasks.
      rewrite (Hstay b Hreach) in Hin. destruct Hin.
Qed.

Lemma X27_witness :
  process_swaps Cases.no_wallets (fun _ => Sample.good) (fun _ => 0%Z) (Completed []) /\
  (forall result,
      process_swaps Cases.no_wallets (fun _ => Sample.good) (fun _ => 0%Z) result ->
      result = Completed []).
Proof.
  apply (X27_empty_batch_completes Cases.no_wallets (fun _ => Sample.good) (fun _ => 0%Z)).
  reflexivity.
Defined.

(** X28. With a semaphore of no permit no task ever enters its block: a
    batch of at least one wallet stays as it started, nothing is exported,
    and [process_swaps] neither returns nor raises. *)
Theorem X28_no_permit_no_progress :
  forall (cfg : Config) (worlds : nat -> World) (random : nat -> Z),
    threads cfg = 0 ->
    wallets cfg <> [] ->
    delay_range_ok cfg = true ->
    (forall tasks b, reachable cfg worlds tasks b -> exported b = []) /\
    (forall result, ~ process_swaps cfg worlds random result).
Proof.
  intros cfg worlds random H0 Hws Hrange. split.
  - intros tasks b Hreach.
    now rewrite (BatchFacts.no_permit_no_step cfg worlds tasks b H0 Hreach).
  - intros result Hrun.
    destruct (BotFacts.prepare_tasks_ok cfg random (wallets cfg) Hrange 0) as [ts Hts].
    pose proof (BotFacts.prepare_tasks_wallets cfg random _ _ _ Hts) as Hmap.
    assert (Hne : ts <> []) by (intros ->; cbn in Hmap; congruence).
    destruct Hrun as [e He | tasks b Hp Hreach Hdone | tasks b e Hp Hreach Hin].
    + congruence.
    + assert (tasks = ts) by congruence. subst tasks.
      rewrite (BatchFacts.no_permit_no_step cfg worlds ts b H0 Hreach) in Hdone.
      destruct ts; [congruence | discriminate].
    + assert (tasks = ts) by congruence. subst tasks.
      rewrite (BatchFacts.no_permit_no_step cfg worlds ts b H0 Hreach) in Hin.
      cbn [initial_batch states] in Hin. apply repeat_spec in Hin. discriminate.
Qed.

Lemma X28_witness :
  (forall tasks b,
      reachable Cases.no_permit (fun _ => Sample.good) tasks b -> exported b = []) /\
  (forall result,
      ~ process_swaps Cases.no_permit (fun _ => Sample.good) (fun _ => 0%Z) result).
Proof.
  apply (X28_no_permit_no_progress Cases.no_permit (fun _ => Sample.good) (fun _ => 0%Z)).
  - reflexivity.
  - discriminate.
  - reflexivity.
Defined.

(* ===================================================================== *)
(** * An explicit amount: its text and its value in wei *)
(* ===================================================================== *)

Local Open Scope string_scope.
Local Open Scope Z_scope.

Module FloatTextFacts.
Import PyStr PyInt PyDecimal PyStrFacts AmountFacts.

(** ** The digits of a number, last digit apart *)

Lemma digits_fuel_acc (fuel : positive) :
  forall c acc, digits_fuel fuel c acc = digits_fuel fuel c EmptyString ++ acc.
Proof.
  induction fuel as [f IH|f IH|]; intros c acc; cbn [digits_fuel];
    destruct (c <? 10); try reflexivity.
  all: rewrite (IH (c / 10) (String _ acc)), (IH (c / 10) (String _ EmptyString)).
  all: now rewrite app_assoc.
Qed.

Lemma digits_fuel_any (fuel : positive) :
  forall fuel' c acc,
    0 <= c <= Zpos fuel -> c <= Zpos fuel' ->
    digits_fuel fuel c acc = digits_fuel fuel' c acc.
Proof.
  induction fuel as [f IH|f IH|]; intros fuel' c acc Hc Hc';
    destruct fuel' as [f'|f'|]; cbn [digits_fuel];
    destruct (Z.ltb_spec c 10) as [Hs|Hs]; try reflexivity; try lia.
  all: apply IH; [split; [apply Z.div_pos; lia | apply Z.div_le_upper_bound; lia]
                 | apply Z.div_le_upper_bound; lia].
Qed.

Lemma digits_small (c : Z) :
  0 <= c < 10 -> digits c = String (digit_char c) EmptyString.
Proof.
  intros Hc. destruct c as [|p|p]; try lia; [reflexivity|].
  unfold digits. destruct p as [f|f|]; cbn [digits_fuel];
    replace (Zpos _ <? 10) with true by (symmetry; apply Z.ltb_lt; lia);
    now rewrite Z.mod_small by lia.
Qed.

Lemma digits_step (c : Z) :
  10 <= c -> digits c = digits (c / 10) ++ String (digit_char (c mod 10)) EmptyString.
Proof.
  intros Hc. destruct c as [|p|p]; try lia.
  assert (Hq : 0 < Zpos p / 10) by (apply Z.div_str_pos; lia).
  destruct (Zpos p / 10) as [|q|q] eqn:Eq; try lia.
  unfold digits.
  destruct p as [f|f|]; try lia; cbn [digits_fuel];
    replace (Zpos _ <? 10) with false by (symmetry; apply Z.ltb_ge; lia);
    rewrite Eq, digits_fuel_acc; f_equal;
    apply digits_fuel_any; rewrite <- Eq;
    try (split; [apply Z.div_pos; lia | apply Z.div_le_upper_bound; lia]); lia.
Qed.

Lemma digits_last (c : Z) :
  0 <= c -> exists s0, digits c = s0 ++ String (digit_char (c mod 10)) EmptyString.
Proof.
  intros Hc. destruct (Z.lt_ge_cases c 10) as [Hs|Hs].
  - exists EmptyString. rewrite Z.mod_small by lia. now apply digits_small.
  - exists (digits (c / 10)). now apply digits_step.
Qed.

(** ** Prefixes and suffixes of a text with something appended *)

Lemma take_app (n : nat) (s t : string) :
  (n <= String.length s)%nat -> take n (s ++ t) = take n s.
Proof.
  revert s; induction n as [|n IH]; intros s H.
  - destruct s, t; reflexivity.
  - destruct s as [|c s]; cbn [String.length] in H; [lia|].
    cbn [append take]. rewrite IH by lia. reflexivity.
Qed.

Lemma drop_app (n : nat) (s t : string) :
  (n <= String.length s)%nat -> drop n (s ++ t) = drop n s ++ t.
Proof.
  revert s; induction n as [|n IH]; intros s H.
  - reflexivity.
  - destruct s as [|c s]; cbn [String.length] in H; [lia|].
    cbn [append drop]. apply IH. lia.
Qed.

Lemma take_nonempty (n : nat) (s : string) :
  (0 < n)%nat -> s <> EmptyString -> take n s <> EmptyString.
Proof. destruct n; [lia|]. destruct s; [congruence | discriminate]. Qed.

(** ** The positional text, last digit apart *)

Lemma match_nonempty {A} (F : string) (a b : A) :
  F <> EmptyString ->
  match F with EmptyString => a | String _ _ => b end = b.
Proof. destruct F; [congruence | reflexivity]. Qed.

Lemma app_last_nonempty (X : string) (d : ascii) : X ++ String d EmptyString <> EmptyString.
Proof. destruct X; discriminate. Qed.

(** The text of [c * 10^e], [e < 0], is a text followed by the last digit
    of [c]. *)
Lemma format_f_last (c e : Z) :
  0 <= c -> e < 0 ->
  exists Y, format_f (mkDecimal false c e) = Y ++ String (digit_char (c mod 10)) EmptyString.
Proof.
  intros Hc He. unfold format_f. cbn [coeff exp neg].
  destruct (digits_last c Hc) as [s0 Hs]. rewrite Hs.
  set (d := digit_char (c mod 10)).
  rewrite length_app. cbn [String.length].
  set (len0 := String.length s0).
  replace (Z.of_nat (len0 + 1)) with (Z.of_nat len0 + 1) by lia.
  set (dp := e + (Z.of_nat len0 + 1)).
  change ("" ++ ?x) with x.
  destruct (Z.ltb_spec dp 0) as [Hneg|Hnn].
  - rewrite <- app_assoc.
    rewrite match_nonempty by apply app_last_nonempty.
    exists ("0" ++ "." ++ PyStr.repeat "0" (Z.to_nat (- dp)) ++ s0).
    now rewrite !app_assoc.
  - replace (Z.of_nat len0 + 1 <? dp) with false by (symmetry; apply Z.ltb_ge; lia).
    assert (Hle : (Z.to_nat dp <= len0)%nat) by lia.
    rewrite take_app, drop_app by exact Hle.
    rewrite match_nonempty by apply app_last_nonempty.
    eexists. rewrite <- !app_assoc. reflexivity.
Qed.

(** Dropping the last digit of [c] drops the last character of the text;
    when no decimal is left, the point stays behind. *)
Lemma format_f_step (c e : Z) :
  10 <= c -> e < 0 ->
  format_f (mkDecimal false c e)
  = (if e + 1 <? 0
     then format_f (mkDecimal false (c / 10) (e + 1))
     else format_f (mkDecimal false (c / 10) 0) ++ ".")
    ++ String (digit_char (c mod 10)) EmptyString.
Proof.
  intros Hc He. unfold format_f. cbn [coeff exp neg].
  rewrite (digits_step c Hc).
  set (d := digit_char (c mod 10)). set (s' := digits (c / 10)).
  assert (Hs' : s' <> EmptyString) by apply digits_nonempty.
  rewrite length_app. cbn [String.length].
  set (len' := String.length s').
  assert (Hlen : (0 < len')%nat) by (unfold len'; destruct s'; [congruence | cbn; lia]).
  replace (Z.of_nat (len' + 1)) with (Z.of_nat len' + 1) by lia.
  replace (e + (Z.of_nat len' + 1)) with (e + 1 + Z.of_nat len') by lia.
  set (dp := e + 1 + Z.of_nat len').
  change ("" ++ ?x) with x.
  destruct (Z.ltb_spec dp 0) as [Hneg|Hnn].
  - replace (e + 1 <? 0) with true by (symmetry; apply Z.ltb_lt; lia).
    rewrite <- app_assoc.
    rewrite match_nonempty by apply app_last_nonempty.
    rewrite match_nonempty
      by (destruct (PyStr.repeat "0" (Z.to_nat (- dp))); [exact Hs' | discriminate]).
    now rewrite !app_assoc.
  - replace (Z.of_nat len' + 1 <? dp) with false by (symmetry; apply Z.ltb_ge; lia).
    assert (Hle : (Z.to_nat dp <= len')%nat) by lia.
    rewrite take_app, drop_app by exact Hle.
    rewrite match_nonempty by apply app_last_nonempty.
    destruct (Z.ltb_spec (e + 1) 0) as [He1|He1].
    + replace (Z.of_nat len' <? dp) with false by (symmetry; apply Z.ltb_ge; lia).
      rewrite (match_nonempty (drop (Z.to_nat dp) s')).
      2:{ intros Hd. apply (f_equal String.length) in Hd.
          rewrite length_drop in Hd. cbn in Hd. fold len' in Hd. lia. }
      now rewrite !app_assoc.
    + assert (He0 : e + 1 = 0) by lia.
      assert (Hdp : Z.to_nat dp = len') by lia.
      replace (0 + Z.of_nat len') with dp by lia.
      replace (Z.of_nat len' <? dp) with false by (symmetry; apply Z.ltb_ge; lia).
      rewrite Hdp. unfold len'. rewrite take_all, drop_all.
      replace (dp <? 0) with false by (symmetry; apply Z.ltb_ge; lia).
      destruct s' as [|a s'']; [congruence|].
      cbn [append]. rewrite app_empty_r, app_assoc. reflexivity.
Qed.

(** ** Stripping the zeros and the point *)

Lemma digit_char_not_zero (k : Z) :
  0 <= k < 10 -> k <> 0 -> Ascii.eqb "0" (digit_char k) = false.
Proof.
  intros H Hk. destruct (small_cases k H)
    as [ -> | [ -> | [ -> | [ -> | [ -> | [ -> | [ -> | [ -> | [ -> | -> ] ] ] ] ] ] ] ] ];
    try reflexivity. congruence.
Qed.

Lemma digit_char_not_point (k : Z) :
  0 <= k < 10 -> Ascii.eqb "." (digit_char k) = false.
Proof.
  intros H. destruct (small_cases k H)
    as [ -> | [ -> | [ -> | [ -> | [ -> | [ -> | [ -> | [ -> | [ -> | -> ] ] ] ] ] ] ] ] ];
    reflexivity.
Qed.

Lemma format_f_integer (c : Z) : format_f (mkDecimal false c 0) = digits c.
Proof.
  unfold format_f. cbn [coeff exp neg].
  pose proof (digits_nonempty c) as Hne.
  set (s := digits c) in *.
  replace (0 + Z.of_nat (String.length s) <? 0) with false
    by (symmetry; apply Z.ltb_ge; lia).
  replace (Z.of_nat (String.length s) <? 0 + Z.of_nat (String.length s)) with false
    by (symmetry; apply Z.ltb_ge; lia).
  replace (Z.to_nat (0 + Z.of_nat (String.length s))) with (String.length s) by lia.
  rewrite take_all, drop_all.
  destruct s; [congruence|]. cbn [append]. now rewrite app_empty_r.
Qed.

(** The text of [c * 10^e] with its trailing zeros stripped is the text of
    the same number with the zeros taken out of the coefficient; the point
    stays when no decimal is left. *)
Lemma strip_zeros (n : nat) :
  forall c e,
    0 < c -> e <= 0 -> - e <= Z.of_nat n ->
    let c' := fst (Web3.ideal_exponent n c e) in
    let e' := snd (Web3.ideal_exponent n c e) in
    rstrip_by (Ascii.eqb "0")
      (if e <? 0 then format_f (mkDecimal false c e)
       else format_f (mkDecimal false c 0) ++ ".")
    = (if e' <? 0 then format_f (mkDecimal false c' e')
       else format_f (mkDecimal false c' 0) ++ ".") /\
    0 < c' /\ e' <= 0.
Proof.
  assert (Hpoint : forall c,
             rstrip_by (Ascii.eqb "0") (format_f (mkDecimal false c 0) ++ ".")
             = format_f (mkDecimal false c 0) ++ ".").
  { intros c. now rewrite (CommitmentFacts.rstrip_by_keeps _ _ "." EmptyString). }
  induction n as [|n IH]; intros c e Hc He Hn; cbn [Web3.ideal_exponent].
  - assert (e = 0) by lia. subst e. cbn [fst snd Z.ltb Z.compare].
    split; [apply Hpoint | lia].
  - destruct (Z.ltb_spec e 0) as [Hlt|Hge]; cbn [andb].
    + destruct (Z.eqb_spec (c mod 10) 0) as [Hm|Hm].
      * pose proof (Z.div_mod c 10 ltac:(lia)) as Hdm.
        assert (Hc10 : 10 <= c) by lia.
        destruct (IH (c / 10) (e + 1) ltac:(lia) ltac:(lia) ltac:(lia)) as (IH1 & IH2 & IH3).
        cbv zeta in *. split; [|split; assumption].
        rewrite <- IH1, (format_f_step c e Hc10 Hlt), Hm.
        change (digit_char 0) with "0"%char.
        now apply CommitmentFacts.rstrip_by_app_all.
      * cbn [fst snd].
        replace (e <? 0) with true by (symmetry; apply Z.ltb_lt; lia).
        split; [|lia].
        destruct (format_f_last c e ltac:(lia) Hlt) as [Y ->].
        rewrite CommitmentFacts.rstrip_by_keeps; [reflexivity|].
        apply digit_char_not_zero; [apply Z.mod_pos_bound; lia | exact Hm].
    + assert (e = 0) by lia. subst e. cbn [fst snd Z.ltb Z.compare].
      split; [apply Hpoint | lia].
Qed.

(** The amount text of a float whose value is [n > 0] wei is the text of
    [from_wei(n)]. *)
Lemma amount_text_of_wei (n : Z) :
  0 < n ->
  rstrip_by (Ascii.eqb ".")
    (rstrip_by (Ascii.eqb "0") (format_f (mkDecimal false n (-18))))
  = format_f (mkDecimal false (fst (Web3.ideal_exponent 18 n (-18)))
                (snd (Web3.ideal_exponent 18 n (-18)))).
Proof.
  intros Hn.
  destruct (strip_zeros 18 n (-18) Hn ltac:(lia) ltac:(cbn; lia)) as (H & Hc' & He').
  cbv zeta in H. change (-18 <? 0) with true in H. cbv iota in H. rewrite H.
  set (c' := fst (Web3.ideal_exponent 18 n (-18))) in *.
  set (e' := snd (Web3.ideal_exponent 18 n (-18))) in *.
  destruct (Z.ltb_spec e' 0) as [Hlt|Hge].
  - destruct (format_f_last c' e' ltac:(lia) Hlt) as [Y HY]. rewrite HY.
    rewrite CommitmentFacts.rstrip_by_keeps; [reflexivity|].
    apply digit_char_not_point. apply Z.mod_pos_bound. lia.
  - assert (e' = 0) by lia. replace e' with 0 by lia.
    rewrite (CommitmentFacts.rstrip_by_app_all _ _ ".") by reflexivity.
    rewrite format_f_integer. apply rstrip_by_none.
    apply all_digits. intros d Hd. now rewrite digit_char_not_point.
Qed.

(** A positive finite float is not [<= 0]. *)
Lemma positive_not_le_zero (m : positive) (e : Z) :
  PyFloat.le_zero (S754_finite false m e) = false.
Proof. reflexivity. Qed.

(** The scaled value is the nearest integer to [m * 2^e * 10^18]. *)
Lemma scaled18_nearest (m : positive) (e : Z) :
  0 <= PyFloatText.scaled18 m e /\
  (0 <= e -> PyFloatText.scaled18 m e = Zpos m * 10 ^ 18 * 2 ^ e) /\
  (e < 0 ->
   2 * Z.abs (PyFloatText.scaled18 m e * 2 ^ (- e) - Zpos m * 10 ^ 18) <= 2 ^ (- e)).
Proof.
  unfold PyFloatText.scaled18.
  assert (H18 : 0 < 10 ^ 18) by reflexivity.
  set (num := Zpos m * 10 ^ 18).
  assert (Hnum : 0 < num) by (unfold num; lia).
  destruct (Z.leb_spec 0 e) as [He|He].
  - assert (0 < 2 ^ e) by (apply Z.pow_pos_nonneg; lia).
    split; [nia|]. split; [reflexivity | lia].
  - assert (HP : 0 < 2 ^ (- e)) by (apply Z.pow_pos_nonneg; lia).
    set (P := 2 ^ (- e)) in *.
    pose proof (Z.div_mod num P ltac:(lia)) as Hdm.
    pose proof (Z.mod_pos_bound num P HP) as Hr.
    assert (Hq : 0 <= num / P) by (apply Z.div_pos; lia).
    cbv zeta.
    destruct ((P <? 2 * (num mod P)) || ((2 * (num mod P) =? P) && Z.odd (num / P))) eqn:E.
    + assert (Hup : P <= 2 * (num mod P)).
      { apply orb_prop in E as [E|E]; [apply Z.ltb_lt in E; lia|].
        apply andb_prop in E as [E _]. apply Z.eqb_eq in E. lia. }
      split; [lia|]. split; [lia|]. intros _. nia.
    + apply orb_false_iff in E as [E _]. apply Z.ltb_ge in E.
      split; [lia|]. split; [lia|]. intros _. nia.
Qed.

End FloatTextFacts.

(** X29. With an explicit amount the balance of the wallet is never read:
    whatever the amount and however the run ends, no balance call is among
    the calls of [process_swap], so the amount is quoted, committed and
    deposited without being compared to what the wallet holds. *)
Theorem X29_explicit_amount_reads_no_balance :
  forall (w : World) (self : module) (x : PyFloat.float) (s : module_state),
    exists ext,
      trace (snd (process_swap w self (Some x) s)) = (trace s ++ ext)%list /\
      Forall (fun c => match c with GetBalance _ => False | _ => True end) ext.
Proof.
  intros w self x s.
  set (P := fun c : call => match c with GetBalance _ => False | _ => True end).
  change (Calls.emits_from P s (process_swap w self (Some x))).
  unfold process_swap.
  apply CallFacts.emits_from_try; [|intros; apply CallFacts.emits_from_pure; reflexivity].
  apply CallFacts.emits_from_bind; [|intros; apply CallFacts.emits_from_pure; reflexivity].
  unfold process_swap_body.
  apply CallFacts.emits_from_bind.
  { apply CallFacts.emits_load_route; intros; exact I. }
  intros r s1 _.
  apply CallFacts.emits_from_bind.
  { apply CallFacts.emits_from_pure. cbn [resolve_amount].
    destruct (PyFloat.le_zero x); reflexivity. }
  intros a s2 _.
  apply DepositFacts.emits_quote_commit_deposit; intros; exact I.
Qed.

(** X30. For a world that prints floats as CPython does, an explicit
    amount that is positive and finite is resolved without any call to the
    text of the nearest number of wei: the amount times 10^18 is rounded to
    the nearest integer [n], a tie going to the even one, and the text,
    read back by [Decimal] and [to_wei], is worth exactly [n] wei (for [n]
    up to 2^256 - 1).  An amount of less than half a wei passes the check
    "amount > 0" and is quoted as "0". *)
Theorem X30_explicit_amount_is_rounded_to_the_wei :
  forall (w : World) (self : module) (s : module_state) (m : positive) (e : Z),
    (forall x, format_18f w x = PyFloatText.format_18f x) ->
    let amount := S754_finite false m e in
    let n := PyFloatText.scaled18 m e in
    resolve_amount w self (Some amount) s
    = (Returns (PyFloatText.amount_text amount), s) /\
    (0 <= e -> n = Zpos m * 10 ^ 18 * 2 ^ e) /\
    (e < 0 -> 2 * Z.abs (n * 2 ^ (- e) - Zpos m * 10 ^ 18) <= 2 ^ (- e)) /\
    (n = 0 -> PyFloatText.amount_text amount = "0") /\
    (n <= Web3.MAX_WEI ->
     exists d,
       PyDecimal.of_string (PyFloatText.amount_text amount) = Some d /\
       Web3.to_wei d = Some n).
Proof.
  intros w self s m e Hfmt amount n.
  destruct (FloatTextFacts.scaled18_nearest m e) as (Hn0 & Hexact & Hnear).
  fold n in Hn0, Hexact, Hnear.
  assert (Htext : PyFloatText.amount_text amount
                  = PyStr.rstrip_by (Ascii.eqb ".")
                      (PyStr.rstrip_by (Ascii.eqb "0")
                         (PyDecimal.format_f (PyDecimal.mkDecimal false n (-18))))).
  { reflexivity. }
  split; [|split; [exact Hexact|split; [exact Hnear|split]]].
  - cbn [resolve_amount]. unfold amount.
    rewrite FloatTextFacts.positive_not_le_zero, Hfmt. reflexivity.
  - intros H0. rewrite Htext, H0. reflexivity.
  - intros Hmax. rewrite Htext.
    destruct (Z.eq_dec n 0) as [H0|Hne].
    + rewrite H0. exists (PyDecimal.mkDecimal false 0 0). split; reflexivity.
    + assert (Hpos : 0 < n <= Web3.MAX_WEI) by lia.
      destruct (AmountFacts.wei_text_roundtrip n Hpos) as (d & Hfrom & Hback & Hwei).
      exists d. split; [|exact Hwei].
      rewrite (FloatTextFacts.amount_text_of_wei n ltac:(lia)).
      unfold Web3.from_wei in Hfrom.
      replace (n =? 0) with false in Hfrom by (symmetry; apply Z.eqb_neq; lia).
      replace ((n <? 0) || (Web3.MAX_WEI <? n)) with false in Hfrom
        by (symmetry; apply orb_false_iff; split; apply Z.ltb_ge; lia).
      destruct (Web3.ideal_exponent 18 n (-18)) as [c' e']. cbn [fst snd].
      injection Hfrom as <-. exact Hback.
Qed.

Lemma X30_witness :
  let amount := S754_finite false 4503599627370496 (-53) in
  let n := PyFloatText.scaled18 4503599627370496 (-53) in
  resolve_amount (PyFloatText.python_text Sample.good) Sample.self (Some amount)
    initial_state
  = (Returns (PyFloatText.amount_text amount), initial_state) /\
  (0 <= -53 -> n = Zpos 4503599627370496 * 10 ^ 18 * 2 ^ (-53)) /\
  (-53 < 0 -> 2 * Z.abs (n * 2 ^ (- -53) - Zpos 4503599627370496 * 10 ^ 18) <= 2 ^ (- -53)) /\
  (n = 0 -> PyFloatText.amount_text amount = "0") /\
  (n <= Web3.MAX_WEI ->
   exists d,
     PyDecimal.of_string (PyFloatText.amount_text amount) = Some d /\
     Web3.to_wei d = Some n).
Proof.
  apply (X30_explicit_amount_is_rounded_to_the_wei (PyFloatText.python_text Sample.good)
           Sample.self initial_state 4503599627370496 (-53)).
  reflexivity.
Defined.

(** One half of an ether is quoted as "0.5" and worth 5 * 10^17 wei; the
    tie 2^-19 goes to the even digit; a tenth of a wei (the float 1e-19) is quoted as "0". *)
Example amount_texts :
  PyFloatText.amount_text (S754_finite false 4503599627370496 (-53)) = "0.5" /\
  PyFloatText.scaled18 4503599627370496 (-53) = 500000000000000000 /\
  PyFloatText.format_18f (S754_finite false 4503599627370496 (-71))
  = "0.000001907348632812" /\
  PyFloatText.amount_text (S754_finite false 8307674973655724 (-116)) = "0" /\
  PyFloat.le_zero (S754_finite false 8307674973655724 (-116)) = false.
Proof. repeat split; vm_compute; reflexivity. Qed.
